(** * Underscore-underline: the markup span resolver

    A shallow embedding of [src/toggle-command.ts] (word detection, the
    underline-state classifier, the single-line and multi-line toggles and
    the command dispatcher) and of the pairing loop of
    [src/editor-decoration.ts], with the properties of the specification
    stated and settled against it.

    JavaScript strings are sequences of UTF-16 code units: a line is a
    [list Z] of code units, columns are integers ([Z], so that
    [selFrom - 2] may leave the line on the left as it does in the source),
    and [line[i]] is an [option]: [None] stands for [undefined]. *)

From Stdlib Require Import ZArith QArith Ascii String List Lia Bool Sorted.
From stdpp Require Import base tactics option list list_numbers.
From Equations Require Import Equations.
From Equations.Prop Require Import Logic.

Open Scope Z_scope.
Open Scope list_scope.

(** ** JavaScript strings *)

Module JS.

Abbreviation jsstring := (list Z).

(** The code units of an ASCII literal, to write lines readably. *)
Fixpoint js (s : string) : jsstring :=
  match s with
  | EmptyString => []
  | String a r => Z.of_N (N_of_ascii a) :: js r
  end.

(** [s.length] *)
Definition len (s : jsstring) : Z := Z.of_nat (length s).

(** [s[i]]: [undefined] outside [0 <= i < s.length]. *)
Definition char_at (s : jsstring) (i : Z) : option Z :=
  if i <? 0 then None else s !! Z.to_nat i.

(** [s.slice(a, b)]: a negative index counts from the end, both indices
    are clamped to the string, and the result is empty when the clamped
    start is not before the clamped end. *)
Definition clamp_index (s : jsstring) (k : Z) : Z :=
  if k <? 0 then Z.max (len s + k) 0 else Z.min k (len s).

Definition slice (s : jsstring) (a b : Z) : jsstring :=
  let from := clamp_index s a in
  let to := clamp_index s b in
  take (Z.to_nat (to - from)) (drop (Z.to_nat from) s).

(** [s.slice(a)] *)
Definition slice_from (s : jsstring) (a : Z) : jsstring :=
  slice s a (len s).

Definition UNDERSCORE : Z := 95.
Definition NEWLINE : Z := 10.

(** [x === "_"] for [x = s[i]]; [undefined === "_"] is false. *)
Definition is_underscore (x : option Z) : bool :=
  match x with
  | Some c => c =? UNDERSCORE
  | None => false
  end.

End JS.
Import JS.

(** ** Word detection and the classifier ([src/toggle-command.ts]) *)

(** The class [\s] of a regular expression without the [u] flag: the
    white space and line terminator code units. *)
Definition is_whitespace (c : Z) : bool :=
  existsb (Z.eqb c)
    [9; 10; 11; 12; 13; 32; 160; 5760; 8232; 8233; 8239; 8287; 12288; 65279]
  || ((8192 <=? c) && (c <=? 8202)).

(** [const STOP_CHARS = /[\s_*~`[\]()|#]/], as a predicate on one code
    unit. *)
Definition STOP_CHARS (c : Z) : bool :=
  is_whitespace c
  || existsb (Z.eqb c) [95; 42; 126; 96; 91; 93; 40; 41; 124; 35].

(** [STOP_CHARS.test(line[i])]. The argument of [test] is converted to a
    string: [undefined] becomes the text "undefined", in which no character
    is a stop character, so the test is false outside the line. *)
Definition STOP_CHARS_test (x : option Z) : bool :=
  match x with
  | Some c => STOP_CHARS c
  | None => false
  end.

(** The anonymous result type [{ from: number; to: number }]. *)
Module Range.
Record t := mk { from : Z; to : Z }.
End Range.

(** [while (left > 0 && !STOP_CHARS.test(line[left - 1])) left--;] *)
Definition left_cond (line : jsstring) (left : Z) : bool :=
  (0 <? left) && negb (STOP_CHARS_test (char_at line (left - 1))).

Fixpoint expand_left (fuel : nat) (line : jsstring) (left : Z) : Z :=
  match fuel with
  | O => left
  | S n =>
      if left_cond line left then expand_left n line (left - 1) else left
  end.

(** [while (right < line.length && !STOP_CHARS.test(line[right])) right++;] *)
Definition right_cond (line : jsstring) (right : Z) : bool :=
  (right <? len line) && negb (STOP_CHARS_test (char_at line right)).

Fixpoint expand_right (fuel : nat) (line : jsstring) (right : Z) : Z :=
  match fuel with
  | O => right
  | S n =>
      if right_cond line right then expand_right n line (right + 1) else right
  end.

(** [detectWordRange], with the number of iterations allowed to each loop
    made explicit. *)
Definition detectWordRange_fuel (fl fr : nat) (line : jsstring) (ch : Z)
  : Range.t :=
  if (ch <? len line) && STOP_CHARS_test (char_at line ch)
  then {| Range.from := ch; Range.to := ch |}
  else
    let left := expand_left fl line ch in
    let right := expand_right fr line ch in
    {| Range.from := left; Range.to := right |}.

(** The left loop decrements [left] from [ch] and stops at 0 at the latest;
    the right loop increments [right] from [ch] and stops at [line.length]
    at the latest. *)
Definition detectWordRange (line : jsstring) (ch : Z) : Range.t :=
  detectWordRange_fuel (Z.to_nat ch) (Z.to_nat (len line - ch)) line ch.

(** The two loops as big-step relations: a result exists only if the loop
    reaches a state in which its condition is false. *)
Inductive LeftLoop (line : jsstring) : Z -> Z -> Prop :=
| LeftLoop_exit left :
    left_cond line left = false -> LeftLoop line left left
| LeftLoop_iter left r :
    left_cond line left = true ->
    LeftLoop line (left - 1) r -> LeftLoop line left r.

Inductive RightLoop (line : jsstring) : Z -> Z -> Prop :=
| RightLoop_exit right :
    right_cond line right = false -> RightLoop line right right
| RightLoop_iter right r :
    right_cond line right = true ->
    RightLoop line (right + 1) r -> RightLoop line right r.

Inductive DetectWordRange (line : jsstring) (ch : Z) : Range.t -> Prop :=
| Detect_on_stop :
    (ch <? len line) && STOP_CHARS_test (char_at line ch) = true ->
    DetectWordRange line ch {| Range.from := ch; Range.to := ch |}
| Detect_expand l r :
    (ch <? len line) && STOP_CHARS_test (char_at line ch) = false ->
    LeftLoop line ch l -> RightLoop line ch r ->
    DetectWordRange line ch {| Range.from := l; Range.to := r |}.

Record UnderlineState := mkState {
  isUnderlined : bool;
  markFrom : Z;
  markTo : Z;
  contentFrom : Z;
  contentTo : Z
}.

(** Case 1 of [getUnderlineState]: the selection includes the marks. *)
Definition marks_included (line : jsstring) (selFrom selTo : Z) : bool :=
  (2 <=? selTo - selFrom)
  && is_underscore (char_at line selFrom)
  && is_underscore (char_at line (selTo - 1))
  && negb (is_underscore (char_at line (selFrom + 1))).

(** Case 2 of [getUnderlineState]: the selection excludes the marks. *)
Definition marks_excluded (line : jsstring) (selFrom selTo : Z) : bool :=
  (0 <? selFrom)
  && (selTo <? len line)
  && is_underscore (char_at line (selFrom - 1))
  && is_underscore (char_at line selTo)
  && negb (is_underscore (char_at line (selFrom - 2)))
  && negb (is_underscore (char_at line (selTo + 1))).

Definition getUnderlineState (line : jsstring) (selFrom selTo : Z)
  : UnderlineState :=
  if marks_included line selFrom selTo then
    {| isUnderlined := true;
       markFrom := selFrom;
       markTo := selTo;
       contentFrom := selFrom + 1;
       contentTo := selTo - 1 |}
  else if marks_excluded line selFrom selTo then
    {| isUnderlined := true;
       markFrom := selFrom - 1;
       markTo := selTo + 1;
       contentFrom := selFrom;
       contentTo := selTo |}
  else
    {| isUnderlined := false;
       markFrom := selFrom;
       markTo := selTo;
       contentFrom := selFrom;
       contentTo := selTo |}.

(** ** The host editor *)

Module Pos.
(** [EditorPosition] *)
Record t := mk { line : Z; ch : Z }.
End Pos.

(** Modelled from the spec: the host text buffer and its selection (section
    6 of the specification: [getLineText], [replaceRange], [setSelection],
    [setCursor]), which belong to the host application and not to the
    repository. A buffer is a list of lines and one selection, and
    [replaceRange] on one line splices that line with [slice]. The model
    covers the lines the buffer has: the read of any other line number is
    [None], and so is every operation that makes such a read. What the
    host answers there is not part of the repository (section 7 of the
    specification names the empty string), and every property below is
    stated for lines the buffer has. *)
Record Editor := mkEditor {
  lines : list jsstring;
  selFrom : Pos.t;
  selTo : Pos.t
}.

(** Modelled from the spec: [editor.getLine(n)], the buffer read of
    section 6, for the lines the buffer has; [None] marks a line number
    the buffer does not have, which the model leaves open. *)
Definition getLine (editor : Editor) (n : Z) : option jsstring :=
  if n <? 0 then None else lines editor !! Z.to_nat n.

(** [line.slice(0, a) + text + line.slice(b)] *)
Definition splice (line : jsstring) (a b : Z) (text : jsstring) : jsstring :=
  slice line 0 a ++ text ++ slice_from line b.

(** Modelled from the spec: [editor.replaceRange(text, from, to)], the
    buffer write of section 6, which replaces the half-open range with
    [text]; only a range within one line changes the buffer. *)
Definition replaceRange (text : jsstring) (from to : Pos.t) (editor : Editor)
  : option Editor :=
  if Pos.line from =? Pos.line to then
    line ← getLine editor (Pos.line from);
    Some {| lines := <[Z.to_nat (Pos.line from) :=
                        splice line (Pos.ch from) (Pos.ch to) text]>
                      (lines editor);
            selFrom := selFrom editor;
            selTo := selTo editor |}
  else Some editor.

(** Modelled from the spec: [editor.replaceSelection(text)], the buffer
    write of section 6 applied to the current selection. *)
Definition replaceSelection (text : jsstring) (editor : Editor)
  : option Editor :=
  line ← getLine editor (Pos.line (selFrom editor));
  Some {| lines := <[Z.to_nat (Pos.line (selFrom editor)) :=
                      splice line (Pos.ch (selFrom editor))
                             (Pos.ch (selTo editor)) text]>
                    (lines editor);
          selFrom := selFrom editor;
          selTo := selTo editor |}.

(** Modelled from the spec: [editor.setSelection(anchor, head)], the
    selection control of section 6. *)
Definition setSelection (anchor head : Pos.t) (editor : Editor) : Editor :=
  {| lines := lines editor; selFrom := anchor; selTo := head |}.

(** Modelled from the spec: [editor.setCursor(pos)], the selection control
    of section 6. *)
Definition setCursor (pos : Pos.t) (editor : Editor) : Editor :=
  {| lines := lines editor; selFrom := pos; selTo := pos |}.

(** ** The toggles ([src/toggle-command.ts]) *)

(** [`_${content}_`] *)
Definition wrapped (content : jsstring) : jsstring :=
  UNDERSCORE :: content ++ [UNDERSCORE].

Definition applySingleLineToggle (editor : Editor) (lineNum selFrom selTo : Z)
  : option Editor :=
  if selFrom =? selTo then Some editor
  else
    line ← getLine editor lineNum;
    let state := getUnderlineState line selFrom selTo in
    let content := slice line (contentFrom state) (contentTo state) in
    if isUnderlined state then
      editor ← replaceRange content
                 (Pos.mk lineNum (markFrom state))
                 (Pos.mk lineNum (markTo state)) editor;
      Some (setSelection
              (Pos.mk lineNum (markFrom state))
              (Pos.mk lineNum (markFrom state + len content)) editor)
    else
      editor ← replaceRange (wrapped content)
                 (Pos.mk lineNum selFrom) (Pos.mk lineNum selTo) editor;
      let afterMark := selFrom + len content + 2 in
      Some (setSelection
              (Pos.mk lineNum afterMark) (Pos.mk lineNum afterMark) editor).

Definition getLineSlice (line : jsstring) (lineNum : Z) (selFrom selTo : Pos.t)
  : Range.t :=
  if (lineNum =? Pos.line selFrom) && (lineNum =? Pos.line selTo) then
    {| Range.from := Pos.ch selFrom;
       Range.to := Z.min (Pos.ch selTo) (len line) |}
  else if lineNum =? Pos.line selFrom then
    {| Range.from := Pos.ch selFrom; Range.to := len line |}
  else if lineNum =? Pos.line selTo then
    {| Range.from := 0; Range.to := Z.min (Pos.ch selTo) (len line) |}
  else {| Range.from := 0; Range.to := len line |}.

(** A [for] loop over line numbers; it has no result once its body has
    none. *)
Fixpoint for_each {S : Type} (body : S -> Z -> option S) (range : list Z)
  (s : S) : option S :=
  match range with
  | [] => Some s
  | i :: rest => s' ← body s i; for_each body rest s'
  end.

(** [for (let i = a; i <= b; i++)] visits [a, a+1, ..., b]. *)
Definition ascending (a b : Z) : list Z := seqZ a (b - a + 1).

(** [for (let i = b; i >= a; i--)] visits [b, b-1, ..., a]. *)
Definition descending (a b : Z) : list Z := reverse (seqZ a (b - a + 1)).

(** The counters [{ underlined, total }]. *)
Record Count := mkCount { underlined : Z; total : Z }.

(** The body of the loop of [countUnderlinedLines]. *)
Definition count_body (editor : Editor) (selFrom selTo : Pos.t)
  (acc : Count) (i : Z) : option Count :=
  line ← getLine editor i;
  let slice := getLineSlice line i selFrom selTo in
  if Range.to slice <=? Range.from slice then Some acc
  else
    let total' := total acc + 1 in
    if isUnderlined (getUnderlineState line (Range.from slice) (Range.to slice))
    then Some {| underlined := underlined acc + 1; total := total' |}
    else Some {| underlined := underlined acc; total := total' |}.

Definition countUnderlinedLines (editor : Editor) (selFrom selTo : Pos.t)
  : option Count :=
  for_each (count_body editor selFrom selTo)
    (ascending (Pos.line selFrom) (Pos.line selTo))
    {| underlined := 0; total := 0 |}.

(** [underlined > total / 2], the division being that of numbers, not of
    integers. *)
Definition more_than_half (underlined total : Z) : bool :=
  match Qcompare (inject_Z underlined) (Qdiv (inject_Z total) (inject_Z 2)) with
  | Gt => true
  | _ => false
  end.

(** The body of the loop of [applyMultiLineToggle]. *)
Definition toggle_body (shouldRemove : bool) (selFrom selTo : Pos.t)
  (editor : Editor) (i : Z) : option Editor :=
  line ← getLine editor i;
  let slice := getLineSlice line i selFrom selTo in
  if Range.to slice <=? Range.from slice then Some editor
  else
    let state := getUnderlineState line (Range.from slice) (Range.to slice) in
    let content := JS.slice line (contentFrom state) (contentTo state) in
    if shouldRemove && isUnderlined state then
      replaceRange content
        (Pos.mk i (markFrom state)) (Pos.mk i (markTo state)) editor
    else if negb shouldRemove && negb (isUnderlined state) then
      replaceRange (wrapped content)
        (Pos.mk i (Range.from slice)) (Pos.mk i (Range.to slice)) editor
    else Some editor.

Definition applyMultiLineToggle (editor : Editor) (selFrom selTo : Pos.t)
  : option Editor :=
  count ← countUnderlinedLines editor selFrom selTo;
  let shouldRemove := more_than_half (underlined count) (total count) in
  for_each (toggle_body shouldRemove selFrom selTo)
    (descending (Pos.line selFrom) (Pos.line selTo)) editor.

Definition toggleUnderlineCommand (editor : Editor) : option Editor :=
  let from := selFrom editor in
  let to := selTo editor in
  let hasSelection :=
    negb (Pos.line from =? Pos.line to) || negb (Pos.ch from =? Pos.ch to) in
  if negb hasSelection then
    line ← getLine editor (Pos.line from);
    let word := detectWordRange line (Pos.ch from) in
    if Range.from word =? Range.to word then
      if (0 <? Pos.ch from) && (Pos.ch from <? len line)
         && is_underscore (char_at line (Pos.ch from - 1))
         && is_underscore (char_at line (Pos.ch from))
      then
        replaceRange []
          (Pos.mk (Pos.line from) (Pos.ch from - 1))
          (Pos.mk (Pos.line from) (Pos.ch from + 1)) editor
      else
        editor ← replaceSelection [UNDERSCORE; UNDERSCORE] editor;
        Some (setCursor (Pos.mk (Pos.line from) (Pos.ch from + 1)) editor)
    else
      applySingleLineToggle editor (Pos.line from)
        (Range.from word) (Range.to word)
  else if Pos.line from =? Pos.line to then
    applySingleLineToggle editor (Pos.line from) (Pos.ch from) (Pos.ch to)
  else applyMultiLineToggle editor from to.

(** The text of line [i]; the empty text stands in for a line the buffer
    does not have. *)
Definition line_of (editor : Editor) (i : Z) : jsstring :=
  default [] (getLine editor i).

(** What the two loops compute for line [i]: the slice [getLineSlice]
    gives, the test [slice.from >= slice.to] failing, and the answer of
    the classifier on the slice. *)
Definition line_slice (editor : Editor) (selFrom selTo : Pos.t) (i : Z)
  : Range.t :=
  getLineSlice (line_of editor i) i selFrom selTo.

Definition slice_counted (editor : Editor) (selFrom selTo : Pos.t) (i : Z)
  : bool :=
  Range.from (line_slice editor selFrom selTo i)
  <? Range.to (line_slice editor selFrom selTo i).

Definition slice_classified (editor : Editor) (selFrom selTo : Pos.t) (i : Z)
  : bool :=
  isUnderlined
    (getUnderlineState (line_of editor i)
       (Range.from (line_slice editor selFrom selTo i))
       (Range.to (line_slice editor selFrom selTo i))).

(** ** The multi-line toggle, in the words of the specification

    What section 4.5 of the specification says of each line, to compare
    with the loops above. *)

(** "Wrap its slice in marks": the line with an underscore put before
    column [a] and another before column [b]. *)
Definition wrap_range (line : jsstring) (a b : Z) : jsstring :=
  take (Z.to_nat a) line ++ [UNDERSCORE]
    ++ take (Z.to_nat (b - a)) (drop (Z.to_nat a) line)
    ++ [UNDERSCORE] ++ drop (Z.to_nat b) line.

(** "Strip its marks": the line without the two columns [markFrom] and
    [markTo - 1] of an underlined state. *)
Definition strip_marks (line : jsstring) (st : UnderlineState) : jsstring :=
  take (Z.to_nat (markFrom st)) line
    ++ take (Z.to_nat (contentTo st - contentFrom st))
         (drop (Z.to_nat (contentFrom st)) line)
    ++ drop (Z.to_nat (markTo st)) line.

(** The selected slice of line [i], as section 4.5 words it: on the first
    line of the selection from the column of [selFrom] to the end of the
    line, on the last line from column 0 to the column of [selTo] or to
    the end of the line where that comes first, on a line in between the
    whole line. *)
Definition selected_slice (editor : Editor) (selFrom selTo : Pos.t) (i : Z)
  : Range.t :=
  let length := len (line_of editor i) in
  if i =? Pos.line selFrom then
    {| Range.from := Pos.ch selFrom; Range.to := length |}
  else if i =? Pos.line selTo then
    {| Range.from := 0; Range.to := Z.min (Pos.ch selTo) length |}
  else {| Range.from := 0; Range.to := length |}.

(** The slice of line [i] is not empty. *)
Definition slice_nonempty (editor : Editor) (selFrom selTo : Pos.t) (i : Z)
  : bool :=
  Range.from (selected_slice editor selFrom selTo i)
  <? Range.to (selected_slice editor selFrom selTo i).

(** The slice of line [i] is classified as underlined. *)
Definition slice_underlined (editor : Editor) (selFrom selTo : Pos.t) (i : Z)
  : bool :=
  isUnderlined
    (getUnderlineState (line_of editor i)
       (Range.from (selected_slice editor selFrom selTo i))
       (Range.to (selected_slice editor selFrom selTo i))).

(** The affected lines whose slice is not empty, and those among them whose
    slice is underlined. *)
Definition nonempty_slices (editor : Editor) (selFrom selTo : Pos.t)
  : list Z :=
  List.filter (slice_nonempty editor selFrom selTo)
    (seqZ (Pos.line selFrom) (Pos.line selTo - Pos.line selFrom + 1)).

Definition underlined_slices (editor : Editor) (selFrom selTo : Pos.t)
  : list Z :=
  List.filter (slice_underlined editor selFrom selTo)
    (nonempty_slices editor selFrom selTo).

(** What the vote does to one affected line: an empty slice gets no edit;
    when marks are removed an underlined slice loses its marks, when marks
    are inserted a slice that is not underlined is wrapped, and a slice
    already in the target state is left alone. *)
Definition voted_line (remove : bool) (line : jsstring) (sl : Range.t)
  : jsstring :=
  if Range.from sl <? Range.to sl then
    let st := getUnderlineState line (Range.from sl) (Range.to sl) in
    if remove then
      if isUnderlined st then strip_marks line st else line
    else
      if isUnderlined st then line
      else wrap_range line (Range.from sl) (Range.to sl)
  else line.

(** ** The pairing loop ([src/editor-decoration.ts]) *)

(** The class [[^_\n]]. *)
Definition content_char (c : Z) : bool :=
  negb (c =? UNDERSCORE) && negb (c =? NEWLINE).

(** The lazy [[^_\n]+?] followed by [_], once [k >= 1] content characters
    are taken: the closing underscore is tried first, and only when it
    fails is one more content character taken. The result is the length of
    the whole match. *)
Fixpoint lazy_tail (rest : jsstring) (k : Z) : option Z :=
  match rest with
  | [] => None
  | c :: rest' =>
      if c =? UNDERSCORE then Some (k + 2)
      else if content_char c then lazy_tail rest' (k + 1)
      else None
  end.

(** A match of [/_([^_\n]+?)_/] that starts at the head of [s]. *)
Definition match_here (s : jsstring) : option Z :=
  match s with
  | c :: d :: rest =>
      if (c =? UNDERSCORE) && content_char d then lazy_tail rest 1 else None
  | _ => None
  end.

(** The leftmost match in the suffix [s] that starts at column [i]. *)
Fixpoint search (s : jsstring) (i : Z) : option (Z * Z) :=
  match match_here s with
  | Some n => Some (i, n)
  | None =>
      match s with
      | [] => None
      | _ :: s' => search s' (i + 1)
      end
  end.

(** [UNDERSCORE_RE.exec(s)] with [UNDERSCORE_RE.lastIndex = lastIndex]: the
    pair of [match.index] and [match[0].length], or [None] for [null]. The
    search starts at [lastIndex], taken as 0 when negative, and fails at
    once when that is past the end of [s]. On success the regular
    expression (it has the [g] flag) sets [lastIndex] to the end of the
    match. *)
Definition exec (s : jsstring) (lastIndex : Z) : option (Z * Z) :=
  let start := Z.max lastIndex 0 in
  if len s <? start then None
  else search (drop (Z.to_nat start) s) start.

(** [UNDERSCORE_RE.lastIndex = 0; while ((match = UNDERSCORE_RE.exec(s))
    !== null) { ... }]: the matches in the order the loop sees them, each
    as [match.index] and [match[0].length]. The loop resumes at the end of
    the last match, which lies further right in the line each time. *)
Equations? matches_from (s : jsstring) (lastIndex : Z) : list (Z * Z)
  by wf (Z.to_nat (len s - lastIndex)) lt :=
  matches_from s lastIndex with inspect (exec s lastIndex) := {
    | exist _ (Some (index, n)) _ => (index, n) :: matches_from s (index + n)
    | exist _ None _ => [] }.
Proof.
  assert (Htail : forall rest k m, lazy_tail rest k = Some m ->
                    k + 2 <= m <= k + 1 + len rest).
  { induction rest as [|c rest IH]; intros k m; simpl; [discriminate|].
    unfold len in *. simpl length. destruct (c =? UNDERSCORE).
    - intros [= <-]. lia.
    - destruct (content_char c); [|discriminate].
      intros Hm. apply IH in Hm. lia. }
  assert (Hsearch : forall t i j m, search t i = Some (j, m) ->
                      i <= j /\ 3 <= m /\ j + m <= i + len t).
  { induction t as [|c t IH]; intros i j m; [discriminate|].
    cbn [search]. destruct (match_here (c :: t)) as [k|] eqn:Hk.
    - intros [= <- <-]. unfold match_here in Hk.
      destruct t as [|d rest]; [discriminate|].
      destruct ((c =? UNDERSCORE) && content_char d); [|discriminate].
      apply Htail in Hk. unfold len in *. simpl length. lia.
    - intros Hm. apply IH in Hm. unfold len in *. simpl length. lia. }
  unfold exec in e. cbv zeta in e.
  destruct (Z.ltb_spec (len s) (Z.max lastIndex 0)) as [Hb|Hb]; [discriminate|].
  apply Hsearch in e. unfold len in *. rewrite length_drop in e. lia.
Qed.

Inductive Decoration :=
| underscoreMarkDecoration
| underscoreContentDecoration.

(** One span found on a line that starts at document offset [lineFrom]:
    [from = line.from + match.index] and [to = from + match[0].length]. *)
Definition span_of (lineFrom : Z) (m : Z * Z) : Range.t :=
  let from := lineFrom + fst m in
  let to := from + snd m in
  {| Range.from := from; Range.to := to |}.

(** The spans the inner loop of [buildDecorations] finds on one sanitized
    line. *)
Definition line_spans (lineFrom : Z) (sanitizedLineText : jsstring)
  : list Range.t :=
  map (span_of lineFrom) (matches_from sanitizedLineText 0).

(** The three [builder.add] calls made for a span. *)
Definition add_span (sp : Range.t) : list (Z * Z * Decoration) :=
  [ (Range.from sp, Range.from sp + 1, underscoreMarkDecoration);
    (Range.from sp + 1, Range.to sp - 1, underscoreContentDecoration);
    (Range.to sp - 1, Range.to sp, underscoreMarkDecoration) ].

Definition line_decorations (lineFrom : Z) (sanitizedLineText : jsstring)
  : list (Z * Z * Decoration) :=
  flat_map add_span (line_spans lineFrom sanitizedLineText).

(** A string matches [[^_\n]+] followed by [_] at columns [0 .. n]. *)
Definition content_then_mark (s : jsstring) (n : Z) : Prop :=
  char_at s n = Some UNDERSCORE
  /\ forall i, 0 <= i < n ->
       exists c, char_at s i = Some c /\ content_char c = true.

(** A match has an underscore at each end and one or more characters of
    the class [[^_\n]] between them. *)
Definition is_match (s : jsstring) (j m : Z) : Prop :=
  0 <= j /\ 3 <= m /\ j + m <= len s
  /\ char_at s j = Some UNDERSCORE
  /\ char_at s (j + m - 1) = Some UNDERSCORE
  /\ forall i, j < i < j + m - 1 ->
       exists c, char_at s i = Some c /\ content_char c = true.

(** The number of underscores on a line. *)
Definition count_underscores (s : jsstring) : nat :=
  length (List.filter (Z.eqb UNDERSCORE) s).

(** ** Blanking the skipped ranges ([src/editor-decoration.ts]) *)

Definition SPACE : Z := 32.

(** [" ".repeat(n)]; a negative count raises a [RangeError], which is
    [None] here. *)
Definition repeat_space (n : Z) : option jsstring :=
  if n <? 0 then None else Some (replicate (Z.to_nat n) SPACE).

Module Line.
(** The fields of a document line that [buildDecorations] reads:
    [line.from], [line.to] and [line.text]. *)
Record t := mk { from : Z; to : Z; text : jsstring }.
End Line.

(** The body of [for (const r of skippedRanges)]: a range that overlaps the
    line is replaced by spaces in the copy of the line text. *)
Definition blank_range (line : Line.t) (sanitizedLineText : jsstring)
  (r : Range.t) : option jsstring :=
  let lineText := Line.text line in
  if (Line.from line <? Range.to r) && (Range.from r <? Line.to line) then
    let start := Z.max 0 (Range.from r - Line.from line) in
    let end_ := Z.min (len lineText) (Range.to r - Line.from line) in
    spaces ← repeat_space (end_ - start);
    Some (slice sanitizedLineText 0 start ++ spaces
            ++ slice_from sanitizedLineText end_)
  else Some sanitizedLineText.

(** A [for ... of] loop whose body may raise. *)
Fixpoint for_of {S A : Type} (body : S -> A -> option S) (items : list A)
  (s : S) : option S :=
  match items with
  | [] => Some s
  | x :: rest => s' ← body s x; for_of body rest s'
  end.

(** [sanitizedLineText] once the loop over [skippedRanges] is over. *)
Definition sanitize (line : Line.t) (skippedRanges : list Range.t)
  : option jsstring :=
  for_of (blank_range line) skippedRanges (Line.text line).

(** The [builder.add] calls [buildDecorations] makes for one line. *)
Definition decorate_line (line : Line.t) (skippedRanges : list Range.t)
  : option (list (Z * Z * Decoration)) :=
  sanitizedLineText ← sanitize line skippedRanges;
  Some (line_decorations (Line.from line) sanitizedLineText).

(** Column [i] of the line lies in one of the skipped ranges. *)
Definition skipped_at (line : Line.t) (skippedRanges : list Range.t) (i : Z)
  : bool :=
  existsb (fun r => (Range.from r <=? Line.from line + i)
                    && (Line.from line + i <? Range.to r))
    skippedRanges.

(** ** The loop over the viewport ([src/editor-decoration.ts]) *)

Module Text.
(** What [buildDecorations] reads of the document [view.state.doc]:
    [doc.length] and [doc.lineAt(pos)], which raises outside the document
    ([None] here). *)
Record t := mk { length : Z; lineAt : Z -> option Line.t }.
End Text.

(** [while (pos <= Math.min(vpTo, doc.length)) { ... }]: the decorations
    added to the builder so far are [builder]. The outer [None] says that
    the allowed number of iterations was used up, [Some None] that an
    iteration raised. *)
Fixpoint scan_viewport (fuel : nat) (doc : Text.t) (vpTo : Z)
  (skippedRanges : list Range.t) (pos : Z)
  (builder : list (Z * Z * Decoration))
  : option (option (list (Z * Z * Decoration))) :=
  match fuel with
  | O => None
  | S n =>
      if pos <=? Z.min vpTo (Text.length doc) then
        match Text.lineAt doc pos with
        | None => Some None
        | Some line =>
            match decorate_line line skippedRanges with
            | None => Some None
            | Some added =>
                let builder' := builder ++ added in
                if Text.length doc <=? Line.to line then Some (Some builder')
                else
                  scan_viewport n doc vpTo skippedRanges (Line.to line + 1)
                    builder'
            end
        end
      else Some (Some builder)
  end.

(** The iterations [buildDecorations] needs at most: each one moves [pos]
    past the line it has read. *)
Definition viewport_fuel (doc : Text.t) (vpFrom : Z) : nat :=
  S (Z.to_nat (Text.length doc + 1 - vpFrom)).

(** [buildDecorations], from the viewport, the document and the
    [skippedRanges] collected from the syntax tree to the decorations
    handed to the builder. *)
Definition buildDecorations (doc : Text.t) (vpFrom vpTo : Z)
  (skippedRanges : list Range.t)
  : option (option (list (Z * Z * Decoration))) :=
  scan_viewport (viewport_fuel doc vpFrom) doc vpTo skippedRanges vpFrom [].

(** The lines of a document: [lineAt] finds, for every position of the
    document, a line that holds the position, is as long as its text and
    ends within the document; and it finds the same line from every
    position of that line. *)
Definition document_lines (doc : Text.t) : Prop :=
  (forall pos, 0 <= pos <= Text.length doc ->
     exists line,
       Text.lineAt doc pos = Some line
       /\ Line.from line <= pos <= Line.to line
       /\ Line.to line = Line.from line + len (Line.text line)
       /\ Line.to line <= Text.length doc)
  /\ (forall pos line pos',
        Text.lineAt doc pos = Some line ->
        Line.from line <= pos' <= Line.to line ->
        Text.lineAt doc pos' = Some line).

(** Ascending order of decorations, as the builder needs it: every
    decoration ends where the next one starts, or before. *)
Definition ascending_decorations (ds : list (Z * Z * Decoration)) : Prop :=
  StronglySorted (fun d1 d2 => snd (fst d1) <= fst (fst d2)) ds.

(** * Properties *)

(** ** Strings *)

Section Strings.
Implicit Types (s t : jsstring) (i a b : Z).

Lemma len_nonneg s : 0 <= len s.
Proof. unfold len. lia. Qed.

Lemma len_app s t : len (s ++ t) = len s + len t.
Proof. unfold len. rewrite length_app. lia. Qed.

Lemma char_at_outside s i : i < 0 \/ len s <= i -> char_at s i = None.
Proof.
  unfold char_at, len. intros [H|H].
  - apply Z.ltb_lt in H. now rewrite H.
  - destruct (i <? 0); [reflexivity|].
    apply lookup_ge_None. lia.
Qed.

Lemma char_at_inside s i : 0 <= i < len s -> is_Some (char_at s i).
Proof.
  unfold char_at, len. intros H.
  destruct (Z.ltb_spec i 0); [lia|].
  apply lookup_lt_is_Some. lia.
Qed.

Lemma char_at_Some_bounds s i c : char_at s i = Some c -> 0 <= i < len s.
Proof.
  intros H. destruct (Z_lt_dec i 0) as [Hn|Hn].
  - rewrite char_at_outside in H by lia. discriminate.
  - destruct (Z_le_dec (len s) i) as [Hl|Hl]; [|lia].
    rewrite char_at_outside in H by lia. discriminate.
Qed.

Lemma char_at_app_l s t i : i < len s -> char_at (s ++ t) i = char_at s i.
Proof.
  unfold char_at, len. intros H. destruct (i <? 0) eqn:E; [reflexivity|].
  apply Z.ltb_ge in E. apply lookup_app_l. lia.
Qed.

Lemma char_at_app_r s t i :
  len s <= i -> char_at (s ++ t) i = char_at t (i - len s).
Proof.
  unfold char_at, len. intros H.
  destruct (Z.ltb_spec i 0); [lia|].
  destruct (Z.ltb_spec (i - Z.of_nat (length s)) 0); [lia|].
  rewrite lookup_app_r by lia. f_equal. lia.
Qed.

Lemma char_at_cons_0 c s : char_at (c :: s) 0 = Some c.
Proof. reflexivity. Qed.

Lemma char_at_cons_pos c s i : 0 < i -> char_at (c :: s) i = char_at s (i - 1).
Proof.
  intros H. change (c :: s) with ([c] ++ s).
  rewrite char_at_app_r; unfold len; simpl; [reflexivity | lia].
Qed.

Lemma char_at_take s i n :
  i < Z.of_nat n -> char_at (take n s) i = char_at s i.
Proof.
  unfold char_at. intros H. destruct (Z.ltb_spec i 0); [reflexivity|].
  apply lookup_take_lt. lia.
Qed.

Lemma char_at_drop s i n :
  0 <= i -> char_at (drop n s) i = char_at s (Z.of_nat n + i).
Proof.
  unfold char_at. intros H.
  destruct (Z.ltb_spec i 0); [lia|].
  destruct (Z.ltb_spec (Z.of_nat n + i) 0); [lia|].
  rewrite lookup_drop. f_equal. lia.
Qed.

(** Within the string, [slice] is the usual sub-list. *)
Lemma slice_inside s a b :
  0 <= a <= b -> b <= len s ->
  slice s a b = take (Z.to_nat (b - a)) (drop (Z.to_nat a) s).
Proof.
  intros Hab Hb. unfold slice, clamp_index.
  destruct (Z.ltb_spec a 0); [lia|].
  destruct (Z.ltb_spec b 0); [lia|].
  rewrite !Z.min_l by lia. reflexivity.
Qed.

Lemma slice_prefix s a : 0 <= a -> slice s 0 a = take (Z.to_nat a) s.
Proof.
  intros Ha. unfold slice, clamp_index. simpl.
  destruct (Z.ltb_spec a 0); [lia|].
  rewrite (Z.min_l 0) by apply len_nonneg. rewrite Z.sub_0_r.
  change (Z.to_nat 0) with 0%nat. rewrite drop_0.
  destruct (Z_le_dec a (len s)).
  - rewrite Z.min_l by lia. reflexivity.
  - rewrite Z.min_r by lia. unfold len in *.
    rewrite !take_ge by lia. reflexivity.
Qed.

Lemma slice_suffix s a : 0 <= a -> slice_from s a = drop (Z.to_nat a) s.
Proof.
  intros Ha. unfold slice_from, slice, clamp_index.
  destruct (Z.ltb_spec a 0); [lia|].
  destruct (Z.ltb_spec (len s) 0); [pose proof (len_nonneg s); lia|].
  rewrite (Z.min_l (len s)) by lia.
  destruct (Z_le_dec a (len s)).
  - rewrite Z.min_l by lia. apply take_ge. rewrite length_drop.
    unfold len in *. lia.
  - rewrite Z.min_r by lia. unfold len in *.
    rewrite !drop_ge by lia. now rewrite take_nil.
Qed.

Lemma len_slice_inside s a b :
  0 <= a <= b -> b <= len s -> len (slice s a b) = b - a.
Proof.
  intros Hab Hb. rewrite slice_inside by assumption.
  unfold len in *. rewrite length_take, length_drop. lia.
Qed.

Lemma char_at_slice s a b i :
  0 <= a <= b -> b <= len s -> 0 <= i < b - a ->
  char_at (slice s a b) i = char_at s (a + i).
Proof.
  intros Hab Hb Hi. rewrite slice_inside by assumption.
  rewrite char_at_take by lia. rewrite char_at_drop by lia.
  f_equal. lia.
Qed.

(** A string is its prefix, a slice and its suffix. *)
Lemma slice_decompose s a b :
  0 <= a <= b -> b <= len s ->
  take (Z.to_nat a) s ++ slice s a b ++ drop (Z.to_nat b) s = s.
Proof.
  intros Hab Hb. rewrite slice_inside by assumption.
  rewrite <- (take_drop (Z.to_nat a) s) at 4. f_equal.
  rewrite <- (take_drop (Z.to_nat (b - a)) (drop (Z.to_nat a) s)) at 2.
  f_equal. rewrite drop_drop. f_equal. lia.
Qed.

End Strings.

(** ** The classifier *)

Lemma is_underscore_outside (line : jsstring) (i : Z) :
  i < 0 \/ len line <= i -> is_underscore (char_at line i) = false.
Proof. intros H. now rewrite char_at_outside. Qed.

Lemma stop_test_outside (line : jsstring) (i : Z) :
  i < 0 \/ len line <= i -> STOP_CHARS_test (char_at line i) = false.
Proof. intros H. now rewrite char_at_outside. Qed.

Lemma is_underscore_inside (line : jsstring) (i : Z) :
  is_underscore (char_at line i) = true -> 0 <= i < len line.
Proof.
  destruct (char_at line i) eqn:E; [|discriminate].
  intros _. eapply char_at_Some_bounds; eassumption.
Qed.

(** The three outcomes of [getUnderlineState], by the case that fires. *)
Lemma getUnderlineState_included (line : jsstring) (selFrom selTo : Z) :
  marks_included line selFrom selTo = true ->
  getUnderlineState line selFrom selTo
  = mkState true selFrom selTo (selFrom + 1) (selTo - 1).
Proof. unfold getUnderlineState. now intros ->. Qed.

Lemma getUnderlineState_excluded (line : jsstring) (selFrom selTo : Z) :
  marks_included line selFrom selTo = false ->
  marks_excluded line selFrom selTo = true ->
  getUnderlineState line selFrom selTo
  = mkState true (selFrom - 1) (selTo + 1) selFrom selTo.
Proof. unfold getUnderlineState. now intros -> ->. Qed.

Lemma getUnderlineState_plain (line : jsstring) (selFrom selTo : Z) :
  marks_included line selFrom selTo = false ->
  marks_excluded line selFrom selTo = false ->
  getUnderlineState line selFrom selTo
  = mkState false selFrom selTo selFrom selTo.
Proof. unfold getUnderlineState. now intros -> ->. Qed.

Lemma not_underlined_state (line : jsstring) (selFrom selTo : Z) :
  isUnderlined (getUnderlineState line selFrom selTo) = false ->
  getUnderlineState line selFrom selTo
  = mkState false selFrom selTo selFrom selTo.
Proof.
  unfold getUnderlineState.
  destruct (marks_included line selFrom selTo); [discriminate|].
  destruct (marks_excluded line selFrom selTo); [discriminate|reflexivity].
Qed.

Lemma isUnderlined_cases (line : jsstring) (selFrom selTo : Z) :
  isUnderlined (getUnderlineState line selFrom selTo)
  = marks_included line selFrom selTo || marks_excluded line selFrom selTo.
Proof.
  unfold getUnderlineState.
  destruct (marks_included line selFrom selTo); [reflexivity|].
  destruct (marks_excluded line selFrom selTo); reflexivity.
Qed.

(** C10. In the state [getUnderlineState] returns for a range
    [selFrom, selTo), when [isUnderlined] holds each mark flanks the content
    by exactly one character ([markFrom = contentFrom - 1] and
    [markTo = contentTo + 1]); when it does not, marks and content are both
    the range itself. *)
Theorem classifier_output_invariant (line : jsstring) (selFrom selTo : Z) :
  let st := getUnderlineState line selFrom selTo in
  (isUnderlined st = true ->
     markFrom st = contentFrom st - 1 /\ markTo st = contentTo st + 1)
  /\ (isUnderlined st = false ->
        markFrom st = selFrom /\ contentFrom st = selFrom
        /\ markTo st = selTo /\ contentTo st = selTo).
Proof.
  unfold getUnderlineState.
  destruct (marks_included line selFrom selTo);
    [|destruct (marks_excluded line selFrom selTo)];
    cbn; (split; intros H); try discriminate; lia.
Qed.

(** C4 as stated fails where the marks-included case, which is checked
    first, also applies: on the line [__a__] the range [1,4) satisfies every
    condition of the marks-excluded case, and the classifier answers with
    the marks [1,4) and the content [2,3), not with [0,5) and [1,4). *)
Lemma marks_excluded_shadowed :
  let line := js "__a__" in
  0 < 1 /\ 4 < len line
  /\ is_underscore (char_at line (1 - 1)) = true
  /\ is_underscore (char_at line 4) = true
  /\ is_underscore (char_at line (1 - 2)) = false
  /\ is_underscore (char_at line (4 + 1)) = false
  /\ getUnderlineState line 1 4 = mkState true 1 4 2 3
  /\ getUnderlineState line 1 4 <> mkState true (1 - 1) (4 + 1) 1 4.
Proof. vm_compute. repeat split; try reflexivity; discriminate. Qed.

(** C4 (amended). For a line and a range with [rangeFrom > 0],
    [rangeTo < line.length], underscores at [rangeFrom - 1] and [rangeTo]
    and none at [rangeFrom - 2] and [rangeTo + 1], to which the
    marks-included case, checked first, does not apply, [getUnderlineState]
    returns [isUnderlined = true] with the marks [rangeFrom - 1, rangeTo + 1)
    and the content [rangeFrom, rangeTo). *)
Theorem marks_excluded_classification
  (line : jsstring) (rangeFrom rangeTo : Z) :
  0 < rangeFrom ->
  rangeTo < len line ->
  is_underscore (char_at line (rangeFrom - 1)) = true ->
  is_underscore (char_at line rangeTo) = true ->
  is_underscore (char_at line (rangeFrom - 2)) = false ->
  is_underscore (char_at line (rangeTo + 1)) = false ->
  marks_included line rangeFrom rangeTo = false ->
  getUnderlineState line rangeFrom rangeTo
  = mkState true (rangeFrom - 1) (rangeTo + 1) rangeFrom rangeTo.
Proof.
  intros Hf Ht Hl Hr Hgl Hgr Hin.
  apply getUnderlineState_excluded; [assumption|].
  unfold marks_excluded. rewrite Hl, Hr, Hgl, Hgr.
  apply Z.ltb_lt in Hf, Ht. now rewrite Hf, Ht.
Qed.

(** The scenario of C4: [getUnderlineState("_hello_", 1, 6)]. *)
Lemma marks_excluded_classification_hello :
  getUnderlineState (js "_hello_") 1 6 = mkState true 0 7 1 6.
Proof.
  apply (marks_excluded_classification (js "_hello_") 1 6); reflexivity.
Defined.

(** C2 as stated fails on the range that holds the two inner marks: on
    the line [__x__] the range [1,4) is the text [_x_], it starts and ends
    on an underscore and its second character is none, so the
    marks-included case, which has no condition on the characters outside
    the range, answers [isUnderlined = true]. *)
Lemma inner_marks_classified_underlined :
  let line := js "__x__" in
  slice line 1 4 = js "_x_"
  /\ getUnderlineState line 1 4 = mkState true 1 4 2 3
  /\ isUnderlined (getUnderlineState line 1 4) <> false.
Proof. vm_compute. repeat split; try reflexivity; discriminate. Qed.

(** C2 (amended). For every line that contains [__x__], where [x] does
    not begin with an underscore, [getUnderlineState] on the content range
    strictly between the inner marks returns [isUnderlined = false],
    whatever surrounds the pair. *)
Theorem double_underscore_content_immune (pre x post : jsstring) :
  head x <> Some UNDERSCORE ->
  let line := pre ++ [UNDERSCORE; UNDERSCORE] ++ x
                  ++ [UNDERSCORE; UNDERSCORE] ++ post in
  isUnderlined
    (getUnderlineState line (len pre + 2) (len pre + 2 + len x)) = false.
Proof.
  intros Hx line. rewrite isUnderlined_cases. apply orb_false_iff. split.
  - unfold marks_included.
    destruct x as [|c x'].
    + replace (2 <=? _) with false; [reflexivity|].
      symmetry. apply Z.leb_gt. unfold len. simpl. lia.
    + assert (Hc : char_at line (len pre + 2) = Some c).
      { unfold line. rewrite char_at_app_r by lia.
        replace (len pre + 2 - len pre) with 2 by lia. reflexivity. }
      rewrite Hc. simpl.
      assert (c <> UNDERSCORE) by (intros ->; now apply Hx).
      apply Z.eqb_neq in H. rewrite H. now rewrite andb_false_r.
  - unfold marks_excluded.
    assert (Hp : char_at line (len pre + 2 - 2) = Some UNDERSCORE).
    { unfold line. rewrite char_at_app_r by lia.
      replace (len pre + 2 - 2 - len pre) with 0 by lia. reflexivity. }
    rewrite Hp. simpl. now rewrite andb_false_r.
Qed.

(** C2 (amended) on the line [a __x__ b]: the content [x] is the range
    [4,5). *)
Lemma double_underscore_content_immune_witness :
  isUnderlined (getUnderlineState (js "a __x__ b") 4 5) = false.
Proof.
  apply (double_underscore_content_immune (js "a ") (js "x") (js " b")).
  vm_compute. discriminate.
Defined.

(** Where [x] begins with an underscore the two underscores before it are
    not the marks next to the content: in [___a___] the range [2,5) is the
    text [_a_], which the marks-included case accepts. *)
Example content_beginning_with_underscore :
  isUnderlined (getUnderlineState (js "___a___") 2 5) = true.
Proof. reflexivity. Qed.

(** ** Word detection *)

Lemma expand_left_runs (line : jsstring) (fuel : nat) (left : Z) :
  left <= Z.of_nat fuel -> LeftLoop line left (expand_left fuel line left).
Proof.
  revert left. induction fuel as [|n IH]; intros left Hle; simpl.
  - apply LeftLoop_exit. unfold left_cond.
    replace (0 <? left) with false; [reflexivity|].
    symmetry. apply Z.ltb_ge. lia.
  - destruct (left_cond line left) eqn:E.
    + apply LeftLoop_iter; [assumption|]. apply IH. lia.
    + now apply LeftLoop_exit.
Qed.

Lemma expand_right_runs (line : jsstring) (fuel : nat) (right : Z) :
  len line - right <= Z.of_nat fuel ->
  RightLoop line right (expand_right fuel line right).
Proof.
  revert right. induction fuel as [|n IH]; intros right Hle; simpl.
  - apply RightLoop_exit. unfold right_cond.
    replace (right <? len line) with false; [reflexivity|].
    symmetry. apply Z.ltb_ge. lia.
  - destruct (right_cond line right) eqn:E.
    + apply RightLoop_iter; [assumption|]. apply IH. lia.
    + now apply RightLoop_exit.
Qed.

Lemma LeftLoop_functional (line : jsstring) (left r1 r2 : Z) :
  LeftLoop line left r1 -> LeftLoop line left r2 -> r1 = r2.
Proof.
  intros H1. revert r2.
  induction H1 as [left Hc|left r Hc _ IH]; intros r2 H2;
    inversion H2; subst; try congruence.
  now apply IH.
Qed.

Lemma RightLoop_functional (line : jsstring) (right r1 r2 : Z) :
  RightLoop line right r1 -> RightLoop line right r2 -> r1 = r2.
Proof.
  intros H1. revert r2.
  induction H1 as [right Hc|right r Hc _ IH]; intros r2 H2;
    inversion H2; subst; try congruence.
  now apply IH.
Qed.

(** What the left loop leaves behind: it stopped because its condition is
    false, and every column it walked over holds no stop character. *)
Lemma LeftLoop_result (line : jsstring) (left r : Z) :
  LeftLoop line left r ->
  r <= left /\ (0 <= left -> 0 <= r)
  /\ left_cond line r = false
  /\ (forall i, r <= i < left -> STOP_CHARS_test (char_at line i) = false).
Proof.
  induction 1 as [left Hc|left r Hc _ (Hle & H0 & Hstop & Hrun)].
  - repeat split; [lia | auto | assumption | intros; lia].
  - unfold left_cond in Hc. apply andb_true_iff in Hc as [Hpos Hns].
    apply Z.ltb_lt in Hpos. apply negb_true_iff in Hns.
    repeat split; [lia | intros; apply H0; lia | assumption |].
    intros i Hi. destruct (Z.eq_dec i (left - 1)) as [->|Hne];
      [assumption | apply Hrun; lia].
Qed.

Lemma RightLoop_result (line : jsstring) (right r : Z) :
  RightLoop line right r ->
  right <= r /\ r <= Z.max right (len line)
  /\ right_cond line r = false
  /\ (forall i, right <= i < r -> STOP_CHARS_test (char_at line i) = false).
Proof.
  induction 1 as [right Hc|right r Hc _ (Hle & Hmax & Hstop & Hrun)].
  - repeat split; [lia | lia | assumption | intros; lia].
  - unfold right_cond in Hc. apply andb_true_iff in Hc as [Hlt Hns].
    apply Z.ltb_lt in Hlt. apply negb_true_iff in Hns.
    repeat split; [lia | lia | assumption |].
    intros i Hi. destruct (Z.eq_dec i right) as [->|Hne];
      [assumption | apply Hrun; lia].
Qed.

Lemma detectWordRange_fuel_runs (line : jsstring) (ch : Z) (fl fr : nat) :
  ch <= Z.of_nat fl -> len line - ch <= Z.of_nat fr ->
  DetectWordRange line ch (detectWordRange_fuel fl fr line ch).
Proof.
  intros Hl Hr. unfold detectWordRange_fuel.
  destruct ((ch <? len line) && STOP_CHARS_test (char_at line ch)) eqn:E.
  - now apply Detect_on_stop.
  - apply Detect_expand;
      [assumption | now apply expand_left_runs | now apply expand_right_runs].
Qed.

Lemma DetectWordRange_functional (line : jsstring) (ch : Z) (r1 r2 : Range.t) :
  DetectWordRange line ch r1 -> DetectWordRange line ch r2 -> r1 = r2.
Proof.
  intros H1 H2. inversion H1; inversion H2; subst; try congruence.
  f_equal; [eapply LeftLoop_functional | eapply RightLoop_functional];
    eassumption.
Qed.

Lemma detectWordRange_runs (line : jsstring) (ch : Z) :
  DetectWordRange line ch (detectWordRange line ch).
Proof. apply detectWordRange_fuel_runs; lia. Qed.

(** The stop characters, as the specification lists them. *)
Lemma STOP_CHARS_set (c : Z) :
  STOP_CHARS c = true <->
  is_whitespace c = true \/ c ∈ js "_*~`[]()|#".
Proof.
  unfold STOP_CHARS. rewrite orb_true_iff. apply or_iff_compat_l.
  rewrite list_elem_of_In.
  change (js "_*~`[]()|#") with [95; 42; 126; 96; 91; 93; 40; 41; 124; 35].
  rewrite existsb_exists. split.
  - intros (x & Hx & Hc). apply Z.eqb_eq in Hc. now subst x.
  - intros Hc. exists c. split; [assumption | apply Z.eqb_refl].
Qed.

(** C8. The stop characters are the white space characters and
    [_ * ~ ` [ ] ( ) | #]. For a line and a column [ch >= 0]: when the
    character at [ch] is a stop character, [detectWordRange] returns the
    empty range [(ch, ch)]; otherwise it returns the range [(from, to)]
    around [ch] that holds no stop character and cannot grow: [from] is the
    line start or follows a stop character, and [to] is at or past the line
    end or sits on a stop character. [detectWordRange("hello world", 8)] is
    [(6, 11)]. *)
Theorem word_boundary_detection (line : jsstring) (ch : Z) :
  0 <= ch ->
  let on_stop := (ch <? len line) && STOP_CHARS_test (char_at line ch) in
  let r := detectWordRange line ch in
  (forall c, STOP_CHARS c = true <->
             is_whitespace c = true \/ c ∈ js "_*~`[]()|#")
  /\ (on_stop = true -> r = Range.mk ch ch)
  /\ (on_stop = false ->
      0 <= Range.from r <= ch
      /\ ch <= Range.to r <= Z.max ch (len line)
      /\ (forall i, Range.from r <= i < Range.to r ->
            STOP_CHARS_test (char_at line i) = false)
      /\ (Range.from r = 0
          \/ STOP_CHARS_test (char_at line (Range.from r - 1)) = true)
      /\ (len line <= Range.to r
          \/ STOP_CHARS_test (char_at line (Range.to r)) = true))
  /\ detectWordRange (js "hello world") 8 = Range.mk 6 11.
Proof.
  intros Hch on_stop r. pose proof (detectWordRange_runs line ch) as Hrun.
  fold r in Hrun. split; [|split; [|split]]; [| | |reflexivity].
  - apply STOP_CHARS_set.
  - intros Hs. inversion Hrun as [Hc|l r' Hc]; [reflexivity|].
    unfold on_stop in Hs. congruence.
  - intros Hs. inversion Hrun as [Hc|l r' Hc HL HR];
      [unfold on_stop in Hs; congruence|].
    cbn [Range.from Range.to].
    apply LeftLoop_result in HL as (Hle & H0 & Hlc & Hlrun).
    apply RightLoop_result in HR as (Hge & Hmax & Hrc & Hrrun).
    repeat split; try lia; try (apply H0; lia).
    + intros i Hi. destruct (Z_lt_dec i ch);
        [apply Hlrun | apply Hrrun]; lia.
    + unfold left_cond in Hlc. apply andb_false_iff in Hlc as [Hz|Hst].
      * left. apply Z.ltb_ge in Hz. specialize (H0 Hch). lia.
      * right. now apply negb_false_iff in Hst.
    + unfold right_cond in Hrc. apply andb_false_iff in Hrc as [Hz|Hst].
      * left. now apply Z.ltb_ge in Hz.
      * right. now apply negb_false_iff in Hst.
Qed.

Lemma word_boundary_detection_witness :
  let line := js "say _hi there_" in
  let r := detectWordRange line 10 in
  0 <= Range.from r <= 10
  /\ 10 <= Range.to r <= Z.max 10 (len line)
  /\ (forall i, Range.from r <= i < Range.to r ->
        STOP_CHARS_test (char_at line i) = false)
  /\ (Range.from r = 0
      \/ STOP_CHARS_test (char_at line (Range.from r - 1)) = true)
  /\ (len line <= Range.to r
      \/ STOP_CHARS_test (char_at line (Range.to r)) = true).
Proof.
  apply (word_boundary_detection (js "say _hi there_") 10); [lia|reflexivity].
Defined.

(** C9. [getUnderlineState] and [detectWordRange] are total on every line
    and every pair of columns. A read outside the line is neither an
    underscore nor a stop character; the classifier answers with one of its
    three states, and when it answers underlined the marks lie within the
    line, also for ranges that touch column 0 or the line end; both loops
    of [detectWordRange] reach their exit, and any larger number of allowed
    iterations gives the same range. *)
Theorem total_on_boundary_input (line : jsstring) (a b : Z) :
  (forall i, i < 0 \/ len line <= i ->
     char_at line i = None
     /\ is_underscore (char_at line i) = false
     /\ STOP_CHARS_test (char_at line i) = false)
  /\ (let st := getUnderlineState line a b in
      (st = mkState true a b (a + 1) (b - 1)
       \/ st = mkState true (a - 1) (b + 1) a b
       \/ st = mkState false a b a b)
      /\ (isUnderlined st = true ->
            0 <= markFrom st /\ markTo st <= len line))
  /\ (exists r, DetectWordRange line a r
        /\ detectWordRange line a = r
        /\ forall fl fr : nat,
             a <= Z.of_nat fl -> len line - a <= Z.of_nat fr ->
             detectWordRange_fuel fl fr line a = r).
Proof.
  split; [|split].
  - intros i Hi. rewrite (char_at_outside line i Hi). repeat split.
  - unfold getUnderlineState.
    destruct (marks_included line a b) eqn:E1;
      [|destruct (marks_excluded line a b) eqn:E2]; cbn.
    + split; [tauto|]. intros _. unfold marks_included in E1.
      repeat (apply andb_true_iff in E1 as [E1 ?]).
      repeat match goal with
             | H : is_underscore _ = true |- _ =>
                 apply is_underscore_inside in H
             end. lia.
    + split; [tauto|]. intros _. unfold marks_excluded in E2.
      repeat (apply andb_true_iff in E2 as [E2 ?]).
      repeat match goal with
             | H : is_underscore _ = true |- _ =>
                 apply is_underscore_inside in H
             end. lia.
    + split; [tauto|]. discriminate.
  - exists (detectWordRange line a). split; [apply detectWordRange_runs|].
    split; [reflexivity|]. intros fl fr Hl Hr.
    eapply DetectWordRange_functional;
      [now apply detectWordRange_fuel_runs | apply detectWordRange_runs].
Qed.

(** ** The editor *)

Section EditorFacts.
Implicit Types (editor : Editor) (line text : jsstring) (n a b : Z).

Lemma getLine_Some editor n line :
  getLine editor n = Some line -> 0 <= n < Z.of_nat (length (lines editor)).
Proof.
  unfold getLine. destruct (Z.ltb_spec n 0); [discriminate|].
  intros Hl%lookup_lt_Some. lia.
Qed.

Lemma getLine_lookup editor n line :
  getLine editor n = Some line -> lines editor !! Z.to_nat n = Some line.
Proof.
  unfold getLine. destruct (Z.ltb_spec n 0); [discriminate | trivial].
Qed.

Lemma replaceRange_line editor n a b text line :
  getLine editor n = Some line ->
  replaceRange text (Pos.mk n a) (Pos.mk n b) editor
  = Some (mkEditor (<[Z.to_nat n := splice line a b text]> (lines editor))
                   (selFrom editor) (selTo editor)).
Proof.
  intros H. unfold replaceRange. cbn [Pos.line Pos.ch].
  rewrite Z.eqb_refl, H. reflexivity.
Qed.

Lemma getLine_updated editor n line line' p q :
  getLine editor n = Some line ->
  getLine (mkEditor (<[Z.to_nat n := line']> (lines editor)) p q) n
  = Some line'.
Proof.
  intros H. pose proof (getLine_Some _ _ _ H) as Hn.
  unfold getLine. cbn [lines]. destruct (Z.ltb_spec n 0); [lia|].
  apply list_lookup_insert_eq. lia.
Qed.

Lemma getLine_other editor n m line' p q :
  0 <= n -> m <> n ->
  getLine (mkEditor (<[Z.to_nat n := line']> (lines editor)) p q) m
  = getLine editor m.
Proof.
  intros Hn Hm. unfold getLine. cbn [lines].
  destruct (Z.ltb_spec m 0); [reflexivity|].
  apply list_lookup_insert_ne. lia.
Qed.

(** The two branches of [applySingleLineToggle]. *)
Lemma toggle_wraps editor n a b line :
  getLine editor n = Some line -> a <> b ->
  isUnderlined (getUnderlineState line a b) = false ->
  applySingleLineToggle editor n a b
  = Some (mkEditor
            (<[Z.to_nat n := splice line a b (wrapped (slice line a b))]>
               (lines editor))
            (Pos.mk n (a + len (slice line a b) + 2))
            (Pos.mk n (a + len (slice line a b) + 2))).
Proof.
  intros Hl Hab Hu. unfold applySingleLineToggle.
  apply Z.eqb_neq in Hab. rewrite Hab, Hl. cbn [mbind option_bind].
  rewrite (not_underlined_state line a b Hu).
  cbn [isUnderlined contentFrom contentTo].
  erewrite replaceRange_line by eassumption. reflexivity.
Qed.

Lemma toggle_unwraps editor n a b line :
  getLine editor n = Some line -> a <> b ->
  let st := getUnderlineState line a b in
  let content := slice line (contentFrom st) (contentTo st) in
  isUnderlined st = true ->
  applySingleLineToggle editor n a b
  = Some (mkEditor
            (<[Z.to_nat n := splice line (markFrom st) (markTo st) content]>
               (lines editor))
            (Pos.mk n (markFrom st))
            (Pos.mk n (markFrom st + len content))).
Proof.
  intros Hl Hab st content Hu. unfold applySingleLineToggle.
  apply Z.eqb_neq in Hab. rewrite Hab, Hl. cbn [mbind option_bind].
  fold st. rewrite Hu. fold content.
  erewrite replaceRange_line by eassumption. reflexivity.
Qed.

End EditorFacts.

(** ** Lines in three parts

    A range [from, to) of a line cuts it into the text before, the text
    selected and the text after. *)

Section Parts.
Implicit Types pre mid post rest text : jsstring.

Lemma slice_parts_pre pre rest :
  slice (pre ++ rest) 0 (len pre) = pre.
Proof.
  rewrite slice_prefix by apply len_nonneg. unfold len.
  rewrite Nat2Z.id. apply take_app_length.
Qed.

Lemma slice_parts_post pre rest :
  slice_from (pre ++ rest) (len pre) = rest.
Proof.
  rewrite slice_suffix by apply len_nonneg. unfold len.
  rewrite Nat2Z.id. apply drop_app_length.
Qed.

Lemma slice_parts_mid pre mid post :
  slice (pre ++ mid ++ post) (len pre) (len pre + len mid) = mid.
Proof.
  pose proof (len_nonneg pre). pose proof (len_nonneg mid).
  pose proof (len_nonneg post).
  rewrite slice_inside by (rewrite ?len_app; lia).
  replace (len pre + len mid - len pre) with (len mid) by lia.
  unfold len. rewrite !Nat2Z.id, drop_app_length. apply take_app_length.
Qed.

Lemma splice_parts pre mid post text :
  splice (pre ++ mid ++ post) (len pre) (len pre + len mid) text
  = pre ++ text ++ post.
Proof.
  unfold splice. rewrite slice_parts_pre. do 2 f_equal.
  rewrite app_assoc. rewrite <- len_app. apply slice_parts_post.
Qed.

End Parts.

(** The parts of a line for a range within it. *)
Lemma line_parts (line : jsstring) (a b : Z) :
  0 <= a <= b -> b <= len line ->
  exists pre mid post,
    line = pre ++ mid ++ post /\ len pre = a /\ len mid = b - a
    /\ pre = take (Z.to_nat a) line
    /\ mid = take (Z.to_nat (b - a)) (drop (Z.to_nat a) line)
    /\ post = drop (Z.to_nat b) line.
Proof.
  intros Hab Hb.
  exists (take (Z.to_nat a) line),
         (take (Z.to_nat (b - a)) (drop (Z.to_nat a) line)),
         (drop (Z.to_nat b) line).
  split; [|split; [|split]]; [| | |auto].
  - rewrite <- slice_inside by assumption. symmetry.
    now apply slice_decompose.
  - unfold len in *. rewrite length_take. lia.
  - unfold len in *. rewrite length_take, length_drop. lia.
Qed.

(** ** A line after its range is wrapped *)

Section Wrapped.
Variables pre mid post : jsstring.

Let line := pre ++ mid ++ post.
Let line' := pre ++ wrapped mid ++ post.

Lemma len_wrapped : len (wrapped mid) = len mid + 2.
Proof.
  unfold wrapped, len. cbn [length]. rewrite length_app. cbn [length]. lia.
Qed.

Lemma wrapped_line_before (i : Z) :
  i < len pre -> char_at line' i = char_at line i.
Proof.
  intros Hi. unfold line, line'. rewrite 2!char_at_app_l by lia. reflexivity.
Qed.

Lemma wrapped_line_open : char_at line' (len pre) = Some UNDERSCORE.
Proof.
  unfold line'. rewrite char_at_app_r by lia.
  rewrite Z.sub_diag. reflexivity.
Qed.

Lemma wrapped_line_content (k : Z) :
  0 <= k < len mid ->
  char_at line' (len pre + 1 + k) = char_at line (len pre + k).
Proof.
  intros Hk. unfold line, line'. rewrite 2!(char_at_app_r pre) by lia.
  replace (len pre + 1 + k - len pre) with (k + 1) by lia.
  replace (len pre + k - len pre) with k by lia.
  unfold wrapped. cbn [app]. rewrite char_at_cons_pos by lia.
  replace (k + 1 - 1) with k by lia.
  rewrite <- app_assoc. rewrite 2!(char_at_app_l mid) by lia. reflexivity.
Qed.

Lemma wrapped_line_close :
  char_at line' (len pre + len mid + 1) = Some UNDERSCORE.
Proof.
  pose proof (len_nonneg mid).
  unfold line'. rewrite char_at_app_r by lia.
  unfold wrapped. cbn [app]. rewrite char_at_cons_pos by lia.
  rewrite <- app_assoc. rewrite char_at_app_r by lia.
  replace (len pre + len mid + 1 - len pre - 1 - len mid) with 0 by lia.
  reflexivity.
Qed.

Lemma wrapped_line_after (k : Z) :
  0 <= k ->
  char_at line' (len pre + len mid + 2 + k)
  = char_at line (len pre + len mid + k).
Proof.
  intros Hk. pose proof (len_nonneg mid).
  unfold line, line'. rewrite 2!(char_at_app_r pre) by lia.
  rewrite (char_at_app_r (wrapped mid)) by (rewrite len_wrapped; lia).
  rewrite (char_at_app_r mid) by lia.
  rewrite len_wrapped. f_equal. lia.
Qed.

Lemma len_wrapped_line : len line' = len line + 2.
Proof.
  unfold line, line'. rewrite !len_app, len_wrapped. lia.
Qed.

(** Case 1 sees the same characters in the wrapped line, one column to
    the right. *)
Lemma marks_included_wrapped :
  0 < len mid ->
  marks_included line' (len pre + 1) (len pre + len mid + 1)
  = marks_included line (len pre) (len pre + len mid).
Proof.
  intros Hm. unfold marks_included.
  replace (len pre + len mid + 1 - (len pre + 1)) with (len mid) by lia.
  replace (len pre + len mid - len pre) with (len mid) by lia.
  destruct (Z.leb_spec 2 (len mid)) as [H2|H2]; [|reflexivity].
  cbn [andb].
  replace (len pre + 1) with (len pre + 1 + 0) at 1 by lia.
  rewrite wrapped_line_content by lia. rewrite Z.add_0_r.
  replace (len pre + len mid + 1 - 1)
    with (len pre + 1 + (len mid - 1)) by lia.
  rewrite wrapped_line_content by lia.
  replace (len pre + (len mid - 1)) with (len pre + len mid - 1) by lia.
  rewrite wrapped_line_content by lia. reflexivity.
Qed.

(** Case 2 finds the two new marks, and fails only on a guard. *)
Lemma marks_excluded_wrapped :
  marks_excluded line' (len pre + 1) (len pre + len mid + 1)
  = negb (is_underscore (char_at line (len pre - 1)))
    && negb (is_underscore (char_at line (len pre + len mid))).
Proof.
  pose proof (len_nonneg pre). pose proof (len_nonneg mid).
  pose proof (len_nonneg post).
  unfold marks_excluded. rewrite len_wrapped_line.
  replace (0 <? len pre + 1) with true by (symmetry; apply Z.ltb_lt; lia).
  replace (len pre + len mid + 1 <? len line + 2) with true
    by (symmetry; apply Z.ltb_lt; unfold line; rewrite !len_app; lia).
  replace (len pre + 1 - 1) with (len pre) by lia.
  rewrite wrapped_line_open, wrapped_line_close.
  replace (len pre + 1 - 2) with (len pre - 1) by lia.
  rewrite wrapped_line_before by lia.
  replace (len pre + len mid + 1 + 1) with (len pre + len mid + 2 + 0) by lia.
  rewrite wrapped_line_after by lia. rewrite Z.add_0_r. reflexivity.
Qed.

(** Toggling the content of the wrapped line: the marks go when the
    classifier finds them, and a second pair is added when it does not. *)
Lemma second_toggle_line :
  0 < len mid ->
  isUnderlined (getUnderlineState line (len pre) (len pre + len mid)) = false ->
  let st := getUnderlineState line' (len pre + 1) (len pre + len mid + 1) in
  let content := slice line' (contentFrom st) (contentTo st) in
  let clean :=
    negb (is_underscore (char_at line (len pre - 1)))
    && negb (is_underscore (char_at line (len pre + len mid))) in
  isUnderlined st = clean
  /\ (clean = true ->
      splice line' (markFrom st) (markTo st) content = line)
  /\ (clean = false ->
      len (splice line' (len pre + 1) (len pre + len mid + 1)
             (wrapped (slice line' (len pre + 1) (len pre + len mid + 1))))
      = len line + 4).
Proof.
  intros Hm Hu st content clean.
  rewrite isUnderlined_cases in Hu. apply orb_false_iff in Hu as [Hin _].
  assert (Hin' : marks_included line' (len pre + 1) (len pre + len mid + 1)
                 = false)
    by (now rewrite marks_included_wrapped).
  assert (Hex' : marks_excluded line' (len pre + 1) (len pre + len mid + 1)
                 = clean)
    by apply marks_excluded_wrapped.
  assert (Hshape : line' = (pre ++ [UNDERSCORE]) ++ mid
                              ++ ([UNDERSCORE] ++ post)).
  { unfold line', wrapped. cbn [app]. rewrite <- !app_assoc.
    cbn [app]. reflexivity. }
  assert (Hcols : len pre + 1 = len (pre ++ [UNDERSCORE])
                  /\ len pre + len mid + 1
                     = len (pre ++ [UNDERSCORE]) + len mid).
  { rewrite len_app. change (len [UNDERSCORE]) with 1. lia. }
  destruct Hcols as [Hc1 Hc2].
  assert (Hmid : slice line' (len pre + 1) (len pre + len mid + 1) = mid).
  { rewrite Hshape, Hc2, Hc1. apply slice_parts_mid. }
  split; [|split].
  - unfold st. now rewrite isUnderlined_cases, Hin', Hex'.
  - intros Hc. unfold content, st.
    rewrite getUnderlineState_excluded by congruence.
    cbn [markFrom markTo contentFrom contentTo]. rewrite Hmid.
    replace (len pre + 1 - 1) with (len pre) by lia.
    replace (len pre + len mid + 1 + 1)
      with (len pre + len (wrapped mid)) by (rewrite len_wrapped; lia).
    apply splice_parts.
  - intros _. rewrite Hmid, Hshape, Hc2, Hc1, splice_parts.
    unfold line. rewrite !len_app, len_wrapped.
    change (len [UNDERSCORE]) with 1. lia.
Qed.

End Wrapped.

(** ** The single-line toggle *)

(** C7. For a line and a non-empty range [from, to) within it that is
    classified as not underlined, the single-line toggle replaces the range
    with underscore, content, underscore, leaves every other line alone and
    collapses the selection to the single point right after the closing
    mark it inserted. *)
Theorem single_line_wrap_and_cursor
  (editor : Editor) (lineNum from to : Z) (line : jsstring) :
  getLine editor lineNum = Some line ->
  0 <= from < to -> to <= len line ->
  isUnderlined (getUnderlineState line from to) = false ->
  let content := take (Z.to_nat (to - from)) (drop (Z.to_nat from) line) in
  let line' := take (Z.to_nat from) line ++ [UNDERSCORE] ++ content
                 ++ [UNDERSCORE] ++ drop (Z.to_nat to) line in
  exists editor',
    applySingleLineToggle editor lineNum from to = Some editor'
    /\ getLine editor' lineNum = Some line'
    /\ (forall m, m <> lineNum -> getLine editor' m = getLine editor m)
    /\ selFrom editor' = Pos.mk lineNum (to + 2)
    /\ selTo editor' = Pos.mk lineNum (to + 2)
    /\ char_at line' (to + 1) = Some UNDERSCORE.
Proof.
  intros Hl Hft Hto Hu content line'.
  destruct (line_parts line from to) as
    (pre & mid & post & Hline & Hpre & Hmid & Epre & Emid & Epost);
    [lia | lia |].
  assert (Hline' : line' = pre ++ wrapped mid ++ post).
  { unfold line', content, wrapped. rewrite <- Epre, <- Emid, <- Epost.
    cbn [app]. rewrite <- app_assoc. reflexivity. }
  assert (Hto' : to = len pre + len mid) by lia.
  eexists. split; [apply toggle_wraps; [eassumption | lia | assumption]|].
  assert (Hsl : slice line from to = mid).
  { rewrite Hline, <- Hpre, Hto'. apply slice_parts_mid. }
  assert (Hsp : splice line from to (wrapped mid) = line').
  { rewrite Hline', Hline, <- Hpre, Hto'. apply splice_parts. }
  rewrite Hsl, Hsp. cbn [selFrom selTo].
  pose proof (getLine_Some _ _ _ Hl) as Hn.
  split; [eapply getLine_updated; eassumption|].
  split; [intros m Hm; apply getLine_other; [lia | assumption]|].
  replace (from + len mid + 2) with (to + 2) by lia.
  split; [reflexivity|]. split; [reflexivity|].
  rewrite Hline', Hto'. apply wrapped_line_close.
Qed.

(** The scenario of C7: ["hello world"], range [6,11). *)
Lemma single_line_wrap_hello_world :
  let editor := mkEditor [js "hello world"] (Pos.mk 0 6) (Pos.mk 0 11) in
  exists editor',
    applySingleLineToggle editor 0 6 11 = Some editor'
    /\ getLine editor' 0 = Some (js "hello _world_")
    /\ (forall m, m <> 0 -> getLine editor' m = getLine editor m)
    /\ selFrom editor' = Pos.mk 0 13
    /\ selTo editor' = Pos.mk 0 13
    /\ char_at (js "hello _world_") 12 = Some UNDERSCORE.
Proof.
  apply (single_line_wrap_and_cursor
           (mkEditor [js "hello world"] (Pos.mk 0 6) (Pos.mk 0 11))
           0 6 11 (js "hello world"));
    [reflexivity | lia | now vm_compute | reflexivity].
Defined.

(** C1 as stated fails next to an underscore: on the line [_a] the range
    [1,2) is not underlined; the first toggle gives [__a_], in which the
    content [2,3) is not classified as underlined because of the guard
    against a double underscore on the left, and the second toggle wraps it
    once more. *)
Lemma round_trip_fails_next_to_underscore :
  let editor := mkEditor [js "_a"] (Pos.mk 0 1) (Pos.mk 0 2) in
  isUnderlined (getUnderlineState (js "_a") 1 2) = false
  /\ exists e1 e2,
       applySingleLineToggle editor 0 1 2 = Some e1
       /\ applySingleLineToggle e1 0 (1 + 1) (2 + 1) = Some e2
       /\ lines e1 = [js "__a_"]
       /\ lines e2 = [js "___a__"]
       /\ getLine e2 0 <> getLine editor 0.
Proof.
  split; [reflexivity|].
  do 2 eexists. split; [reflexivity|]. split; [reflexivity|].
  split; [reflexivity|]. split; [reflexivity|]. discriminate.
Qed.

(** C1 (amended). For a line and a non-empty range [from, to) within it
    that is classified as not underlined, toggling the range and then
    toggling the resulting content range [from+1, to+1) gives back the
    original text exactly when neither the character before the range nor
    the character after it is an underscore. *)
Theorem toggle_round_trip
  (editor : Editor) (lineNum from to : Z) (line : jsstring) :
  getLine editor lineNum = Some line ->
  0 <= from < to -> to <= len line ->
  isUnderlined (getUnderlineState line from to) = false ->
  exists e1 e2,
    applySingleLineToggle editor lineNum from to = Some e1
    /\ applySingleLineToggle e1 lineNum (from + 1) (to + 1) = Some e2
    /\ (is_underscore (char_at line (from - 1)) = false
        /\ is_underscore (char_at line to) = false
        <-> lines e2 = lines editor).
Proof.
  intros Hl Hft Hto Hu.
  destruct (line_parts line from to) as
    (pre & mid & post & Hline & Hpre & Hmid & _); [lia | lia |].
  assert (Hto' : to = len pre + len mid) by lia.
  pose proof (getLine_Some _ _ _ Hl) as Hn.
  pose proof (getLine_lookup _ _ _ Hl) as Hlk.
  set (line' := pre ++ wrapped mid ++ post).
  assert (Hsl : slice line from to = mid).
  { rewrite Hline, <- Hpre, Hto'. apply slice_parts_mid. }
  assert (Hsp : splice line from to (wrapped mid) = line').
  { unfold line'. rewrite Hline, <- Hpre, Hto'. apply splice_parts. }
  eexists. 
  assert (H1 := toggle_wraps editor lineNum from to line Hl ltac:(lia) Hu).
  rewrite Hsl, Hsp in H1.
  set (e1 := mkEditor (<[Z.to_nat lineNum := line']> (lines editor))
                      (Pos.mk lineNum (from + len mid + 2))
                      (Pos.mk lineNum (from + len mid + 2))) in *.
  assert (Hl1 : getLine e1 lineNum = Some line')
    by (eapply getLine_updated; eassumption).
  rewrite Hline, <- Hpre, Hto' in Hu.
  destruct (second_toggle_line pre mid post ltac:(lia) Hu)
    as (Hst & Hclean & Hdirty).
  fold line' in Hst, Hclean, Hdirty.
  rewrite <- Hline in Hst, Hclean, Hdirty.
  replace (len pre + len mid + 1) with (to + 1) in * by lia.
  rewrite Hpre, <- Hto' in *.
  set (clean := negb (is_underscore (char_at line (from - 1)))
                && negb (is_underscore (char_at line to))) in *.
  assert (Hiff : clean = true <->
                 is_underscore (char_at line (from - 1)) = false
                 /\ is_underscore (char_at line to) = false).
  { unfold clean. rewrite andb_true_iff, !negb_true_iff. reflexivity. }
  destruct clean eqn:Ec.
  - eexists. split; [exact H1|]. split.
    + apply (toggle_unwraps e1 lineNum (from + 1) (to + 1) line' Hl1);
        [lia | assumption].
    + cbn [lines]. rewrite (Hclean eq_refl). unfold e1. cbn [lines].
      rewrite list_insert_insert_eq, (list_insert_id _ _ _ Hlk).
      split; [reflexivity | intros _; now apply Hiff].
  - eexists. split; [exact H1|]. split.
    + apply (toggle_wraps e1 lineNum (from + 1) (to + 1) line' Hl1);
        [lia | assumption].
    + cbn [lines]. unfold e1. cbn [lines]. rewrite list_insert_insert_eq.
      split; [intros Hc; apply Hiff in Hc; discriminate|].
      intros Heq. exfalso.
      assert (Hk : <[Z.to_nat lineNum :=
                      splice line' (from + 1) (to + 1)
                        (wrapped (slice line' (from + 1) (to + 1)))]>
                     (lines editor) !! Z.to_nat lineNum = Some line)
        by (rewrite Heq; exact Hlk).
      rewrite list_lookup_insert_eq in Hk by lia.
      injection Hk as Hk. specialize (Hdirty eq_refl).
      rewrite Hk in Hdirty. lia.
Qed.

Lemma toggle_round_trip_witness :
  let editor := mkEditor [js "say hi there"] (Pos.mk 0 4) (Pos.mk 0 6) in
  exists e1 e2,
    applySingleLineToggle editor 0 4 6 = Some e1
    /\ applySingleLineToggle e1 0 (4 + 1) (6 + 1) = Some e2
    /\ (is_underscore (char_at (js "say hi there") (4 - 1)) = false
        /\ is_underscore (char_at (js "say hi there") 6) = false
        <-> lines e2 = lines editor).
Proof.
  apply (toggle_round_trip
           (mkEditor [js "say hi there"] (Pos.mk 0 4) (Pos.mk 0 6))
           0 4 6 (js "say hi there"));
    [reflexivity | lia | now vm_compute | reflexivity].
Defined.

(** ** The command without a selection *)

(** C6. With no selection and an empty range from the word detector, the
    command deletes the two columns [ch - 1, ch + 1) when [line[ch - 1]]
    and [line[ch]] are both underscores; otherwise it inserts two
    underscores at the cursor and puts the cursor between them. No other
    line changes. *)
Theorem empty_selection_orchestration (editor : Editor) (line : jsstring) :
  let lineNum := Pos.line (selFrom editor) in
  let ch := Pos.ch (selFrom editor) in
  selTo editor = selFrom editor ->
  getLine editor lineNum = Some line ->
  0 <= ch ->
  Range.from (detectWordRange line ch) = Range.to (detectWordRange line ch) ->
  exists editor',
    toggleUnderlineCommand editor = Some editor'
    /\ (forall m, m <> lineNum -> getLine editor' m = getLine editor m)
    /\ (if is_underscore (char_at line (ch - 1))
           && is_underscore (char_at line ch)
        then
          getLine editor' lineNum
          = Some (take (Z.to_nat (ch - 1)) line
                    ++ drop (Z.to_nat (ch + 1)) line)
        else
          getLine editor' lineNum
          = Some (take (Z.to_nat ch) line ++ [UNDERSCORE; UNDERSCORE]
                    ++ drop (Z.to_nat ch) line)
          /\ selFrom editor' = Pos.mk lineNum (ch + 1)
          /\ selTo editor' = Pos.mk lineNum (ch + 1)).
Proof.
  intros lineNum ch Hsel Hl Hch Hword.
  pose proof (getLine_Some _ _ _ Hl) as Hn.
  unfold toggleUnderlineCommand. rewrite Hsel. fold lineNum ch.
  rewrite !Z.eqb_refl. cbn [negb orb]. rewrite Hl. cbn [mbind option_bind].
  apply Z.eqb_eq in Hword. rewrite Hword.
  destruct (is_underscore (char_at line (ch - 1))) eqn:E1;
    [destruct (is_underscore (char_at line ch)) eqn:E2|]; cbn [andb].
  - apply is_underscore_inside in E1, E2.
    replace (0 <? ch) with true by (symmetry; apply Z.ltb_lt; lia).
    replace (ch <? len line) with true by (symmetry; apply Z.ltb_lt; lia).
    cbn [andb]. erewrite replaceRange_line by eassumption.
    eexists. split; [reflexivity|].
    split; [intros m Hm; apply getLine_other; [lia | assumption]|].
    erewrite getLine_updated by eassumption. f_equal.
    unfold splice. rewrite slice_prefix, slice_suffix by lia. reflexivity.
  - rewrite !andb_false_r. unfold replaceSelection. rewrite Hsel.
    fold lineNum ch. rewrite Hl. cbn [mbind option_bind].
    eexists. split; [reflexivity|].
    split; [intros m Hm; apply getLine_other; [lia | assumption]|].
    unfold setCursor. cbn [lines selFrom selTo].
    erewrite getLine_updated by eassumption.
    unfold splice. rewrite slice_prefix, slice_suffix by lia. auto.
  - rewrite !andb_false_r. cbn [andb]. unfold replaceSelection. rewrite Hsel.
    fold lineNum ch. rewrite Hl. cbn [mbind option_bind].
    eexists. split; [reflexivity|].
    split; [intros m Hm; apply getLine_other; [lia | assumption]|].
    unfold setCursor. cbn [lines selFrom selTo].
    erewrite getLine_updated by eassumption.
    unfold splice. rewrite slice_prefix, slice_suffix by lia. auto.
Qed.

(** The scenarios of C6: the cursor on the space of ["hello world"], and
    the cursor between the two marks of ["__"]. *)
Lemma empty_selection_scenarios :
  (let editor := mkEditor [js "hello world"] (Pos.mk 0 5) (Pos.mk 0 5) in
   exists editor',
     toggleUnderlineCommand editor = Some editor'
     /\ (forall m, m <> 0 -> getLine editor' m = getLine editor m)
     /\ getLine editor' 0 = Some (js "hello__ world")
     /\ selFrom editor' = Pos.mk 0 6
     /\ selTo editor' = Pos.mk 0 6)
  /\ (let editor := mkEditor [js "__"] (Pos.mk 0 1) (Pos.mk 0 1) in
      exists editor',
        toggleUnderlineCommand editor = Some editor'
        /\ (forall m, m <> 0 -> getLine editor' m = getLine editor m)
        /\ getLine editor' 0 = Some (js "")).
Proof.
  split.
  - apply (empty_selection_orchestration
             (mkEditor [js "hello world"] (Pos.mk 0 5) (Pos.mk 0 5))
             (js "hello world")); [reflexivity | reflexivity | | reflexivity].
    cbn. lia.
  - apply (empty_selection_orchestration
             (mkEditor [js "__"] (Pos.mk 0 1) (Pos.mk 0 1))
             (js "__")); [reflexivity | reflexivity | | reflexivity].
    cbn. lia.
Defined.

(** ** The multi-line toggle *)

Lemma more_than_half_strict (u t : Z) : more_than_half u t = (t <? 2 * u).
Proof.
  unfold more_than_half, Qcompare, Qdiv, Qmult, Qinv, inject_Z.
  cbn [Qnum Qden]. change (Z.pos (1 * 2)) with 2.
  destruct (Z.compare_spec (u * 2) (t * 1 * 1)) as [H|H|H];
    symmetry; [apply Z.ltb_ge | apply Z.ltb_ge | apply Z.ltb_lt]; lia.
Qed.

Lemma getLineSlice_inside (line : jsstring) (i : Z) (selFrom selTo : Pos.t) :
  0 <= Pos.ch selFrom ->
  let sl := getLineSlice line i selFrom selTo in
  0 <= Range.from sl /\ Range.to sl <= len line.
Proof.
  intros Hch. pose proof (len_nonneg line). unfold getLineSlice.
  repeat match goal with |- context [if ?c then _ else _] => destruct c end;
    cbn; lia.
Qed.

Lemma underlined_marks_inside (line : jsstring) (a b : Z) :
  let st := getUnderlineState line a b in
  isUnderlined st = true ->
  0 <= markFrom st /\ markTo st <= len line
  /\ contentFrom st = markFrom st + 1 /\ contentTo st = markTo st - 1
  /\ (a < b -> contentFrom st <= contentTo st).
Proof.
  unfold getUnderlineState.
  destruct (marks_included line a b) eqn:E1;
    [|destruct (marks_excluded line a b) eqn:E2]; cbn; intros Hu;
    try discriminate.
  - unfold marks_included in E1.
    repeat (apply andb_true_iff in E1 as [E1 ?]).
    repeat match goal with
           | H : is_underscore _ = true |- _ => apply is_underscore_inside in H
           end.
    apply Z.leb_le in E1. lia.
  - unfold marks_excluded in E2.
    repeat (apply andb_true_iff in E2 as [E2 ?]).
    repeat match goal with
           | H : is_underscore _ = true |- _ => apply is_underscore_inside in H
           end.
    lia.
Qed.

Lemma splice_wraps (line : jsstring) (a b : Z) :
  0 <= a <= b -> b <= len line ->
  splice line a b (wrapped (slice line a b)) = wrap_range line a b.
Proof.
  intros Hab Hb. unfold splice, wrap_range, wrapped.
  rewrite slice_prefix, slice_suffix, slice_inside by lia.
  cbn [app]. rewrite <- app_assoc. reflexivity.
Qed.

Lemma splice_strips (line : jsstring) (a b : Z) :
  a < b ->
  let st := getUnderlineState line a b in
  isUnderlined st = true ->
  splice line (markFrom st) (markTo st)
    (slice line (contentFrom st) (contentTo st))
  = strip_marks line st.
Proof.
  intros Hab st Hu.
  destruct (underlined_marks_inside line a b Hu) as (H0 & Hl & Hcf & Hct & Hc).
  fold st in H0, Hl, Hcf, Hct, Hc. specialize (Hc Hab).
  unfold splice, strip_marks.
  rewrite slice_prefix, slice_suffix, slice_inside by lia. reflexivity.
Qed.

(** One iteration of the loop of [applyMultiLineToggle] does to its line
    what the vote says, and touches no other line. *)
Lemma toggle_body_line (remove : bool) (selFrom selTo : Pos.t)
  (editor : Editor) (i : Z) (line : jsstring) :
  0 <= Pos.ch selFrom ->
  getLine editor i = Some line ->
  exists editor',
    toggle_body remove selFrom selTo editor i = Some editor'
    /\ getLine editor' i
       = Some (voted_line remove line (getLineSlice line i selFrom selTo))
    /\ (forall j, j <> i -> getLine editor' j = getLine editor j).
Proof.
  intros Hch Hl. pose proof (getLine_Some _ _ _ Hl) as Hi.
  destruct (getLineSlice_inside line i selFrom selTo Hch) as [Hf Ht].
  unfold toggle_body, voted_line. rewrite Hl. cbn [mbind option_bind].
  set (sl := getLineSlice line i selFrom selTo) in *.
  destruct (Z.leb_spec (Range.to sl) (Range.from sl)) as [He|Hne].
  { replace (Range.from sl <? Range.to sl) with false
      by (symmetry; apply Z.ltb_ge; lia).
    exists editor. auto. }
  replace (Range.from sl <? Range.to sl) with true
    by (symmetry; apply Z.ltb_lt; lia).
  cbv zeta.
  destruct (isUnderlined (getUnderlineState line (Range.from sl) (Range.to sl)))
    eqn:Hu; destruct remove; cbn [andb negb];
    try (exists editor; auto; fail).
  - erewrite replaceRange_line by eassumption. eexists.
    split; [reflexivity|]. split.
    + erewrite getLine_updated by eassumption. f_equal.
      now apply splice_strips.
    + intros j Hj. apply getLine_other; [lia | assumption].
  - erewrite replaceRange_line by eassumption. eexists.
    split; [reflexivity|]. split.
    + erewrite getLine_updated by eassumption. f_equal.
      rewrite (not_underlined_state _ _ _ Hu). cbn [contentFrom contentTo].
      apply splice_wraps; lia.
    + intros j Hj. apply getLine_other; [lia | assumption].
Qed.

Section Loops.
Variables (editor0 : Editor) (selFrom selTo : Pos.t).
Hypothesis ch_nonneg : 0 <= Pos.ch selFrom.

(** One iteration of the loop of [countUnderlinedLines]. *)
Lemma count_body_line (acc : Count) (i : Z) :
  is_Some (getLine editor0 i) ->
  count_body editor0 selFrom selTo acc i
  = Some (if slice_counted editor0 selFrom selTo i then
            {| underlined :=
                 underlined acc
                 + (if slice_classified editor0 selFrom selTo i
                    then 1 else 0);
               total := total acc + 1 |}
          else acc).
Proof.
  intros [line Hl].
  unfold count_body, slice_counted, slice_classified, line_slice,
    line_of.
  rewrite Hl. cbn [mbind option_bind from_option id].
  set (sl := getLineSlice line i selFrom selTo).
  destruct (Z.leb_spec (Range.to sl) (Range.from sl)) as [He|Hne].
  - replace (Range.from sl <? Range.to sl) with false
      by (symmetry; apply Z.ltb_ge; lia).
    reflexivity.
  - replace (Range.from sl <? Range.to sl) with true
      by (symmetry; apply Z.ltb_lt; lia).
    destruct (isUnderlined _); [reflexivity|].
    now rewrite Z.add_0_r.
Qed.

(** The counting loop counts the non-empty slices and, among them, the
    underlined ones. *)
Lemma count_loop (range : list Z) (acc : Count) :
  (forall i, i ∈ range -> is_Some (getLine editor0 i)) ->
  for_each (count_body editor0 selFrom selTo) range acc
  = Some {|
      underlined :=
        underlined acc
        + Z.of_nat (length
            (List.filter (slice_classified editor0 selFrom selTo)
               (List.filter (slice_counted editor0 selFrom selTo) range)));
      total :=
        total acc
        + Z.of_nat (length
            (List.filter (slice_counted editor0 selFrom selTo) range)) |}.
Proof.
  revert acc. induction range as [|i rest IH]; intros acc Hex.
  - cbn. destruct acc. cbn. f_equal. f_equal; lia.
  - cbn [for_each]. rewrite count_body_line by (apply Hex; left).
    cbn [mbind option_bind List.filter].
    rewrite IH by (intros j Hj; apply Hex; now right).
    destruct (slice_counted editor0 selFrom selTo i); [|reflexivity].
    cbn [List.filter].
    destruct (slice_classified editor0 selFrom selTo i);
      cbn [underlined total length]; f_equal; f_equal; lia.
Qed.

(** The editing loop visits each of its lines once, so each is voted on
    as it was before the loop. *)
Lemma toggle_loop (remove : bool) (range : list Z) (editor : Editor) :
  NoDup range ->
  (forall i, i ∈ range -> is_Some (getLine editor i)) ->
  exists editor',
    for_each (toggle_body remove selFrom selTo) range editor = Some editor'
    /\ forall i line,
         getLine editor i = Some line ->
         getLine editor' i
         = Some (if decide (i ∈ range)
                 then voted_line remove line
                        (getLineSlice line i selFrom selTo)
                 else line).
Proof.
  revert editor. induction range as [|i rest IH]; intros editor Hnd Hex.
  - exists editor. split; [reflexivity|]. intros i line Hl.
    rewrite decide_False by apply not_elem_of_nil. assumption.
  - apply NoDup_cons in Hnd as [Hni Hnd].
    destruct (Hex i) as [line Hl]; [left|].
    destruct (toggle_body_line remove selFrom selTo editor i line
                ch_nonneg Hl) as (editor1 & Hstep & Hline & Hother).
    destruct (IH editor1 Hnd) as (editor' & Hloop & Hlines).
    { intros j Hj. rewrite Hother by (intros ->; contradiction).
      apply Hex. now right. }
    exists editor'. cbn [for_each]. rewrite Hstep. cbn [mbind option_bind].
    split; [assumption|]. intros j lj Hj.
    destruct (decide (j = i)) as [->|Hne].
    + rewrite decide_True by left. assert (lj = line) by congruence.
      subst lj. erewrite Hlines by eassumption.
      now rewrite decide_False.
    + rewrite <- Hother in Hj by assumption.
      rewrite (Hlines j lj Hj).
      destruct (decide (j ∈ rest)) as [Hin|Hnin].
      * rewrite decide_True by now right. reflexivity.
      * rewrite decide_False; [reflexivity|].
        intros [?|?]%elem_of_cons; contradiction.
Qed.

End Loops.

Lemma selected_slice_of_loops
  (editor : Editor) (selFrom selTo : Pos.t) (i : Z) :
  Pos.line selFrom <> Pos.line selTo ->
  line_slice editor selFrom selTo i = selected_slice editor selFrom selTo i.
Proof.
  intros Hlines. unfold line_slice, selected_slice, getLineSlice.
  destruct (Z.eqb_spec i (Pos.line selFrom)) as [Hf|Hf];
    destruct (Z.eqb_spec i (Pos.line selTo)) as [Ht|Ht];
    cbn [andb]; try reflexivity.
  congruence.
Qed.

Lemma nonempty_slices_of_loops (editor : Editor) (selFrom selTo : Pos.t) :
  Pos.line selFrom <> Pos.line selTo ->
  forall range,
    List.filter (slice_counted editor selFrom selTo) range
    = List.filter (slice_nonempty editor selFrom selTo) range.
Proof.
  intros Hlines range. apply List.filter_ext. intros i.
  unfold slice_counted, slice_nonempty.
  now rewrite selected_slice_of_loops.
Qed.

Lemma underlined_slices_of_loops (editor : Editor) (selFrom selTo : Pos.t) :
  Pos.line selFrom <> Pos.line selTo ->
  forall range,
    List.filter (slice_classified editor selFrom selTo) range
    = List.filter (slice_underlined editor selFrom selTo) range.
Proof.
  intros Hlines range. apply List.filter_ext. intros i.
  unfold slice_classified, slice_underlined.
  now rewrite selected_slice_of_loops.
Qed.

(** C3. For a selection that ends on another line than it starts on, over
    affected lines which the buffer has: the counting loop returns the
    number of non-empty selected slices and the number of those classified
    as underlined, the selected slice of a line being the one section 4.5
    describes (first line from the start column on, last line up to the end
    column, lines in between whole); empty slices are in neither count.
    Marks are removed exactly when the underlined count is strictly more
    than half of the non-empty count, so a tie inserts. The toggle then
    leaves alone every line with an empty slice and every line outside the
    selection; on removal each underlined slice loses its marks, on
    insertion each slice that is not underlined is wrapped. *)
Theorem strict_majority_vote (editor : Editor) (selFrom selTo : Pos.t) :
  Pos.line selFrom <> Pos.line selTo ->
  (forall i, Pos.line selFrom <= i <= Pos.line selTo ->
             is_Some (getLine editor i)) ->
  0 <= Pos.ch selFrom ->
  let nonempty := Z.of_nat (length (nonempty_slices editor selFrom selTo)) in
  let marked := Z.of_nat (length (underlined_slices editor selFrom selTo)) in
  let remove := nonempty <? 2 * marked in
  countUnderlinedLines editor selFrom selTo
  = Some {| underlined := marked; total := nonempty |}
  /\ more_than_half marked nonempty = remove
  /\ (nonempty = 2 * marked -> remove = false)
  /\ exists editor',
       applyMultiLineToggle editor selFrom selTo = Some editor'
       /\ forall i line,
            getLine editor i = Some line ->
            getLine editor' i
            = Some (if (Pos.line selFrom <=? i) && (i <=? Pos.line selTo)
                    then voted_line remove line
                           (selected_slice editor selFrom selTo i)
                    else line).
Proof.
  intros Hmulti Hex Hch nonempty marked remove.
  assert (Hcount : countUnderlinedLines editor selFrom selTo
                   = Some {| underlined := marked; total := nonempty |}).
  { unfold countUnderlinedLines, ascending. rewrite count_loop.
    - rewrite (nonempty_slices_of_loops editor selFrom selTo Hmulti).
      rewrite (underlined_slices_of_loops editor selFrom selTo Hmulti).
      reflexivity.
    - intros i Hi%elem_of_seqZ. apply Hex. lia. }
  split; [exact Hcount|].
  split; [apply more_than_half_strict|].
  split; [intros Htie; apply Z.ltb_ge; lia|].
  unfold applyMultiLineToggle. rewrite Hcount. cbn [mbind option_bind].
  cbn [underlined total]. rewrite more_than_half_strict. fold remove.
  destruct (toggle_loop selFrom selTo Hch remove
              (descending (Pos.line selFrom) (Pos.line selTo)) editor)
    as (editor' & Hloop & Hlines).
  { unfold descending. rewrite reverse_Permutation. apply NoDup_seqZ. }
  { intros i Hi%elem_of_reverse%elem_of_seqZ. apply Hex. lia. }
  exists editor'. split; [exact Hloop|]. intros i line Hl.
  rewrite (Hlines i line Hl).
  rewrite <- (selected_slice_of_loops editor selFrom selTo i Hmulti).
  unfold line_slice, line_of. rewrite Hl. cbn [from_option id].
  destruct (Z.leb_spec (Pos.line selFrom) i);
    destruct (Z.leb_spec i (Pos.line selTo)); cbn [andb].
  - rewrite decide_True; [reflexivity|].
    apply elem_of_reverse, elem_of_seqZ. lia.
  - rewrite decide_False; [reflexivity|].
    intros Hi%elem_of_reverse%elem_of_seqZ. lia.
  - rewrite decide_False; [reflexivity|].
    intros Hi%elem_of_reverse%elem_of_seqZ. lia.
  - rewrite decide_False; [reflexivity|].
    intros Hi%elem_of_reverse%elem_of_seqZ. lia.
Qed.

(** C3 on a tie, with a selection from column 2 of the first line to
    column 0 of the third: of the lines [x _a_], [b c] and [tail] the
    slices are [_a_], which is underlined, [b c], which is not, and an
    empty one; one of two non-empty slices is underlined, no marks are
    removed, and [b c] is wrapped. *)
Lemma strict_majority_vote_tie :
  let editor := mkEditor [js "x _a_"; js "b c"; js "tail"]
                  (Pos.mk 0 2) (Pos.mk 2 0) in
  countUnderlinedLines editor (Pos.mk 0 2) (Pos.mk 2 0)
  = Some {| underlined := 1; total := 2 |}
  /\ more_than_half 1 2 = false
  /\ (2 = 2 * 1 -> false = false)
  /\ exists editor',
       applyMultiLineToggle editor (Pos.mk 0 2) (Pos.mk 2 0) = Some editor'
       /\ forall i line,
            getLine editor i = Some line ->
            getLine editor' i
            = Some (if (0 <=? i) && (i <=? 2)
                    then voted_line false line
                           (selected_slice editor (Pos.mk 0 2) (Pos.mk 2 0) i)
                    else line).
Proof.
  apply (strict_majority_vote
           (mkEditor [js "x _a_"; js "b c"; js "tail"]
              (Pos.mk 0 2) (Pos.mk 2 0))
           (Pos.mk 0 2) (Pos.mk 2 0)).
  - cbn. lia.
  - cbn [Pos.line]. intros i Hi.
    destruct (Z.eq_dec i 0) as [->|H0]; [eexists; reflexivity|].
    destruct (Z.eq_dec i 1) as [->|H1]; [eexists; reflexivity|].
    assert (i = 2) as -> by lia. eexists; reflexivity.
  - cbn. lia.
Defined.

Example tie_on_part_of_lines :
  applyMultiLineToggle
    (mkEditor [js "x _a_"; js "b c"; js "tail"] (Pos.mk 0 2) (Pos.mk 2 0))
    (Pos.mk 0 2) (Pos.mk 2 0)
  = Some (mkEditor [js "x _a_"; js "_b c_"; js "tail"]
            (Pos.mk 0 2) (Pos.mk 2 0)).
Proof. reflexivity. Qed.

Example tie_wraps_plain_line :
  applyMultiLineToggle
    (mkEditor [js "_a_"; js "b"] (Pos.mk 0 0) (Pos.mk 1 1))
    (Pos.mk 0 0) (Pos.mk 1 1)
  = Some (mkEditor [js "_a_"; js "_b_"] (Pos.mk 0 0) (Pos.mk 1 1)).
Proof. reflexivity. Qed.

Example majority_strips_marks :
  applyMultiLineToggle
    (mkEditor [js "_first_"; js "_second_"; js "plain"]
       (Pos.mk 0 0) (Pos.mk 2 5))
    (Pos.mk 0 0) (Pos.mk 2 5)
  = Some (mkEditor [js "first"; js "second"; js "plain"]
            (Pos.mk 0 0) (Pos.mk 2 5)).
Proof. reflexivity. Qed.

Example empty_slice_not_counted :
  countUnderlinedLines
    (mkEditor [js "hello"; js "world"] (Pos.mk 0 5) (Pos.mk 1 5))
    (Pos.mk 0 5) (Pos.mk 1 5)
  = Some {| underlined := 0; total := 1 |}.
Proof. reflexivity. Qed.

(** ** The pairing loop *)

Lemma lazy_tail_sound (rest : jsstring) (k m : Z) :
  lazy_tail rest k = Some m ->
  exists n, 0 <= n /\ m = k + n + 2 /\ content_then_mark rest n.
Proof.
  revert k m. induction rest as [|c rest IH]; intros k m; [discriminate|].
  cbn [lazy_tail]. destruct (Z.eqb_spec c UNDERSCORE) as [->|Hc].
  - intros [= <-]. exists 0. repeat split; [lia | lia |].
    intros i Hi. lia.
  - destruct (content_char c) eqn:Ec; [|discriminate].
    intros (n & Hn & -> & Hmark & Hrun)%IH.
    exists (n + 1). repeat split; [lia | lia | |].
    + rewrite char_at_cons_pos by lia.
      now replace (n + 1 - 1) with n by lia.
    + intros i Hi. destruct (Z.eq_dec i 0) as [->|Hi0].
      * exists c. now split.
      * rewrite char_at_cons_pos by lia. apply Hrun. lia.
Qed.

Lemma match_here_sound (s : jsstring) (m : Z) :
  match_here s = Some m -> is_match s 0 m.
Proof.
  unfold match_here. destruct s as [|c [|d rest]]; try discriminate.
  destruct (Z.eqb_spec c UNDERSCORE) as [->|Hc]; [|discriminate].
  destruct (content_char d) eqn:Ed; [|discriminate]. cbn [andb].
  intros (n & Hn & -> & Hmark & Hrun)%lazy_tail_sound.
  assert (Hlen : n < len rest).
  { apply char_at_Some_bounds in Hmark. lia. }
  unfold is_match. repeat split; try lia.
  - unfold len in *. cbn [length]. lia.
  - rewrite !char_at_cons_pos by lia.
    now replace (0 + (1 + n + 2) - 1 - 1 - 1) with n by lia.
  - intros i Hi. rewrite char_at_cons_pos by lia.
    destruct (Z.eq_dec i 1) as [->|Hi1].
    + exists d. now split.
    + rewrite char_at_cons_pos by lia.
      replace (i - 1 - 1) with (i - 2) by lia. apply Hrun. lia.
Qed.

Lemma is_match_shift (c : Z) (s : jsstring) (j m : Z) :
  is_match s j m -> is_match (c :: s) (j + 1) m.
Proof.
  intros (H0 & H3 & Hl & Ho & Hc & Hrun). unfold is_match.
  repeat split; try lia.
  - unfold len in *. cbn [length]. lia.
  - rewrite char_at_cons_pos by lia. now replace (j + 1 - 1) with j by lia.
  - rewrite char_at_cons_pos by lia.
    now replace (j + 1 + m - 1 - 1) with (j + m - 1) by lia.
  - intros i Hi. rewrite char_at_cons_pos by lia. apply Hrun. lia.
Qed.

Lemma search_sound (t : jsstring) (i j m : Z) :
  search t i = Some (j, m) -> i <= j /\ is_match t (j - i) m.
Proof.
  revert i j m. induction t as [|c t IH]; intros i j m; [discriminate|].
  cbn [search]. destruct (match_here (c :: t)) as [k|] eqn:Hk.
  - intros [= <- <-]. split; [lia|]. rewrite Z.sub_diag.
    now apply match_here_sound.
  - intros [Hle Hm]%IH. split; [lia|].
    replace (j - i) with (j - (i + 1) + 1) by lia.
    now apply is_match_shift.
Qed.

Lemma is_match_drop (s : jsstring) (k : nat) (j m : Z) :
  is_match (drop k s) j m -> is_match s (Z.of_nat k + j) m.
Proof.
  intros (H0 & H3 & Hl & Ho & Hc & Hrun). unfold is_match.
  assert (Hk : Z.of_nat k <= len s).
  { unfold len in *. rewrite length_drop in Hl. lia. }
  repeat split; try lia.
  - unfold len in *. rewrite length_drop in Hl. lia.
  - rewrite <- Ho. symmetry. apply char_at_drop. lia.
  - rewrite <- Hc. rewrite char_at_drop by lia. f_equal. lia.
  - intros i Hi. specialize (Hrun (i - Z.of_nat k) ltac:(lia)).
    rewrite char_at_drop in Hrun by lia.
    now replace (Z.of_nat k + (i - Z.of_nat k)) with i in Hrun by lia.
Qed.

Lemma exec_sound (s : jsstring) (lastIndex j m : Z) :
  exec s lastIndex = Some (j, m) -> lastIndex <= j /\ is_match s j m.
Proof.
  unfold exec. cbv zeta.
  destruct (Z.ltb_spec (len s) (Z.max lastIndex 0)) as [Hb|Hb]; [discriminate|].
  intros [Hle Hm]%search_sound. split; [lia|].
  apply is_match_drop in Hm.
  now replace (Z.of_nat (Z.to_nat (Z.max lastIndex 0))
               + (j - Z.max lastIndex 0)) with j in Hm by lia.
Qed.

(** Every match the loop sees is a match, at or after the column the loop
    was resumed at. *)
Lemma matches_from_sound (s : jsstring) (lastIndex : Z) :
  forall j m, (j, m) ∈ matches_from s lastIndex ->
    lastIndex <= j /\ is_match s j m.
Proof.
  funelim (matches_from s lastIndex); intros j m Hin.
  - pose proof (exec_sound _ _ _ _ e) as [Hle Hm].
    apply elem_of_cons in Hin as [[= -> ->]|Hin]; [now split|].
    match goal with
    | IH : forall j m, _ ∈ matches_from _ _ -> _ |- _ =>
        destruct (IH j m Hin) as [Hle' Hm']
    end.
    destruct Hm as (? & ? & _). split; [lia | assumption].
  - now apply elem_of_nil in Hin.
Qed.

(** The loop never goes back: each span ends before the next one
    starts. *)
Lemma line_spans_ordered (lineFrom : Z) (s : jsstring) (lastIndex : Z) :
  StronglySorted (fun a b => Range.to a <= Range.from b)
    (map (span_of lineFrom) (matches_from s lastIndex)).
Proof.
  funelim (matches_from s lastIndex); cbn [map]; [|constructor].
  constructor; [auto|].
  apply Forall_forall. intros sp Hsp%list_elem_of_In%in_map_iff.
  destruct Hsp as ([j m] & <- & Hin%list_elem_of_In).
  apply matches_from_sound in Hin as [Hle _].
  unfold span_of. cbn. lia.
Qed.

Lemma two_underscores (s : jsstring) (a b : Z) :
  a < b -> char_at s a = Some UNDERSCORE -> char_at s b = Some UNDERSCORE ->
  (2 <= count_underscores s)%nat.
Proof.
  intros Hab Ha Hb. pose proof (char_at_Some_bounds _ _ _ Ha) as Hba.
  pose proof (char_at_Some_bounds _ _ _ Hb) as Hbb.
  unfold char_at in Ha, Hb.
  destruct (Z.ltb_spec a 0); [lia|]. destruct (Z.ltb_spec b 0); [lia|].
  assert (Hta : length (take (Z.to_nat a) s) = Z.to_nat a)
    by (apply length_take_le; unfold len in *; lia).
  rewrite <- (take_drop_middle s _ _ Ha) in Hb |- *.
  rewrite lookup_app_r in Hb by lia. rewrite Hta in Hb.
  replace (Z.to_nat b - Z.to_nat a)%nat
    with (S (Z.to_nat b - Z.to_nat a - 1))%nat in Hb by lia.
  cbn [lookup list_lookup] in Hb.
  rewrite <- (take_drop_middle _ _ _ Hb).
  unfold count_underscores. rewrite !List.filter_app. cbn [List.filter].
  rewrite Z.eqb_refl, !List.filter_app. cbn [List.filter].
  rewrite Z.eqb_refl. repeat (rewrite ?length_app; cbn [length]). lia.
Qed.

(** C5. On the line [_a_ _b_] the loop finds exactly the two spans [0,3)
    and [4,7). On every line: with at most one underscore there is no span;
    each span found starts and ends on an underscore, and holds between
    them one or more characters, none of them an underscore or a newline,
    so that [__] is never a span; and each span ends before the next one
    starts. *)
Theorem scanner_pairing :
  line_spans 0 (js "_a_ _b_") = [Range.mk 0 3; Range.mk 4 7]
  /\ (forall lineFrom s,
        (count_underscores s <= 1)%nat -> line_spans lineFrom s = [])
  /\ line_spans 0 (js "__") = []
  /\ (forall lineFrom s sp,
        sp ∈ line_spans lineFrom s ->
        Range.from sp + 1 < Range.to sp - 1
        /\ is_match s (Range.from sp - lineFrom) (Range.to sp - Range.from sp))
  /\ (forall lineFrom s,
        StronglySorted (fun a b => Range.to a <= Range.from b)
          (line_spans lineFrom s)).
Proof.
  assert (Hsound : forall lineFrom s sp,
             sp ∈ line_spans lineFrom s ->
             Range.from sp + 1 < Range.to sp - 1
             /\ is_match s (Range.from sp - lineFrom)
                  (Range.to sp - Range.from sp)).
  { intros lineFrom s sp Hsp%list_elem_of_In%in_map_iff.
    destruct Hsp as ([j m] & <- & Hin%list_elem_of_In).
    apply matches_from_sound in Hin as [_ Hm].
    unfold span_of. cbn [fst snd Range.from Range.to].
    replace (lineFrom + j - lineFrom) with j by lia.
    replace (lineFrom + j + m - (lineFrom + j)) with m by lia.
    split; [|assumption]. destruct Hm as (_ & H3 & _). lia. }
  split; [reflexivity|]. split; [|split; [reflexivity|split]].
  - intros lineFrom s Hone.
    destruct (line_spans lineFrom s) as [|sp rest] eqn:E; [reflexivity|].
    exfalso. destruct (Hsound lineFrom s sp) as [Hlt Hm];
      [rewrite E; left|].
    destruct Hm as (_ & H3 & _ & Ho & Hc & _).
    assert (H2 : (2 <= count_underscores s)%nat)
      by (eapply two_underscores; [|exact Ho|exact Hc]; lia).
    lia.
  - exact Hsound.
  - intros lineFrom s. apply line_spans_ordered.
Qed.

Lemma scanner_pairing_witness :
  (count_underscores (js "snake_case") <= 1)%nat
  /\ line_spans 0 (js "snake_case") = []
  /\ forall sp, sp ∈ line_spans 7 (js "an _un_derscore_") ->
       Range.from sp + 1 < Range.to sp - 1
       /\ is_match (js "an _un_derscore_")
            (Range.from sp - 7) (Range.to sp - Range.from sp).
Proof.
  split; [vm_compute; lia|]. split.
  - apply (proj1 (proj2 scanner_pairing) 0 (js "snake_case")).
    vm_compute. lia.
  - apply (proj1 (proj2 (proj2 (proj2 scanner_pairing))) 7
             (js "an _un_derscore_")).
Defined.

Example scanner_resumes_after_match :
  line_spans 0 (js "_a_b_") = [Range.mk 0 3].
Proof. reflexivity. Qed.

Example scanner_decorations :
  line_decorations 10 (js "x _ab_") =
  [ (12, 13, underscoreMarkDecoration);
    (13, 15, underscoreContentDecoration);
    (15, 16, underscoreMarkDecoration) ].
Proof. reflexivity. Qed.

(** ** Instances of the classifier and totality theorems *)

Lemma classifier_output_invariant_witness :
  let st := getUnderlineState (js "_hello_") 1 6 in
  isUnderlined st = true
  /\ markFrom st = contentFrom st - 1 /\ markTo st = contentTo st + 1.
Proof.
  split; [reflexivity|].
  apply (classifier_output_invariant (js "_hello_") 1 6). reflexivity.
Defined.

Lemma total_on_boundary_input_witness :
  (5 < 0 \/ len (js "ab") <= 5)
  /\ char_at (js "ab") 5 = None
  /\ is_underscore (char_at (js "ab") 5) = false
  /\ STOP_CHARS_test (char_at (js "ab") 5) = false.
Proof.
  split; [right; now vm_compute|].
  apply (proj1 (total_on_boundary_input (js "ab") 0 2) 5).
  right. now vm_compute.
Defined.

(** ** Scenarios of the test suite *)

Example detect_hello_world :
  detectWordRange (js "hello world") 8 = Range.mk 6 11.
Proof. reflexivity. Qed.

Example detect_on_space :
  detectWordRange (js "hello world") 5 = Range.mk 5 5.
Proof. reflexivity. Qed.

Example detect_stops_at_underscore :
  detectWordRange (js "_hello_") 3 = Range.mk 1 6.
Proof. reflexivity. Qed.

Example detect_at_line_end :
  detectWordRange (js "hello") 5 = Range.mk 0 5.
Proof. reflexivity. Qed.

Example state_marks_included :
  getUnderlineState (js "_hello_") 0 7 = mkState true 0 7 1 6.
Proof. reflexivity. Qed.

Example state_strong_outer :
  isUnderlined (getUnderlineState (js "__text__") 0 8) = false.
Proof. reflexivity. Qed.

Example state_strong_content :
  isUnderlined (getUnderlineState (js "__text__") 2 6) = false.
Proof. reflexivity. Qed.

Example state_right_guard :
  isUnderlined (getUnderlineState (js "_word__") 1 5) = false.
Proof. reflexivity. Qed.

Example toggle_removes_marks :
  applySingleLineToggle
    (mkEditor [js "_hello_"] (Pos.mk 0 1) (Pos.mk 0 6)) 0 1 6
  = Some (mkEditor [js "hello"] (Pos.mk 0 0) (Pos.mk 0 5)).
Proof. reflexivity. Qed.

Example command_expands_to_word :
  toggleUnderlineCommand
    (mkEditor [js "hello world"] (Pos.mk 0 8) (Pos.mk 0 8))
  = Some (mkEditor [js "hello _world_"] (Pos.mk 0 13) (Pos.mk 0 13)).
Proof. reflexivity. Qed.

(** * Further properties of the code *)

(** ** Word detection from any column of the word *)

Lemma LeftLoop_from_run (line : jsstring) (l : Z) (n : nat) (x : Z) :
  x = l + Z.of_nat n -> 0 <= l ->
  (forall i, l <= i < x -> STOP_CHARS_test (char_at line i) = false) ->
  left_cond line l = false ->
  LeftLoop line x l.
Proof.
  revert x. induction n as [|n IH]; intros x Hx Hl Hrun Hexit.
  - replace x with l by lia. now apply LeftLoop_exit.
  - apply LeftLoop_iter.
    + unfold left_cond. rewrite (Hrun (x - 1)) by lia.
      replace (0 <? x) with true by (symmetry; apply Z.ltb_lt; lia).
      reflexivity.
    + apply IH; [lia | assumption | | assumption].
      intros i Hi. apply Hrun. lia.
Qed.

Lemma RightLoop_from_run (line : jsstring) (r : Z) (n : nat) (x : Z) :
  r = x + Z.of_nat n -> r <= len line ->
  (forall i, x <= i < r -> STOP_CHARS_test (char_at line i) = false) ->
  right_cond line r = false ->
  RightLoop line x r.
Proof.
  revert x. induction n as [|n IH]; intros x Hx Hr Hrun Hexit.
  - replace x with r by lia. now apply RightLoop_exit.
  - apply RightLoop_iter.
    + unfold right_cond. rewrite (Hrun x) by lia.
      replace (x <? len line) with true by (symmetry; apply Z.ltb_lt; lia).
      reflexivity.
    + apply IH; [lia | assumption | | assumption].
      intros i Hi. apply Hrun. lia.
Qed.

(** X1. The word found does not depend on where in the word the cursor
    is: for a column [ch] of the line, every column inside the range
    [detectWordRange] returns for [ch] gives that same range. *)
Theorem detectWordRange_same_word (line : jsstring) (ch ch' : Z) :
  0 <= ch <= len line ->
  let r := detectWordRange line ch in
  Range.from r <= ch' < Range.to r ->
  detectWordRange line ch' = r.
Proof.
  intros Hch r Hin. pose proof (detectWordRange_runs line ch) as Hrun.
  fold r in Hrun. inversion Hrun as [Hc Hr|l rr Hc HL HR Hr].
  { rewrite <- Hr in Hin. cbn in Hin. lia. }
  rewrite <- Hr in Hin. cbn [Range.from Range.to] in Hin.
  pose proof (LeftLoop_result _ _ _ HL) as (Hle & H0 & Hlc & Hlrun).
  pose proof (RightLoop_result _ _ _ HR) as (Hge & Hmax & Hrc & Hrrun).
  specialize (H0 ltac:(lia)).
  assert (Hrunall : forall i, l <= i < rr ->
                      STOP_CHARS_test (char_at line i) = false).
  { intros i Hi. destruct (Z_lt_dec i ch); [apply Hlrun | apply Hrrun]; lia. }
  eapply DetectWordRange_functional; [apply detectWordRange_runs|].
  apply Detect_expand.
  - rewrite (Hrunall ch') by lia. apply andb_false_r.
  - apply (LeftLoop_from_run line l (Z.to_nat (ch' - l)));
      try lia; try assumption.
    intros i Hi. apply Hrunall. lia.
  - apply (RightLoop_from_run line rr (Z.to_nat (rr - ch')));
      try lia; try assumption.
    intros i Hi. apply Hrunall. lia.
Qed.

Lemma detectWordRange_same_word_witness :
  detectWordRange (js "say _hi there_") 12
  = detectWordRange (js "say _hi there_") 9.
Proof.
  apply (detectWordRange_same_word (js "say _hi there_") 9 12);
    [now vm_compute | vm_compute; split; [discriminate | reflexivity]].
Defined.

(** ** The two views of an underlined span *)

(** X2. Selecting an underlined span with its marks or without them gives
    the same state, when no further underscore touches the span: a range
    that [getUnderlineState] accepts with its marks, and that has no
    underscore right before or right after it, gives the same state as its
    content; and a range accepted without its marks, that does not itself
    start with an underscore, gives the same state as the range grown by
    one column on each side. *)
Theorem classification_agrees (line : jsstring) (selFrom selTo : Z) :
  (marks_included line selFrom selTo = true ->
   is_underscore (char_at line (selFrom - 1)) = false ->
   is_underscore (char_at line selTo) = false ->
   getUnderlineState line (selFrom + 1) (selTo - 1)
   = getUnderlineState line selFrom selTo)
  /\ (selFrom <= selTo ->
      marks_excluded line selFrom selTo = true ->
      is_underscore (char_at line selFrom) = false ->
      getUnderlineState line (selFrom - 1) (selTo + 1)
      = getUnderlineState line selFrom selTo).
Proof.
  split.
  - intros Hin Hl Hr. rewrite (getUnderlineState_included _ _ _ Hin).
    unfold marks_included in Hin.
    repeat (apply andb_true_iff in Hin as [Hin ?]).
    match goal with H : negb _ = true |- _ => apply negb_true_iff in H end.
    pose proof (is_underscore_inside _ _ H0).
    pose proof (is_underscore_inside _ _ H1).
    rewrite getUnderlineState_excluded.
    + f_equal; lia.
    + unfold marks_included. rewrite H. now rewrite !andb_false_r.
    + unfold marks_excluded.
      replace (selFrom + 1 - 1) with selFrom by lia.
      replace (selFrom + 1 - 2) with (selFrom - 1) by lia.
      replace (selTo - 1 + 1) with selTo by lia.
      rewrite H0, H1, Hl, Hr.
      replace (0 <? selFrom + 1) with true by (symmetry; apply Z.ltb_lt; lia).
      replace (selTo - 1 <? len line) with true
        by (symmetry; apply Z.ltb_lt; lia).
      reflexivity.
  - intros Hle Hex Hc.
    assert (Hni : marks_included line selFrom selTo = false).
    { unfold marks_included. rewrite Hc. now rewrite andb_false_r. }
    rewrite (getUnderlineState_excluded _ _ _ Hni Hex).
    unfold marks_excluded in Hex.
    repeat (apply andb_true_iff in Hex as [Hex ?]).
    rewrite getUnderlineState_included.
    + f_equal; lia.
    + unfold marks_included.
      replace (selTo + 1 - 1) with selTo by lia.
      replace (selFrom - 1 + 1) with selFrom by lia.
      rewrite H2, H1, Hc.
      replace (2 <=? selTo + 1 - (selFrom - 1)) with true
        by (symmetry; apply Z.leb_le; lia).
      reflexivity.
Qed.

Lemma classification_agrees_witness :
  getUnderlineState (js "a _hello_ b") (2 + 1) (9 - 1)
  = getUnderlineState (js "a _hello_ b") 2 9
  /\ getUnderlineState (js "a _hello_ b") (3 - 1) (8 + 1)
     = getUnderlineState (js "a _hello_ b") 3 8.
Proof.
  split.
  - apply (proj1 (classification_agrees (js "a _hello_ b") 2 9)); reflexivity.
  - apply (proj2 (classification_agrees (js "a _hello_ b") 3 8));
      [lia | reflexivity | reflexivity].
Defined.

(** ** Removing the marks *)

Lemma underlined_marks_are_underscores (line : jsstring) (a b : Z) :
  let st := getUnderlineState line a b in
  isUnderlined st = true ->
  char_at line (markFrom st) = Some UNDERSCORE
  /\ char_at line (markTo st - 1) = Some UNDERSCORE.
Proof.
  assert (Hsome : forall i, is_underscore (char_at line i) = true ->
                            char_at line i = Some UNDERSCORE).
  { intros i. destruct (char_at line i) as [c|]; [|discriminate].
    cbn. now intros ->%Z.eqb_eq. }
  unfold getUnderlineState.
  destruct (marks_included line a b) eqn:E1;
    [|destruct (marks_excluded line a b) eqn:E2]; cbn; intros Hu;
    try discriminate.
  - unfold marks_included in E1.
    repeat (apply andb_true_iff in E1 as [E1 ?]). auto.
  - unfold marks_excluded in E2.
    repeat (apply andb_true_iff in E2 as [E2 ?]).
    replace (b + 1 - 1) with b by lia. auto.
Qed.

(** An underlined range of a line, cut at its marks. *)
Lemma underlined_parts (line : jsstring) (a b : Z) :
  a < b ->
  let st := getUnderlineState line a b in
  isUnderlined st = true ->
  exists pre content post,
    line = pre ++ wrapped content ++ post
    /\ len pre = markFrom st
    /\ len content = contentTo st - contentFrom st
    /\ 0 < len content
    /\ markTo st = markFrom st + len content + 2
    /\ slice line (contentFrom st) (contentTo st) = content
    /\ strip_marks line st = pre ++ content ++ post.
Proof.
  intros Hab st Hu.
  destruct (underlined_marks_inside line a b Hu) as (H0 & Hl & Hcf & Hct & Hc).
  destruct (underlined_marks_are_underscores line a b Hu) as [Ho Hcl].
  fold st in H0, Hl, Hcf, Hct, Hc, Ho, Hcl. specialize (Hc Hab).
  assert (Hne : contentFrom st < contentTo st).
  { revert Hu Hcf Hct Hc. unfold st, getUnderlineState.
    destruct (marks_included line a b) eqn:E1;
      [|destruct (marks_excluded line a b) eqn:E2]; cbn; intros Hu;
      try discriminate; [|lia].
    unfold marks_included in E1.
    repeat (apply andb_true_iff in E1 as [E1 ?]).
    match goal with H : negb _ = true |- _ => apply negb_true_iff in H end.
    intros _ _ Hle. destruct (Z.eq_dec (a + 1) (b - 1)) as [Heq|]; [|lia].
    rewrite Heq in H. congruence. }
  set (content := slice line (contentFrom st) (contentTo st)).
  exists (take (Z.to_nat (markFrom st)) line), content,
         (drop (Z.to_nat (markTo st)) line).
  assert (Hlc : len content = contentTo st - contentFrom st)
    by (apply len_slice_inside; lia).
  assert (Hline : line = take (Z.to_nat (markFrom st)) line
                         ++ wrapped content
                         ++ drop (Z.to_nat (markTo st)) line).
  { unfold char_at in Ho, Hcl.
    destruct (Z.ltb_spec (markFrom st) 0); [lia|].
    destruct (Z.ltb_spec (markTo st - 1) 0); [lia|].
    rewrite <- (take_drop (Z.to_nat (markFrom st)) line) at 1. f_equal.
    rewrite (drop_S _ _ _ Ho). unfold wrapped. cbn [app]. f_equal.
    rewrite <- app_assoc. unfold content.
    rewrite slice_inside by lia.
    replace (Z.to_nat (contentFrom st)) with (S (Z.to_nat (markFrom st)))
      by lia.
    rewrite <- (take_drop (Z.to_nat (contentTo st - contentFrom st))
                  (drop (S (Z.to_nat (markFrom st))) line)) at 1.
    f_equal. rewrite drop_drop.
    replace (S (Z.to_nat (markFrom st))
             + Z.to_nat (contentTo st - contentFrom st))%nat
      with (Z.to_nat (markTo st - 1)) by lia.
    rewrite (drop_S _ _ _ Hcl). cbn [app]. do 2 f_equal. lia. }
  split; [exact Hline|]. split.
  { unfold len in *. rewrite length_take. lia. }
  split; [exact Hlc|]. split; [lia|]. split; [lia|].
  split; [reflexivity|].
  unfold strip_marks. fold content. unfold content at 1.
  rewrite slice_inside by lia. reflexivity.
Qed.

(** The removal branch of [applySingleLineToggle], on the parts of the
    line. *)
Lemma toggle_unwraps_parts
  (editor : Editor) (lineNum from to : Z) (line : jsstring) :
  getLine editor lineNum = Some line ->
  from < to ->
  isUnderlined (getUnderlineState line from to) = true ->
  exists pre content post,
    line = pre ++ wrapped content ++ post
    /\ 0 < len content
    /\ applySingleLineToggle editor lineNum from to
       = Some (mkEditor
                 (<[Z.to_nat lineNum := pre ++ content ++ post]> (lines editor))
                 (Pos.mk lineNum (len pre))
                 (Pos.mk lineNum (len pre + len content))).
Proof.
  intros Hl Hft Hu.
  destruct (underlined_parts line from to Hft Hu)
    as (pre & content & post & Hline & Hpre & Hlc & Hne & Hmt & Hsl & Hstrip).
  exists pre, content, post. split; [exact Hline|]. split; [exact Hne|].
  pose proof (toggle_unwraps editor lineNum from to line Hl ltac:(lia)) as H1.
  cbv zeta in H1. specialize (H1 Hu). rewrite Hsl in H1. rewrite H1.
  rewrite <- Hpre, Hmt. rewrite Hline at 1. rewrite <- Hpre.
  replace (len pre + len content + 2) with (len pre + len (wrapped content))
    by (rewrite len_wrapped; lia).
  now rewrite splice_parts.
Qed.

(** The marks of an underlined state are the ends of the range or the
    two columns around it. *)
Lemma underlined_marks_at_range (line : jsstring) (a b : Z) :
  let st := getUnderlineState line a b in
  isUnderlined st = true ->
  (markFrom st = a /\ markTo st = b)
  \/ (markFrom st = a - 1 /\ markTo st = b + 1).
Proof.
  unfold getUnderlineState.
  destruct (marks_included line a b);
    [|destruct (marks_excluded line a b)]; cbn; intros Hu;
    try discriminate; [left | right]; split; reflexivity.
Qed.

(** X3. For a non-empty range classified as underlined, the single-line
    toggle deletes exactly the two marks of the state: the columns
    [markFrom] and [markTo - 1], which hold underscores and are the ends of
    the range or the two columns around it. The line is [pre _ content _
    post] with [pre] of length [markFrom] and the closing underscore at
    column [markTo - 1]; it becomes [pre content post], every other line
    stays as it is, and the selection is the content kept, which is not
    empty. *)
Theorem single_line_unwrap
  (editor : Editor) (lineNum from to : Z) (line : jsstring) :
  getLine editor lineNum = Some line ->
  from < to ->
  isUnderlined (getUnderlineState line from to) = true ->
  ((markFrom (getUnderlineState line from to) = from
    /\ markTo (getUnderlineState line from to) = to)
   \/ (markFrom (getUnderlineState line from to) = from - 1
       /\ markTo (getUnderlineState line from to) = to + 1))
  /\ exists pre content post editor',
       line = pre ++ [UNDERSCORE] ++ content ++ [UNDERSCORE] ++ post
       /\ len pre = markFrom (getUnderlineState line from to)
       /\ len pre + len content + 2 = markTo (getUnderlineState line from to)
       /\ 0 < len content
       /\ applySingleLineToggle editor lineNum from to = Some editor'
       /\ getLine editor' lineNum = Some (pre ++ content ++ post)
       /\ (forall m, m <> lineNum -> getLine editor' m = getLine editor m)
       /\ selFrom editor' = Pos.mk lineNum (len pre)
       /\ selTo editor' = Pos.mk lineNum (len pre + len content).
Proof.
  intros Hl Hft Hu.
  split; [now apply underlined_marks_at_range|].
  destruct (underlined_parts line from to Hft Hu)
    as (pre & content & post & Hline & Hpre & Hlc & Hne & Hmt & Hsl & Hstrip).
  pose proof (getLine_Some _ _ _ Hl) as Hn.
  pose proof (toggle_unwraps editor lineNum from to line Hl ltac:(lia)) as H1.
  cbv zeta in H1. specialize (H1 Hu). rewrite Hsl in H1.
  assert (Hsplice : splice line (markFrom (getUnderlineState line from to))
                      (markTo (getUnderlineState line from to)) content
                    = pre ++ content ++ post).
  { rewrite Hmt, <- Hpre. rewrite Hline at 1.
    replace (len pre + len content + 2)
      with (len pre + len (wrapped content))
      by (rewrite len_wrapped; lia).
    apply splice_parts. }
  rewrite Hsplice, <- Hpre in H1.
  exists pre, content, post. eexists.
  split. { rewrite Hline. unfold wrapped. cbn [app].
           now rewrite <- app_assoc. }
  split; [exact Hpre|]. split; [lia|]. split; [exact Hne|].
  split; [exact H1|]. cbn [selFrom selTo].
  split; [eapply getLine_updated; eassumption|].
  split; [intros m Hm; apply getLine_other; [lia | assumption]|].
  auto.
Qed.

(** X3 on the line [_a_ _b_] with the range [5,6), the [b]: the marks are
    the columns 4 and 6, and the first span keeps its underscores. *)
Lemma single_line_unwrap_witness :
  let editor := mkEditor [js "_a_ _b_"] (Pos.mk 0 5) (Pos.mk 0 6) in
  let st := getUnderlineState (js "_a_ _b_") 5 6 in
  ((markFrom st = 5 /\ markTo st = 6)
   \/ (markFrom st = 5 - 1 /\ markTo st = 6 + 1))
  /\ exists pre content post editor',
       js "_a_ _b_" = pre ++ [UNDERSCORE] ++ content ++ [UNDERSCORE] ++ post
       /\ len pre = markFrom st
       /\ len pre + len content + 2 = markTo st
       /\ 0 < len content
       /\ applySingleLineToggle editor 0 5 6 = Some editor'
       /\ getLine editor' 0 = Some (pre ++ content ++ post)
       /\ (forall m, m <> 0 -> getLine editor' m = getLine editor m)
       /\ selFrom editor' = Pos.mk 0 (len pre)
       /\ selTo editor' = Pos.mk 0 (len pre + len content).
Proof.
  apply (single_line_unwrap
           (mkEditor [js "_a_ _b_"] (Pos.mk 0 5) (Pos.mk 0 6))
           0 5 6 (js "_a_ _b_")); [reflexivity | lia | reflexivity].
Defined.

Example unwrap_second_span :
  applySingleLineToggle
    (mkEditor [js "_a_ _b_"] (Pos.mk 0 5) (Pos.mk 0 6)) 0 5 6
  = Some (mkEditor [js "_a_ b"] (Pos.mk 0 4) (Pos.mk 0 5)).
Proof. reflexivity. Qed.

(** X4. Toggling an underlined range and then toggling the selection the
    first toggle leaves gives back the original text exactly when that
    selection is classified as not underlined in the line without the
    marks. *)
Theorem unwrap_round_trip
  (editor : Editor) (lineNum from to : Z) (line : jsstring) :
  getLine editor lineNum = Some line ->
  from < to ->
  isUnderlined (getUnderlineState line from to) = true ->
  exists e1 line1 e2,
    applySingleLineToggle editor lineNum from to = Some e1
    /\ getLine e1 lineNum = Some line1
    /\ applySingleLineToggle e1 lineNum
         (Pos.ch (selFrom e1)) (Pos.ch (selTo e1)) = Some e2
    /\ (isUnderlined
          (getUnderlineState line1 (Pos.ch (selFrom e1)) (Pos.ch (selTo e1)))
        = false
        <-> lines e2 = lines editor).
Proof.
  intros Hl Hft Hu.
  destruct (toggle_unwraps_parts editor lineNum from to line Hl Hft Hu)
    as (pre & content & post & Hline & Hne & H1).
  pose proof (getLine_Some _ _ _ Hl) as Hn.
  pose proof (getLine_lookup _ _ _ Hl) as Hlk.
  set (line1 := pre ++ content ++ post) in *.
  set (e1 := mkEditor (<[Z.to_nat lineNum := line1]> (lines editor))
                      (Pos.mk lineNum (len pre))
                      (Pos.mk lineNum (len pre + len content))) in *.
  assert (Hl1 : getLine e1 lineNum = Some line1)
    by (eapply getLine_updated; eassumption).
  exists e1, line1. cbn [selFrom selTo e1 Pos.ch].
  destruct (isUnderlined
              (getUnderlineState line1 (len pre) (len pre + len content)))
    eqn:Hu1.
  - destruct (toggle_unwraps_parts e1 lineNum (len pre)
                (len pre + len content) line1 Hl1 ltac:(lia) Hu1)
      as (p2 & c2 & q2 & Hline2 & _ & H2).
    eexists. split; [exact H1|]. split; [exact Hl1|]. split; [exact H2|].
    split; [discriminate|]. intros Heq. exfalso.
    cbn [lines e1] in Heq. rewrite list_insert_insert_eq in Heq.
    assert (Hk : <[Z.to_nat lineNum := p2 ++ c2 ++ q2]> (lines editor)
                   !! Z.to_nat lineNum = Some line)
      by (rewrite Heq; exact Hlk).
    rewrite list_lookup_insert_eq in Hk by lia. injection Hk as Hk.
    assert (Hlen : len line = len line1 + 2).
    { rewrite Hline. unfold line1. rewrite !len_app, len_wrapped. lia. }
    rewrite <- Hk, Hline2 in Hlen.
    rewrite !len_app, len_wrapped in Hlen. lia.
  - pose proof (toggle_wraps e1 lineNum (len pre) (len pre + len content)
                  line1 Hl1 ltac:(lia) Hu1) as H2.
    eexists. split; [exact H1|]. split; [exact Hl1|]. split; [exact H2|].
    split; [intros _|reflexivity].
    cbn [lines e1]. rewrite list_insert_insert_eq.
    unfold line1 at 2. rewrite slice_parts_mid.
    unfold line1. rewrite splice_parts, <- Hline.
    now apply list_insert_id.
Qed.

Lemma unwrap_round_trip_witness :
  let editor := mkEditor [js "say _hi_ now"] (Pos.mk 0 5) (Pos.mk 0 7) in
  exists e1 line1 e2,
    applySingleLineToggle editor 0 5 7 = Some e1
    /\ getLine e1 0 = Some line1
    /\ applySingleLineToggle e1 0
         (Pos.ch (selFrom e1)) (Pos.ch (selTo e1)) = Some e2
    /\ (isUnderlined
          (getUnderlineState line1 (Pos.ch (selFrom e1)) (Pos.ch (selTo e1)))
        = false
        <-> lines e2 = lines editor).
Proof.
  apply (unwrap_round_trip
           (mkEditor [js "say _hi_ now"] (Pos.mk 0 5) (Pos.mk 0 7))
           0 5 7 (js "say _hi_ now")); [reflexivity | lia | reflexivity].
Defined.

Example unwrap_then_wrap :
  exists e1,
    applySingleLineToggle
      (mkEditor [js "say _hi_ now"] (Pos.mk 0 5) (Pos.mk 0 7)) 0 5 7 = Some e1
    /\ lines e1 = [js "say hi now"]
    /\ exists e2,
         applySingleLineToggle e1 0 (Pos.ch (selFrom e1)) (Pos.ch (selTo e1))
         = Some e2
         /\ lines e2 = [js "say _hi_ now"].
Proof.
  eexists. split; [reflexivity|]. split; [reflexivity|].
  eexists. split; reflexivity.
Qed.

(** ** The empty pair *)

(** A cursor past the line end is never on an empty word: the left loop
    walks over the columns the line does not have. *)
Lemma empty_word_inside (line : jsstring) (ch : Z) :
  0 <= ch ->
  Range.from (detectWordRange line ch) = Range.to (detectWordRange line ch) ->
  ch <= len line.
Proof.
  intros Hch Heq. destruct (Z_le_dec ch (len line)) as [|Hgt]; [assumption|].
  exfalso. pose proof (len_nonneg line) as Hlen.
  pose proof (detectWordRange_runs line ch) as Hrun.
  inversion Hrun as [Hc Hr|l r Hc HL HR Hr].
  - apply andb_true_iff in Hc as [Hlt _]. apply Z.ltb_lt in Hlt. lia.
  - rewrite <- Hr in Heq. cbn in Heq.
    apply RightLoop_result in HR as (Hge & _).
    assert (Hcond : left_cond line ch = true).
    { unfold left_cond. rewrite stop_test_outside by lia.
      replace (0 <? ch) with true by (symmetry; apply Z.ltb_lt; lia).
      reflexivity. }
    assert (Hlt : l < ch).
    { inversion HL as [x Hexit|x y Hc' Hnext]; [congruence|].
      apply LeftLoop_result in Hnext as (Hle & _). lia. }
    lia.
Qed.

Lemma char_at_inserted_pair (line : jsstring) (ch : Z) :
  0 <= ch <= len line ->
  let line' := take (Z.to_nat ch) line ++ [UNDERSCORE; UNDERSCORE]
                 ++ drop (Z.to_nat ch) line in
  len line' = len line + 2
  /\ char_at line' ch = Some UNDERSCORE
  /\ char_at line' (ch + 1) = Some UNDERSCORE
  /\ splice line' ch (ch + 2) [] = line.
Proof.
  intros Hch line'.
  assert (Hlt : len (take (Z.to_nat ch) line) = ch).
  { unfold len in *. rewrite length_take. lia. }
  split; [|split; [|split]].
  - unfold line'. rewrite !len_app, Hlt. unfold len in *.
    rewrite length_drop. cbn [length]. lia.
  - unfold line'. rewrite char_at_app_r by lia. now rewrite Hlt, Z.sub_diag.
  - unfold line'. rewrite char_at_app_r by lia. rewrite Hlt.
    now replace (ch + 1 - ch) with 1 by lia.
  - unfold line'.
    rewrite <- Hlt at 3 4.
    change 2 with (len [UNDERSCORE; UNDERSCORE]).
    rewrite splice_parts. cbn [app]. apply take_drop.
Qed.

(** X5. The command undoes its own empty pair: with no selection, a cursor
    on an empty word and not between two underscores, the command inserts
    [__] and puts the cursor between the two marks; run again from there,
    it deletes the pair, and the buffer holds the original text. *)
Theorem empty_pair_round_trip (editor : Editor) (line : jsstring) :
  let lineNum := Pos.line (selFrom editor) in
  let ch := Pos.ch (selFrom editor) in
  selTo editor = selFrom editor ->
  getLine editor lineNum = Some line ->
  0 <= ch ->
  Range.from (detectWordRange line ch) = Range.to (detectWordRange line ch) ->
  is_underscore (char_at line (ch - 1)) && is_underscore (char_at line ch)
  = false ->
  exists e1 e2,
    toggleUnderlineCommand editor = Some e1
    /\ getLine e1 lineNum
       = Some (take (Z.to_nat ch) line ++ [UNDERSCORE; UNDERSCORE]
                 ++ drop (Z.to_nat ch) line)
    /\ selFrom e1 = Pos.mk lineNum (ch + 1)
    /\ selTo e1 = Pos.mk lineNum (ch + 1)
    /\ toggleUnderlineCommand e1 = Some e2
    /\ lines e2 = lines editor.
Proof.
  intros lineNum ch Hsel Hl Hch Hword Hpair.
  pose proof (empty_word_inside line ch Hch Hword) as Hin.
  pose proof (getLine_Some _ _ _ Hl) as Hn.
  pose proof (getLine_lookup _ _ _ Hl) as Hlk.
  destruct (char_at_inserted_pair line ch ltac:(lia))
    as (Hlen & Hc0 & Hc1 & Hback).
  set (line' := take (Z.to_nat ch) line ++ [UNDERSCORE; UNDERSCORE]
                  ++ drop (Z.to_nat ch) line) in *.
  set (e1 := mkEditor (<[Z.to_nat lineNum := line']> (lines editor))
                      (Pos.mk lineNum (ch + 1)) (Pos.mk lineNum (ch + 1))).
  assert (H1 : toggleUnderlineCommand editor = Some e1).
  { unfold toggleUnderlineCommand. rewrite Hsel. fold lineNum ch.
    rewrite !Z.eqb_refl. cbn [negb orb]. rewrite Hl. cbn [mbind option_bind].
    apply Z.eqb_eq in Hword. rewrite Hword.
    replace ((0 <? ch) && (ch <? len line)
             && is_underscore (char_at line (ch - 1))
             && is_underscore (char_at line ch)) with false
      by (rewrite <- !andb_assoc, Hpair; now rewrite !andb_false_r).
    unfold replaceSelection. rewrite Hsel. fold lineNum ch. rewrite Hl.
    cbn [mbind option_bind]. unfold setCursor. cbn [lines]. unfold e1.
    do 3 f_equal. unfold splice.
    rewrite slice_prefix, slice_suffix by lia. reflexivity. }
  assert (Hl1 : getLine e1 lineNum = Some line')
    by (eapply getLine_updated; eassumption).
  exists e1. eexists. split; [exact H1|]. split; [exact Hl1|].
  split; [reflexivity|]. split; [reflexivity|]. split.
  - unfold toggleUnderlineCommand. cbn [selFrom selTo e1 Pos.line Pos.ch].
    rewrite !Z.eqb_refl. cbn [negb orb]. rewrite Hl1.
    cbn [mbind option_bind].
    assert (Hd : detectWordRange line' (ch + 1) = Range.mk (ch + 1) (ch + 1)).
    { unfold detectWordRange, detectWordRange_fuel. rewrite Hc1.
      replace (ch + 1 <? len line') with true
        by (symmetry; apply Z.ltb_lt; lia).
      reflexivity. }
    rewrite Hd. cbn [Range.from Range.to]. rewrite Z.eqb_refl.
    replace (ch + 1 - 1) with ch by lia. rewrite Hc0, Hc1.
    replace (0 <? ch + 1) with true by (symmetry; apply Z.ltb_lt; lia).
    replace (ch + 1 <? len line') with true
      by (symmetry; apply Z.ltb_lt; lia).
    cbn [andb is_underscore]. rewrite Z.eqb_refl.
    erewrite replaceRange_line by exact Hl1. reflexivity.
  - cbn [lines e1]. rewrite list_insert_insert_eq.
    replace (ch + 1 + 1) with (ch + 2) by lia. rewrite Hback.
    now apply list_insert_id.
Qed.

Lemma empty_pair_round_trip_witness :
  let editor := mkEditor [js "hello world"] (Pos.mk 0 5) (Pos.mk 0 5) in
  exists e1 e2,
    toggleUnderlineCommand editor = Some e1
    /\ getLine e1 0 = Some (js "hello__ world")
    /\ selFrom e1 = Pos.mk 0 6
    /\ selTo e1 = Pos.mk 0 6
    /\ toggleUnderlineCommand e1 = Some e2
    /\ lines e2 = lines editor.
Proof.
  apply (empty_pair_round_trip
           (mkEditor [js "hello world"] (Pos.mk 0 5) (Pos.mk 0 5))
           (js "hello world"));
    [reflexivity | reflexivity | cbn; lia | reflexivity | reflexivity].
Defined.

(** ** What the toggles leave alone *)

Lemma getLine_is_Some (editor : Editor) (i : Z) :
  is_Some (getLine editor i) <-> 0 <= i < Z.of_nat (length (lines editor)).
Proof.
  unfold getLine. destruct (Z.ltb_spec i 0).
  - split; [intros [? ?]; discriminate | lia].
  - rewrite lookup_lt_is_Some. lia.
Qed.

Lemma toggle_body_frame (remove : bool) (from to : Pos.t)
  (editor : Editor) (i : Z) :
  is_Some (getLine editor i) ->
  exists editor',
    toggle_body remove from to editor i = Some editor'
    /\ length (lines editor') = length (lines editor)
    /\ selFrom editor' = selFrom editor
    /\ selTo editor' = selTo editor
    /\ forall j, j <> i -> getLine editor' j = getLine editor j.
Proof.
  intros [line Hl]. pose proof (getLine_Some _ _ _ Hl) as Hi.
  unfold toggle_body. rewrite Hl. cbn [mbind option_bind].
  repeat match goal with
         | |- context [if ?c then _ else _] => destruct c
         end;
    try (exists editor; auto; fail);
    erewrite replaceRange_line by eassumption;
    (eexists; split; [reflexivity|]; cbn [lines selFrom selTo];
     rewrite length_insert; repeat split;
     intros j Hj; apply getLine_other; [lia | assumption]).
Qed.

Lemma toggle_loop_frame (remove : bool) (from to : Pos.t)
  (range : list Z) (editor : Editor) :
  (forall i, i ∈ range -> is_Some (getLine editor i)) ->
  exists editor',
    for_each (toggle_body remove from to) range editor = Some editor'
    /\ length (lines editor') = length (lines editor)
    /\ selFrom editor' = selFrom editor
    /\ selTo editor' = selTo editor
    /\ forall j, j ∉ range -> getLine editor' j = getLine editor j.
Proof.
  revert editor. induction range as [|i rest IH]; intros editor Hex.
  - exists editor. cbn. auto.
  - destruct (toggle_body_frame remove from to editor i)
      as (e1 & Hstep & Hlen1 & Hsf1 & Hst1 & Hother1); [apply Hex; left|].
    destruct (IH e1) as (e' & Hloop & Hlen & Hsf & Hst & Hother).
    { intros j Hj. apply getLine_is_Some. rewrite Hlen1.
      apply getLine_is_Some, Hex. now right. }
    exists e'. cbn [for_each]. rewrite Hstep. cbn [mbind option_bind].
    split; [exact Hloop|]. split; [congruence|]. split; [congruence|].
    split; [congruence|]. intros j Hj.
    rewrite Hother by (intros ?; apply Hj; now right).
    apply Hother1. intros ->. apply Hj. left.
Qed.

Lemma in_ascending (a b i : Z) : i ∈ ascending a b <-> a <= i <= b.
Proof. unfold ascending. rewrite elem_of_seqZ. lia. Qed.

Lemma in_descending (a b i : Z) : i ∈ descending a b <-> a <= i <= b.
Proof. unfold descending. rewrite elem_of_reverse, elem_of_seqZ. lia. Qed.

(** X7. Over lines the buffer has, [countUnderlinedLines] returns counts
    with [0 <= underlined <= total], the total being at most the number of
    lines from [selFrom.line] to [selTo.line]; so the vote
    [underlined > total / 2] of [applyMultiLineToggle] is for removal only
    when at least one slice is underlined. *)
Theorem count_bounded (editor : Editor) (from to : Pos.t) :
  (forall i, Pos.line from <= i <= Pos.line to ->
             is_Some (getLine editor i)) ->
  exists count,
    countUnderlinedLines editor from to = Some count
    /\ 0 <= underlined count <= total count
    /\ total count <= Z.max 0 (Pos.line to - Pos.line from + 1)
    /\ (more_than_half (underlined count) (total count) = true ->
        0 < underlined count).
Proof.
  intros Hex. unfold countUnderlinedLines.
  rewrite count_loop by (intros i Hi%in_ascending; now apply Hex).
  eexists. split; [reflexivity|]. cbn [underlined total].
  pose proof (List.filter_length_le (slice_classified editor from to)
                (List.filter (slice_counted editor from to)
                   (ascending (Pos.line from) (Pos.line to)))).
  pose proof (List.filter_length_le (slice_counted editor from to)
                (ascending (Pos.line from) (Pos.line to))) as Hle.
  unfold ascending in Hle at 2. rewrite length_seqZ in Hle.
  split; [lia|]. split; [lia|].
  rewrite more_than_half_strict. intros Hv%Z.ltb_lt. lia.
Qed.

Lemma count_bounded_witness :
  let count := mkCount 2 3 in
  countUnderlinedLines
    (mkEditor [js "_first_"; js "plain"; js "_third_"]
       (Pos.mk 0 0) (Pos.mk 2 7)) (Pos.mk 0 0) (Pos.mk 2 7) = Some count
  /\ 0 <= underlined count <= total count
  /\ total count <= Z.max 0 (2 - 0 + 1)
  /\ (more_than_half (underlined count) (total count) = true ->
      0 < underlined count).
Proof.
  destruct (count_bounded
              (mkEditor [js "_first_"; js "plain"; js "_third_"]
                 (Pos.mk 0 0) (Pos.mk 2 7)) (Pos.mk 0 0) (Pos.mk 2 7))
    as (count & Hcount & Hbounds).
  - cbn [Pos.line]. intros i Hi. apply getLine_is_Some. cbn. lia.
  - injection Hcount as <-. split; [reflexivity | exact Hbounds].
Defined.

Lemma len_voted_line (remove : bool) (line : jsstring) (sl : Range.t) :
  0 <= Range.from sl -> Range.to sl <= len line ->
  voted_line remove line sl = line
  \/ len (voted_line remove line sl)
     = len line + (if remove then -2 else 2).
Proof.
  intros Hf Ht. unfold voted_line.
  destruct (Z.ltb_spec (Range.from sl) (Range.to sl)) as [Hne|He];
    [|now left].
  cbv zeta.
  destruct (isUnderlined (getUnderlineState line (Range.from sl) (Range.to sl)))
    eqn:Hu; destruct remove; try (now left); right.
  - destruct (underlined_parts line (Range.from sl) (Range.to sl) Hne Hu)
      as (pre & content & post & Hline & _ & _ & _ & _ & _ & Hstrip).
    rewrite Hstrip. rewrite Hline at 1.
    rewrite !len_app, len_wrapped. lia.
  - rewrite <- splice_wraps by lia. unfold splice.
    rewrite slice_prefix, slice_suffix by lia.
    rewrite !len_app, len_wrapped, len_slice_inside by lia.
    unfold len in *. rewrite length_take, length_drop. lia.
Qed.

(** X8. One call of [applyMultiLineToggle] edits in one direction only.
    For a start column that is not negative and affected lines the buffer
    has, the toggle returns, the buffer keeps its number of lines, and
    every line is either as it was or a line of the selection that is two
    characters longer, when the vote is to insert, or two characters
    shorter, when the vote is to remove: never some of each. *)
Theorem multi_line_one_direction (editor : Editor) (from to : Pos.t) :
  0 <= Pos.ch from ->
  (forall i, Pos.line from <= i <= Pos.line to ->
             is_Some (getLine editor i)) ->
  exists editor' delta,
    applyMultiLineToggle editor from to = Some editor'
    /\ (delta = 2 \/ delta = -2)
    /\ length (lines editor') = length (lines editor)
    /\ forall j line,
         getLine editor j = Some line ->
         exists line',
           getLine editor' j = Some line'
           /\ (line' = line
               \/ (Pos.line from <= j <= Pos.line to
                   /\ len line' = len line + delta)).
Proof.
  intros Hch Hex. unfold applyMultiLineToggle, countUnderlinedLines.
  rewrite count_loop by (intros i Hi%in_ascending; now apply Hex).
  cbn [mbind option_bind].
  match goal with
  | |- context [for_each (toggle_body ?r from to) ?range editor] =>
      set (remove := r);
      destruct (toggle_loop from to Hch remove range editor)
        as (editor' & Hloop & Hlines);
      [ unfold descending; rewrite reverse_Permutation; apply NoDup_seqZ
      | intros i Hi%in_descending; now apply Hex
      | destruct (toggle_loop_frame remove from to range editor)
          as (e2 & Hloop2 & Hlen & _);
        [ intros i Hi%in_descending; now apply Hex |] ]
  end.
  assert (e2 = editor') as -> by congruence.
  exists editor', (if remove then -2 else 2).
  split; [exact Hloop|]. split; [destruct remove; auto|].
  split; [exact Hlen|]. intros j line Hl.
  rewrite (Hlines j line Hl). eexists. split; [reflexivity|].
  destruct (decide (j ∈ descending (Pos.line from) (Pos.line to)))
    as [Hin%in_descending|Hout]; [|now left].
  destruct (getLineSlice_inside line j from to Hch) as [Hf Ht].
  destruct (len_voted_line remove line (getLineSlice line j from to) Hf Ht)
    as [Hsame|Hlen']; [now left | right; auto].
Qed.

Lemma multi_line_one_direction_witness :
  exists editor' delta,
    applyMultiLineToggle
      (mkEditor [js "title"; js "_a_"; js "b"; js "end"]
         (Pos.mk 1 0) (Pos.mk 2 1)) (Pos.mk 1 0) (Pos.mk 2 1) = Some editor'
    /\ (delta = 2 \/ delta = -2)
    /\ length (lines editor') = 4%nat
    /\ forall j line,
         getLine (mkEditor [js "title"; js "_a_"; js "b"; js "end"]
                    (Pos.mk 1 0) (Pos.mk 2 1)) j = Some line ->
         exists line',
           getLine editor' j = Some line'
           /\ (line' = line
               \/ (1 <= j <= 2 /\ len line' = len line + delta)).
Proof.
  apply (multi_line_one_direction
           (mkEditor [js "title"; js "_a_"; js "b"; js "end"]
              (Pos.mk 1 0) (Pos.mk 2 1)) (Pos.mk 1 0) (Pos.mk 2 1)).
  - cbn. lia.
  - cbn [Pos.line]. intros i Hi. apply getLine_is_Some. cbn. lia.
Defined.

Lemma single_toggle_frame (editor : Editor) (lineNum a b : Z) :
  is_Some (getLine editor lineNum) ->
  exists editor',
    applySingleLineToggle editor lineNum a b = Some editor'
    /\ length (lines editor') = length (lines editor)
    /\ forall j, j <> lineNum -> getLine editor' j = getLine editor j.
Proof.
  intros [line Hl]. pose proof (getLine_Some _ _ _ Hl) as Hn.
  unfold applySingleLineToggle. destruct (a =? b); [exists editor; auto|].
  rewrite Hl. cbn [mbind option_bind].
  destruct (isUnderlined (getUnderlineState line a b));
    erewrite replaceRange_line by eassumption; cbn [mbind option_bind];
    (eexists; split; [reflexivity|]; unfold setSelection; cbn [lines];
     rewrite length_insert; split; [reflexivity|];
     intros j Hj; apply getLine_other; [lia | assumption]).
Qed.

(** X6. When the buffer has the lines from the start to the end of the
    selection, [toggleUnderlineCommand] returns, in each of its three
    modes, a buffer with as many lines as before in which every line
    outside the selection is as it was. *)
Theorem command_frame (editor : Editor) :
  (forall i, Pos.line (selFrom editor) <= i <= Pos.line (selTo editor) ->
             is_Some (getLine editor i)) ->
  exists editor',
    toggleUnderlineCommand editor = Some editor'
    /\ length (lines editor') = length (lines editor)
    /\ forall j, j < Pos.line (selFrom editor)
                 \/ Pos.line (selTo editor) < j ->
                 getLine editor' j = getLine editor j.
Proof.
  intros Hex.
  destruct (Z.eqb_spec (Pos.line (selFrom editor)) (Pos.line (selTo editor)))
    as [Hline|Hline].
  - (* one line: both modes read the line of the cursor *)
    assert (Hs : is_Some (getLine editor (Pos.line (selFrom editor))))
      by (apply Hex; lia).
    assert (Hsingle : forall a b,
              exists editor',
                applySingleLineToggle editor (Pos.line (selFrom editor)) a b
                = Some editor'
                /\ length (lines editor') = length (lines editor)
                /\ forall j, j < Pos.line (selFrom editor)
                             \/ Pos.line (selTo editor) < j ->
                     getLine editor' j = getLine editor j).
    { intros a b.
      destruct (single_toggle_frame editor (Pos.line (selFrom editor)) a b Hs)
        as (e' & Ht & Hlen & Hother).
      exists e'. split; [exact Ht|]. split; [exact Hlen|].
      intros j Hj. apply Hother. lia. }
    unfold toggleUnderlineCommand.
    apply Z.eqb_eq in Hline as Hlineb. rewrite Hlineb. cbn [negb orb].
    destruct (Z.eqb_spec (Pos.ch (selFrom editor)) (Pos.ch (selTo editor)))
      as [Hch|Hch];
      cbn [negb]; [|now apply Hsingle].
    destruct Hs as [line Hl]. rewrite Hl. cbn [mbind option_bind].
    pose proof (getLine_Some _ _ _ Hl) as Hn.
    destruct (Z.eqb_spec
                (Range.from (detectWordRange line (Pos.ch (selFrom editor))))
                (Range.to (detectWordRange line (Pos.ch (selFrom editor)))))
      as [Hw|Hw]; [|now apply Hsingle].
    match goal with
    | |- context [if ?c then _ else _] => destruct c
    end.
    + erewrite replaceRange_line by eassumption.
      eexists. split; [reflexivity|]. cbn [lines].
      split; [apply length_insert|].
      intros j Hj. apply getLine_other; lia.
    + unfold replaceSelection. rewrite Hl.
      cbn [mbind option_bind]. unfold setCursor. cbn [lines].
      eexists. split; [reflexivity|]. cbn [lines].
      split; [apply length_insert|].
      intros j Hj. apply getLine_other; lia.
  - (* several lines *)
    unfold toggleUnderlineCommand.
    apply Z.eqb_neq in Hline as Hlineb. rewrite Hlineb. cbn [negb orb].
    unfold applyMultiLineToggle, countUnderlinedLines.
    rewrite count_loop by (intros i Hi%in_ascending; now apply Hex).
    cbn [mbind option_bind].
    match goal with
    | |- context [for_each (toggle_body ?r ?f ?t) ?range editor] =>
        destruct (toggle_loop_frame r f t range editor)
          as (e' & Hloop & Hlen & Hsf & Hst & Hother)
    end.
    { intros i Hi%in_descending. now apply Hex. }
    exists e'. split; [exact Hloop|]. split; [exact Hlen|].
    intros j Hj. apply Hother. rewrite in_descending. lia.
Qed.

Lemma command_frame_witness :
  exists editor',
    toggleUnderlineCommand
      (mkEditor [js "title"; js "hello world"; js "end"]
         (Pos.mk 1 8) (Pos.mk 1 8)) = Some editor'
    /\ length (lines editor') = 3%nat
    /\ forall j, j < 1 \/ 1 < j ->
         getLine editor' j
         = getLine (mkEditor [js "title"; js "hello world"; js "end"]
                      (Pos.mk 1 8) (Pos.mk 1 8)) j.
Proof.
  apply (command_frame
           (mkEditor [js "title"; js "hello world"; js "end"]
              (Pos.mk 1 8) (Pos.mk 1 8))).
  cbn [selFrom selTo Pos.line]. intros i Hi.
  apply getLine_is_Some. cbn. lia.
Defined.

Example command_on_middle_line :
  toggleUnderlineCommand
    (mkEditor [js "title"; js "hello world"; js "end"]
       (Pos.mk 1 8) (Pos.mk 1 8))
  = Some (mkEditor [js "title"; js "hello _world_"; js "end"]
            (Pos.mk 1 13) (Pos.mk 1 13)).
Proof. reflexivity. Qed.

(** X9. On a non-empty range within one line the two toggles edit the text
    alike: [applyMultiLineToggle] with both ends of the selection on that
    line leaves the buffer with the text [applySingleLineToggle] gives
    it. *)
Theorem modes_agree_on_one_line
  (editor : Editor) (lineNum a b : Z) (line : jsstring) :
  getLine editor lineNum = Some line ->
  0 <= a < b -> b <= len line ->
  exists e1 e2,
    applySingleLineToggle editor lineNum a b = Some e1
    /\ applyMultiLineToggle editor (Pos.mk lineNum a) (Pos.mk lineNum b)
       = Some e2
    /\ lines e1 = lines e2.
Proof.
  intros Hl Hab Hb.
  assert (Hrange : seqZ lineNum (lineNum - lineNum + 1) = [lineNum]).
  { replace (lineNum - lineNum + 1) with 1 by lia. cbn. f_equal. }
  assert (Hslice : getLineSlice line lineNum (Pos.mk lineNum a)
                     (Pos.mk lineNum b) = Range.mk a b).
  { unfold getLineSlice. cbn [Pos.line Pos.ch]. rewrite Z.eqb_refl.
    cbn [andb]. f_equal. lia. }
  unfold applyMultiLineToggle, countUnderlinedLines, ascending, descending.
  cbn [Pos.line]. rewrite Hrange. cbn [reverse rev_append for_each].
  unfold count_body, toggle_body. rewrite Hl. cbn [mbind option_bind].
  rewrite Hslice. cbn [Range.from Range.to].
  replace (b <=? a) with false by (symmetry; apply Z.leb_gt; lia).
  unfold applySingleLineToggle.
  replace (a =? b) with false by (symmetry; apply Z.eqb_neq; lia).
  rewrite Hl. cbn [mbind option_bind].
  destruct (isUnderlined (getUnderlineState line a b)) eqn:Hu;
    cbn [mbind option_bind underlined total];
    rewrite more_than_half_strict;
    [replace (0 + 1 <? 2 * (0 + 1)) with true by reflexivity
    |replace (0 + 1 <? 2 * 0) with false by reflexivity];
    cbn [andb negb];
    erewrite replaceRange_line by eassumption; cbn [mbind option_bind];
    do 2 eexists; (split; [reflexivity|]); (split; [reflexivity|]);
    reflexivity.
Qed.

Lemma modes_agree_on_one_line_witness :
  let editor := mkEditor [js "say _hi_ now"] (Pos.mk 0 5) (Pos.mk 0 7) in
  exists e1 e2,
    applySingleLineToggle editor 0 5 7 = Some e1
    /\ applyMultiLineToggle editor (Pos.mk 0 5) (Pos.mk 0 7) = Some e2
    /\ lines e1 = lines e2.
Proof.
  apply (modes_agree_on_one_line
           (mkEditor [js "say _hi_ now"] (Pos.mk 0 5) (Pos.mk 0 7))
           0 5 7 (js "say _hi_ now")); [reflexivity | lia | now vm_compute].
Defined.

(** ** What the pairing loop finds *)

Lemma lazy_tail_complete (rest : jsstring) (k n : Z) :
  0 <= n -> content_then_mark rest n -> lazy_tail rest k = Some (k + n + 2).
Proof.
  intros Hn. revert rest k.
  induction (Z.to_nat n) as [|p IH] eqn:Ep in n, Hn |- *;
    intros rest k [Hmark Hrun].
  - assert (n = 0) as -> by lia. destruct rest as [|c rest]; [discriminate|].
    cbn in Hmark. injection Hmark as ->. cbn [lazy_tail].
    rewrite Z.eqb_refl. f_equal. lia.
  - destruct (Hrun 0 ltac:(lia)) as (c & Hc & Hclass).
    destruct rest as [|c' rest]; [discriminate|].
    cbn in Hc. injection Hc as ->. cbn [lazy_tail].
    assert (Hnu : (c =? UNDERSCORE) = false).
    { unfold content_char in Hclass. apply andb_true_iff in Hclass as [H _].
      now apply negb_true_iff in H. }
    rewrite Hnu, Hclass.
    rewrite (IH (n - 1)); [f_equal; lia | lia | lia |].
    split.
    + rewrite <- Hmark. rewrite char_at_cons_pos by lia. reflexivity.
    + intros i Hi. specialize (Hrun (i + 1) ltac:(lia)).
      rewrite char_at_cons_pos in Hrun by lia.
      now replace (i + 1 - 1) with i in Hrun by lia.
Qed.

Lemma match_here_complete (s : jsstring) (m : Z) :
  is_match s 0 m -> match_here s = Some m.
Proof.
  intros (_ & H3 & Hl & Ho & Hc & Hrun).
  destruct s as [|c [|d rest]].
  - discriminate.
  - unfold len in Hl. cbn in Hl. lia.
  - cbn in Ho. injection Ho as ->.
    destruct (Hrun 1 ltac:(lia)) as (d' & Hd & Hclass).
    cbn in Hd. injection Hd as ->.
    unfold match_here. rewrite Z.eqb_refl, Hclass. cbn [andb].
    rewrite (lazy_tail_complete rest 1 (m - 3)); [f_equal; lia | lia |].
    split.
    + rewrite <- Hc. rewrite !char_at_cons_pos by lia. f_equal. lia.
    + intros i Hi. specialize (Hrun (i + 2) ltac:(lia)).
      rewrite !char_at_cons_pos in Hrun by lia.
      now replace (i + 2 - 1 - 1) with i in Hrun by lia.
Qed.

Lemma is_match_unshift (c : Z) (s : jsstring) (j m : Z) :
  0 < j -> is_match (c :: s) j m -> is_match s (j - 1) m.
Proof.
  intros Hj (H0 & H3 & Hl & Ho & Hc & Hrun). unfold is_match.
  repeat split; try lia.
  - unfold len in *. cbn [length] in Hl. lia.
  - rewrite char_at_cons_pos in Ho by lia. exact Ho.
  - rewrite char_at_cons_pos in Hc by lia.
    now replace (j - 1 + m - 1) with (j + m - 1 - 1) by lia.
  - intros i Hi. specialize (Hrun (i + 1) ltac:(lia)).
    rewrite char_at_cons_pos in Hrun by lia.
    now replace (i + 1 - 1) with i in Hrun by lia.
Qed.

(** [search] stops at the leftmost match. *)
Lemma search_complete (t : jsstring) (i j m : Z) :
  is_match t j m ->
  exists j0 m0,
    search t i = Some (i + j0, m0) /\ 0 <= j0 <= j /\ (j0 = j -> m0 = m).
Proof.
  revert i j. induction t as [|c t IH]; intros i j Hm.
  - destruct Hm as (H0 & H3 & Hl & _). unfold len in Hl. cbn in Hl. lia.
  - cbn [search]. destruct (match_here (c :: t)) as [k|] eqn:Hk.
    + exists 0, k. rewrite Z.add_0_r. split; [reflexivity|].
      pose proof Hm as (H0 & _). split; [lia|].
      intros <-. apply match_here_complete in Hm. congruence.
    + assert (Hj : 0 < j).
      { destruct (Z.eq_dec j 0) as [->|];
          [apply match_here_complete in Hm; congruence|].
        destruct Hm as (H0 & _). lia. }
      destruct (IH (i + 1) (j - 1) (is_match_unshift _ _ _ _ Hj Hm))
        as (j0 & m0 & Hs & Hle & Heq).
      exists (j0 + 1), m0. rewrite Hs. split; [f_equal; f_equal; lia|].
      split; [lia|]. intros ?. apply Heq. lia.
Qed.

Lemma is_match_in_drop (s : jsstring) (k : nat) (j m : Z) :
  Z.of_nat k <= j -> is_match s j m -> is_match (drop k s) (j - Z.of_nat k) m.
Proof.
  intros Hk (H0 & H3 & Hl & Ho & Hc & Hrun). unfold is_match.
  repeat split; try lia.
  - unfold len in *. rewrite length_drop. lia.
  - rewrite char_at_drop by lia. rewrite <- Ho. f_equal. lia.
  - rewrite char_at_drop by lia. rewrite <- Hc. f_equal. lia.
  - intros i Hi. rewrite char_at_drop by lia. apply Hrun. lia.
Qed.

Lemma exec_complete (s : jsstring) (lastIndex j m : Z) :
  lastIndex <= j -> is_match s j m ->
  exists j0 m0,
    exec s lastIndex = Some (j0, m0) /\ j0 <= j /\ (j0 = j -> m0 = m).
Proof.
  intros Hle Hm. pose proof Hm as (H0 & H3 & Hl & _).
  unfold exec. cbv zeta.
  destruct (Z.ltb_spec (len s) (Z.max lastIndex 0)); [lia|].
  destruct (search_complete (drop (Z.to_nat (Z.max lastIndex 0)) s)
              (Z.max lastIndex 0)
              (j - Z.of_nat (Z.to_nat (Z.max lastIndex 0))) m)
    as (j0 & m0 & Hs & Hj0 & Heq).
  { apply is_match_in_drop; [lia | assumption]. }
  exists (Z.max lastIndex 0 + j0), m0. split; [exact Hs|].
  split; [lia|]. intros ?. apply Heq. lia.
Qed.

(** A pair the loop does not report had its opening underscore taken as the
    closing mark of a span it did report. *)
Lemma matches_from_complete (s : jsstring) (lastIndex : Z) :
  forall j m, lastIndex <= j -> is_match s j m ->
    (j, m) ∈ matches_from s lastIndex
    \/ exists j' m', (j', m') ∈ matches_from s lastIndex
                     /\ j' + m' - 1 = j.
Proof.
  funelim (matches_from s lastIndex); intros j m Hle Hm.
  - destruct (exec_complete s lastIndex j m Hle Hm)
      as (j0 & m0 & Hex & Hj0 & Heq).
    rewrite e in Hex. injection Hex as <- <-.
    destruct (Z.eq_dec index j) as [->|Hne].
    { left. rewrite (Heq eq_refl). left. }
    pose proof (exec_sound _ _ _ _ e) as [_ Hfound].
    destruct Hfound as (_ & _ & _ & _ & _ & Hrun).
    pose proof Hm as (Hj & H3 & Hl & Ho & Hrest).
    assert (Hpast : index + n - 1 <= j).
    { destruct (Z_le_dec (index + n - 1) j) as [|Hin]; [assumption|].
      destruct (Hrun j ltac:(lia)) as (c & Hc & Hclass).
      rewrite Ho in Hc. injection Hc as <-. discriminate. }
    destruct (Z.eq_dec (index + n - 1) j) as [Hclose|Hfar].
    { right. exists index, n. split; [left | assumption]. }
    match goal with
    | IH : forall j m, _ <= j -> is_match _ j m -> _ |- _ =>
        destruct (IH j m ltac:(lia) Hm) as [Hin|(j' & m' & Hin & Heq')]
    end.
    + left. now right.
    + right. exists j', m'. split; [now right | assumption].
  - destruct (exec_complete s lastIndex j m Hle Hm) as (j0 & m0 & Hex & _).
    congruence.
Qed.

(** X10. The loop misses no pair it could report: a line has an underscore
    pair (an underscore, one or more characters that are neither underscore
    nor newline, an underscore) exactly when the loop finds a span, and
    every pair of the line is either a span found or opens on the
    underscore that closes a span found. *)
Theorem scanner_complete (lineFrom : Z) (s : jsstring) :
  (line_spans lineFrom s = [] <-> forall j m, ~ is_match s j m)
  /\ (forall j m,
        is_match s j m ->
        Range.mk (lineFrom + j) (lineFrom + j + m) ∈ line_spans lineFrom s
        \/ exists sp, sp ∈ line_spans lineFrom s
                      /\ Range.to sp - 1 = lineFrom + j).
Proof.
  assert (Hfmap : forall j m, (j, m) ∈ matches_from s 0 ->
            Range.mk (lineFrom + j) (lineFrom + j + m)
              ∈ line_spans lineFrom s).
  { intros j m Hin. apply list_elem_of_In, in_map_iff.
    exists (j, m). split; [reflexivity | now apply list_elem_of_In]. }
  assert (Hcomplete : forall j m,
        is_match s j m ->
        Range.mk (lineFrom + j) (lineFrom + j + m) ∈ line_spans lineFrom s
        \/ exists sp, sp ∈ line_spans lineFrom s
                      /\ Range.to sp - 1 = lineFrom + j).
  { intros j m Hm. pose proof Hm as (H0 & _).
    destruct (matches_from_complete s 0 j m H0 Hm)
      as [Hin|(j' & m' & Hin & Heq)].
    - left. now apply Hfmap.
    - right. exists (Range.mk (lineFrom + j') (lineFrom + j' + m')).
      split; [now apply Hfmap | cbn; lia]. }
  split; [|exact Hcomplete]. split.
  - intros Hnil j m Hm. rewrite Hnil in Hcomplete.
    destruct (Hcomplete j m Hm) as [Hin|(sp & Hin & _)];
      now apply elem_of_nil in Hin.
  - intros Hnone. unfold line_spans.
    destruct (matches_from s 0) as [|[j m] rest] eqn:E; [reflexivity|].
    exfalso. apply (Hnone j m).
    apply (matches_from_sound s 0). rewrite E. left.
Qed.

Lemma scanner_complete_witness :
  Range.mk (10 + 4) (10 + 4 + 4) ∈ line_spans 10 (js "_a_ _bc_")
  \/ exists sp, sp ∈ line_spans 10 (js "_a_ _bc_")
                /\ Range.to sp - 1 = 10 + 4.
Proof.
  apply (proj2 (scanner_complete 10 (js "_a_ _bc_")) 4 4).
  unfold is_match. repeat split; try (vm_compute; congruence).
  intros i Hi. assert (i = 5 \/ i = 6) as [-> | ->] by lia;
    eexists; (split; [reflexivity|reflexivity]).
Defined.

Example shared_underscore_is_not_reused :
  is_match (js "_a_b_") 2 3 /\ line_spans 0 (js "_a_b_") = [Range.mk 0 3].
Proof.
  split; [|reflexivity]. unfold is_match.
  repeat split; try (vm_compute; congruence).
  intros i Hi. assert (i = 3) as -> by lia.
  eexists; split; reflexivity.
Qed.

(** ** The decorations of a line *)

Lemma line_spans_sound (lineFrom : Z) (s : jsstring) (sp : Range.t) :
  sp ∈ line_spans lineFrom s ->
  is_match s (Range.from sp - lineFrom) (Range.to sp - Range.from sp).
Proof.
  intros Hsp%list_elem_of_In%in_map_iff.
  destruct Hsp as ([j m] & <- & Hin%list_elem_of_In).
  apply matches_from_sound in Hin as [_ Hm].
  unfold span_of. cbn [fst snd Range.from Range.to].
  replace (lineFrom + j - lineFrom) with j by lia.
  now replace (lineFrom + j + m - (lineFrom + j)) with m by lia.
Qed.

Lemma decorations_sorted_from (lineFrom : Z) (s : jsstring) (lastIndex : Z) :
  let ds := flat_map add_span
              (map (span_of lineFrom) (matches_from s lastIndex)) in
  StronglySorted (fun d1 d2 => snd (fst d1) <= fst (fst d2)) ds
  /\ Forall (fun d => lineFrom + lastIndex <= fst (fst d)
                      /\ fst (fst d) < snd (fst d)) ds.
Proof.
  funelim (matches_from s lastIndex); cbn [map flat_map]; cbv zeta.
  - pose proof (exec_sound _ _ _ _ e) as (Hle & _ & H3 & _).
    match goal with
    | IH : forall lineFrom : Z, _ |- _ =>
        destruct (IH lineFrom) as [Hsorted Hall]
    end.
    cbv zeta in Hsorted, Hall.
    set (rest := flat_map add_span
                   (map (span_of lineFrom) (matches_from s (index + n)))) in *.
    unfold add_span, span_of. cbn [fst snd Range.from Range.to app].
    split.
    + repeat (constructor; cbn [fst snd]; try lia);
        try assumption;
        (eapply Forall_impl; [exact Hall|]; cbn; intros d Hd; lia).
    + repeat (constructor; cbn [fst snd]; try lia).
      eapply Forall_impl; [exact Hall|]. cbn. intros d Hd. lia.
  - split; constructor.
Qed.

(** X11. The [builder.add] calls for a line come in ascending order: each
    decoration covers at least one column, and ends where the next one
    starts or before. *)
Theorem decorations_ascending (lineFrom : Z) (sanitizedLineText : jsstring) :
  StronglySorted (fun d1 d2 => snd (fst d1) <= fst (fst d2))
    (line_decorations lineFrom sanitizedLineText)
  /\ Forall (fun d => fst (fst d) < snd (fst d))
       (line_decorations lineFrom sanitizedLineText).
Proof.
  destruct (decorations_sorted_from lineFrom sanitizedLineText 0)
    as [Hsorted Hall].
  split; [exact Hsorted|].
  eapply Forall_impl; [exact Hall|]. cbn. intros d Hd. lia.
Qed.

(** ** Blanking the skipped ranges *)

Section Blanking.
Variable line : Line.t.
Hypothesis line_extent :
  Line.to line = Line.from line + len (Line.text line).

(** The range [r] covers column [i] of the line. *)
Let covers (r : Range.t) (i : Z) : bool :=
  (Range.from r <=? Line.from line + i) && (Line.from line + i <? Range.to r).

Lemma blank_range_result (sanitized sanitized' : jsstring) (r : Range.t) :
  len sanitized = len (Line.text line) ->
  blank_range line sanitized r = Some sanitized' ->
  len sanitized' = len (Line.text line)
  /\ forall i, 0 <= i < len (Line.text line) ->
       char_at sanitized' i
       = if covers r i then Some SPACE else char_at sanitized i.
Proof.
  intros Hlen. unfold blank_range, covers. cbv zeta.
  pose proof (len_nonneg (Line.text line)) as Hpos.
  destruct (Z.ltb_spec (Line.from line) (Range.to r)) as [Ht|Ht];
    [destruct (Z.ltb_spec (Range.from r) (Line.to line)) as [Hf|Hf]|];
    cbn [andb].
  - unfold repeat_space.
    set (start := Z.max 0 (Range.from r - Line.from line)).
    set (end_ := Z.min (len (Line.text line)) (Range.to r - Line.from line)).
    destruct (Z.ltb_spec (end_ - start) 0) as [|Hse]; [discriminate|].
    cbn [mbind option_bind]. intros [= <-].
    assert (Hs0 : 0 <= start) by (unfold start; lia).
    assert (Hel : end_ <= len sanitized) by (unfold end_; lia).
    rewrite slice_prefix, slice_suffix by lia.
    assert (Hlt : len (take (Z.to_nat start) sanitized) = start).
    { unfold len in *. rewrite length_take. lia. }
    assert (Hlr : len (replicate (Z.to_nat (end_ - start)) SPACE)
                  = end_ - start).
    { unfold len. rewrite length_replicate. lia. }
    split.
    + rewrite !len_app, Hlt, Hlr. unfold len in *. rewrite length_drop. lia.
    + intros i Hi.
      destruct (Z_lt_dec i start) as [Hlow|Hlow].
      * rewrite char_at_app_l by lia. rewrite char_at_take by lia.
        replace (Range.from r <=? Line.from line + i) with false
          by (symmetry; apply Z.leb_gt; unfold start in Hlow; lia).
        reflexivity.
      * rewrite char_at_app_r by lia. rewrite Hlt.
        destruct (Z_lt_dec i end_) as [Hin|Hhigh].
        -- rewrite char_at_app_l by lia.
           replace (Range.from r <=? Line.from line + i) with true
             by (symmetry; apply Z.leb_le; unfold start in Hlow; lia).
           replace (Line.from line + i <? Range.to r) with true
             by (symmetry; apply Z.ltb_lt; unfold end_ in Hin; lia).
           cbn [andb]. unfold char_at.
           destruct (Z.ltb_spec (i - start) 0); [lia|].
           apply lookup_replicate_2. lia.
        -- rewrite char_at_app_r by lia. rewrite Hlr.
           rewrite char_at_drop by lia.
           replace (Line.from line + i <? Range.to r) with false
             by (symmetry; apply Z.ltb_ge; unfold end_ in Hhigh; lia).
           rewrite andb_false_r. f_equal. lia.
  - intros [= <-]. split; [assumption|]. intros i Hi.
    replace (Range.from r <=? Line.from line + i) with false
      by (symmetry; apply Z.leb_gt; lia).
    reflexivity.
  - intros [= <-]. split; [assumption|]. intros i Hi.
    replace (Line.from line + i <? Range.to r) with false
      by (symmetry; apply Z.ltb_ge; lia).
    now rewrite andb_false_r.
Qed.

(** A skipped range that overlaps the line and ends before it starts. *)
Let reversed (r : Range.t) : Prop :=
  Line.from line < Range.to r /\ Range.from r < Line.to line
  /\ Range.to r < Range.from r.

Lemma blank_range_raises (sanitized : jsstring) (r : Range.t) :
  blank_range line sanitized r = None <-> reversed r.
Proof.
  unfold blank_range, reversed. cbv zeta.
  pose proof (len_nonneg (Line.text line)) as Hpos.
  destruct (Z.ltb_spec (Line.from line) (Range.to r)) as [Ht|Ht];
    [destruct (Z.ltb_spec (Range.from r) (Line.to line)) as [Hf|Hf]|];
    cbn [andb]; try (split; [discriminate | lia]).
  unfold repeat_space.
  destruct (Z.ltb_spec
              (Z.min (len (Line.text line)) (Range.to r - Line.from line)
               - Z.max 0 (Range.from r - Line.from line)) 0) as [Hneg|Hok];
    cbn [mbind option_bind].
  - split; [intros _|reflexivity]. lia.
  - split; [discriminate|]. lia.
Qed.

Lemma sanitize_loop_result (skippedRanges : list Range.t)
  (sanitized sanitized' : jsstring) :
  len sanitized = len (Line.text line) ->
  for_of (blank_range line) skippedRanges sanitized = Some sanitized' ->
  len sanitized' = len (Line.text line)
  /\ forall i, 0 <= i < len (Line.text line) ->
       char_at sanitized' i
       = if existsb (fun r => covers r i) skippedRanges
         then Some SPACE else char_at sanitized i.
Proof.
  revert sanitized. induction skippedRanges as [|r rest IH];
    intros sanitized Hlen.
  - intros [= <-]. split; [assumption|]. reflexivity.
  - cbn [for_of existsb].
    destruct (blank_range line sanitized r) as [s1|] eqn:E; [|discriminate].
    cbn [mbind option_bind]. intros Hrest.
    destruct (blank_range_result _ _ _ Hlen E) as [Hlen1 Hpoint1].
    destruct (IH s1 Hlen1 Hrest) as [Hlen' Hpoint].
    split; [assumption|]. intros i Hi.
    rewrite (Hpoint i Hi), (Hpoint1 i Hi).
    destruct (covers r i), (existsb (fun r0 => covers r0 i) rest);
      reflexivity.
Qed.

Lemma sanitize_loop_raises (skippedRanges : list Range.t)
  (sanitized : jsstring) :
  for_of (blank_range line) skippedRanges sanitized = None
  <-> exists r, r ∈ skippedRanges /\ reversed r.
Proof.
  revert sanitized. induction skippedRanges as [|r rest IH]; intros sanitized.
  - cbn. split; [discriminate|]. intros (r & Hin & _).
    now apply elem_of_nil in Hin.
  - cbn [for_of].
    destruct (blank_range line sanitized r) as [s1|] eqn:E;
      cbn [mbind option_bind].
    + rewrite IH. split.
      * intros (r' & Hin & Hrev). exists r'. split; [now right | assumption].
      * intros (r' & [->|Hin]%elem_of_cons & Hrev).
        -- apply (proj2 (blank_range_raises sanitized r)) in Hrev.
           congruence.
        -- eauto.
    + split; [intros _|reflexivity]. exists r. split; [left|].
      now apply (proj1 (blank_range_raises sanitized r)).
Qed.

End Blanking.

(** X12. Blanking keeps the columns of the line: when no skipped range
    ends before it starts, [sanitizedLineText] is as long as the line
    text, holds a space at every column a skipped range covers and the
    character of the line at every other column. *)
Theorem sanitize_blanks (line : Line.t) (skippedRanges : list Range.t) :
  Line.to line = Line.from line + len (Line.text line) ->
  (forall r, r ∈ skippedRanges -> Range.from r <= Range.to r) ->
  exists sanitized,
    sanitize line skippedRanges = Some sanitized
    /\ len sanitized = len (Line.text line)
    /\ forall i, 0 <= i < len (Line.text line) ->
         char_at sanitized i
         = if skipped_at line skippedRanges i
           then Some SPACE else char_at (Line.text line) i.
Proof.
  intros Hext Hwf. unfold sanitize.
  destruct (for_of (blank_range line) skippedRanges (Line.text line))
    as [sanitized|] eqn:E.
  - exists sanitized. split; [reflexivity|].
    now apply (sanitize_loop_result line Hext skippedRanges (Line.text line)).
  - apply (sanitize_loop_raises line Hext) in E as (r & Hin & _ & _ & Hrev).
    specialize (Hwf r Hin). lia.
Qed.

Lemma sanitize_blanks_witness :
  let line := Line.mk 10 21 (js "a `b_c` _d_") in
  exists sanitized,
    sanitize line [Range.mk 12 17; Range.mk 3 5] = Some sanitized
    /\ len sanitized = len (Line.text line)
    /\ forall i, 0 <= i < len (Line.text line) ->
         char_at sanitized i
         = if skipped_at line [Range.mk 12 17; Range.mk 3 5] i
           then Some SPACE else char_at (Line.text line) i.
Proof.
  apply (sanitize_blanks (Line.mk 10 21 (js "a `b_c` _d_"))
           [Range.mk 12 17; Range.mk 3 5]); [reflexivity|].
  intros r Hr. apply list_elem_of_In in Hr.
  destruct Hr as [<-|[<-|[]]]; cbn; lia.
Defined.

Example sanitize_inline_code :
  sanitize (Line.mk 10 21 (js "a `b_c` _d_")) [Range.mk 12 17]
  = Some (js "a       _d_").
Proof. reflexivity. Qed.

(** X13. Blanking raises exactly when some skipped range overlaps the line
    and ends before it starts (the count of spaces to repeat is then
    negative). *)
Theorem sanitize_raises (line : Line.t) (skippedRanges : list Range.t) :
  Line.to line = Line.from line + len (Line.text line) ->
  (sanitize line skippedRanges = None
   <-> exists r, r ∈ skippedRanges
                 /\ Line.from line < Range.to r
                 /\ Range.from r < Line.to line
                 /\ Range.to r < Range.from r).
Proof.
  intros Hext. unfold sanitize. now apply sanitize_loop_raises.
Qed.

Lemma sanitize_raises_witness :
  sanitize (Line.mk 0 10 (js "0123456789")) [Range.mk 5 3] = None.
Proof.
  apply (sanitize_raises (Line.mk 0 10 (js "0123456789")) [Range.mk 5 3]);
    [reflexivity|].
  exists (Range.mk 5 3). split; [left|]. cbn. lia.
Defined.

(** X14. Blanked text pairs no underscore: when [decorate_line] returns,
    every mark it decorates is one column wide and lies on an underscore
    of the line that no skipped range covers, and every underscore of the
    line under a content decoration is covered by a skipped range. *)
Theorem decorations_avoid_skipped
  (line : Line.t) (skippedRanges : list Range.t)
  (ds : list (Z * Z * Decoration)) :
  Line.to line = Line.from line + len (Line.text line) ->
  decorate_line line skippedRanges = Some ds ->
  (forall f t, (f, t, underscoreMarkDecoration) ∈ ds ->
     t = f + 1
     /\ char_at (Line.text line) (f - Line.from line) = Some UNDERSCORE
     /\ skipped_at line skippedRanges (f - Line.from line) = false)
  /\ (forall f t i, (f, t, underscoreContentDecoration) ∈ ds ->
        f <= i < t ->
        char_at (Line.text line) (i - Line.from line) = Some UNDERSCORE ->
        skipped_at line skippedRanges (i - Line.from line) = true).
Proof.
  intros Hext. unfold decorate_line.
  destruct (sanitize line skippedRanges) as [s|] eqn:E; [|discriminate].
  cbn [mbind option_bind]. intros [= <-].
  destruct (sanitize_loop_result line Hext skippedRanges (Line.text line) s
              eq_refl E) as [Hlen Hpoint0].
  assert (Hpoint : forall i, 0 <= i < len (Line.text line) ->
            char_at s i = if skipped_at line skippedRanges i
                          then Some SPACE else char_at (Line.text line) i)
    by exact Hpoint0.
  clear Hpoint0.
  assert (Hmark : forall j, char_at s j = Some UNDERSCORE ->
            char_at (Line.text line) j = Some UNDERSCORE
            /\ skipped_at line skippedRanges j = false).
  { intros j Hj. pose proof (char_at_Some_bounds _ _ _ Hj) as Hb.
    rewrite Hlen in Hb. rewrite (Hpoint j Hb) in Hj.
    destruct (skipped_at line skippedRanges j); [|auto].
    unfold SPACE, UNDERSCORE in Hj. discriminate. }
  assert (Hdeco : forall d, d ∈ line_decorations (Line.from line) s ->
            exists sp, is_match s (Range.from sp - Line.from line)
                         (Range.to sp - Range.from sp)
                       /\ d ∈ add_span sp).
  { intros d Hd%list_elem_of_In%in_flat_map.
    destruct Hd as (sp & Hsp%list_elem_of_In & Hd%list_elem_of_In).
    exists sp. split; [now apply line_spans_sound | assumption]. }
  split.
  - intros f t (sp & Hm & Hd)%Hdeco.
    destruct Hm as (_ & H3 & _ & Ho & Hc & _).
    unfold add_span in Hd. apply list_elem_of_In in Hd.
    destruct Hd as [Hd|[Hd|[Hd|[]]]]; try discriminate;
      injection Hd as <- <-.
    + split; [lia|]. now apply Hmark.
    + split; [lia|]. apply Hmark. rewrite <- Hc. f_equal. lia.
  - intros f t i (sp & Hm & Hd)%Hdeco Hi Hu.
    destruct Hm as (_ & H3 & Hl & _ & _ & Hrun).
    unfold add_span in Hd. apply list_elem_of_In in Hd.
    destruct Hd as [Hd|[Hd|[Hd|[]]]]; try discriminate.
    injection Hd as <- <-.
    destruct (Hrun (i - Line.from line) ltac:(lia)) as (c & Hc & Hclass).
    pose proof (char_at_Some_bounds _ _ _ Hc) as Hb. rewrite Hlen in Hb.
    rewrite (Hpoint _ Hb) in Hc.
    destruct (skipped_at line skippedRanges (i - Line.from line));
      [reflexivity|].
    rewrite Hu in Hc. injection Hc as <-. discriminate.
Qed.

Lemma decorations_avoid_skipped_witness :
  19 = 18 + 1
  /\ char_at (js "a `b_c` _d_") (18 - 10) = Some UNDERSCORE
  /\ skipped_at (Line.mk 10 21 (js "a `b_c` _d_")) [Range.mk 12 17]
       (18 - 10) = false.
Proof.
  apply (proj1 (decorations_avoid_skipped
                  (Line.mk 10 21 (js "a `b_c` _d_")) [Range.mk 12 17]
                  [ (18, 19, underscoreMarkDecoration);
                    (19, 20, underscoreContentDecoration);
                    (20, 21, underscoreMarkDecoration) ]
                  eq_refl eq_refl) 18 19).
  apply list_elem_of_In. left. reflexivity.
Defined.

(** ** The command with the cursor in a word *)

Lemma underscore_is_stop (x : option Z) :
  is_underscore x = true -> STOP_CHARS_test x = true.
Proof.
  destruct x as [c|]; [|discriminate]. cbn. now intros ->%Z.eqb_eq.
Qed.

(** X15. With no selection and the cursor in a word, the command toggles
    the whole word, wherever in the word the cursor is: when the word sits
    between two single underscores the command deletes them and selects
    the word; otherwise it wraps the word in underscores and puts the
    cursor after the closing one. *)
Theorem command_in_word (editor : Editor) (line : jsstring) :
  let lineNum := Pos.line (selFrom editor) in
  let ch := Pos.ch (selFrom editor) in
  let l := Range.from (detectWordRange line ch) in
  let r := Range.to (detectWordRange line ch) in
  let word := take (Z.to_nat (r - l)) (drop (Z.to_nat l) line) in
  selTo editor = selFrom editor ->
  getLine editor lineNum = Some line ->
  0 <= ch <= len line ->
  l <> r ->
  exists editor',
    toggleUnderlineCommand editor = Some editor'
    /\ (forall m, m <> lineNum -> getLine editor' m = getLine editor m)
    /\ if marks_excluded line l r then
         getLine editor' lineNum
         = Some (take (Z.to_nat (l - 1)) line ++ word
                   ++ drop (Z.to_nat (r + 1)) line)
         /\ selFrom editor' = Pos.mk lineNum (l - 1)
         /\ selTo editor' = Pos.mk lineNum (r - 1)
       else
         getLine editor' lineNum
         = Some (take (Z.to_nat l) line ++ [UNDERSCORE] ++ word
                   ++ [UNDERSCORE] ++ drop (Z.to_nat r) line)
         /\ selFrom editor' = Pos.mk lineNum (r + 2)
         /\ selTo editor' = Pos.mk lineNum (r + 2).
Proof.
  intros lineNum ch l r word Hsel Hl Hch Hne.
  pose proof (getLine_Some _ _ _ Hl) as Hn.
  pose proof (detectWordRange_runs line ch) as Hrun.
  assert (Hbounds : 0 <= l < r /\ r <= len line
                    /\ is_underscore (char_at line l) = false).
  { inversion Hrun as [Hc Hr|l' r' Hc HL HR Hr].
    - unfold l, r in Hne. rewrite <- Hr in Hne. cbn in Hne. lia.
    - unfold l, r. rewrite <- Hr. cbn [Range.from Range.to].
      unfold l, r in Hne. rewrite <- Hr in Hne. cbn in Hne.
      apply LeftLoop_result in HL as (Hle & H0 & _ & Hlrun).
      apply RightLoop_result in HR as (Hge & Hmax & _ & Hrrun).
      specialize (H0 ltac:(lia)).
      split; [lia|]. split; [lia|].
      destruct (is_underscore (char_at line l')) eqn:Eu; [|reflexivity].
      apply underscore_is_stop in Eu.
      destruct (Z_lt_dec l' ch);
        [rewrite Hlrun in Eu by lia | rewrite Hrrun in Eu by lia];
        discriminate. }
  destruct Hbounds as (Hlr & Hrl & Hnu).
  assert (Hni : marks_included line l r = false).
  { unfold marks_included. rewrite Hnu. now rewrite andb_false_r. }
  assert (Hcmd : toggleUnderlineCommand editor
                 = applySingleLineToggle editor lineNum l r).
  { unfold toggleUnderlineCommand. rewrite Hsel. fold lineNum ch.
    rewrite !Z.eqb_refl. cbn [negb orb]. rewrite Hl.
    cbn [mbind option_bind]. fold l r.
    now replace (l =? r) with false by (symmetry; apply Z.eqb_neq; lia). }
  rewrite Hcmd.
  assert (Hword : slice line l r = word)
    by (apply slice_inside; lia).
  destruct (marks_excluded line l r) eqn:Hex.
  - pose proof (toggle_unwraps editor lineNum l r line Hl ltac:(lia)) as Ht.
    cbv zeta in Ht. rewrite (getUnderlineState_excluded _ _ _ Hni Hex) in Ht.
    cbn [isUnderlined markFrom markTo contentFrom contentTo] in Ht.
    specialize (Ht eq_refl). rewrite Hword in Ht.
    unfold marks_excluded in Hex.
    repeat (apply andb_true_iff in Hex as [Hex ?]).
    apply Z.ltb_lt in Hex.
    eexists. split; [exact Ht|]. cbn [selFrom selTo].
    split; [intros m Hm; apply getLine_other; [lia | assumption]|].
    split.
    + erewrite getLine_updated by eassumption. f_equal. unfold splice.
      rewrite slice_prefix, slice_suffix by lia. reflexivity.
    + split; [reflexivity|]. f_equal.
      unfold word, len. rewrite length_take, length_drop.
      unfold len in Hrl. lia.
  - pose proof (toggle_wraps editor lineNum l r line Hl ltac:(lia)) as Ht.
    rewrite (getUnderlineState_plain _ _ _ Hni Hex) in Ht.
    specialize (Ht eq_refl). rewrite Hword in Ht.
    eexists. split; [exact Ht|]. cbn [selFrom selTo].
    split; [intros m Hm; apply getLine_other; [lia | assumption]|].
    assert (Hlw : len word = r - l).
    { unfold word, len. rewrite length_take, length_drop.
      unfold len in Hrl. lia. }
    split.
    + erewrite getLine_updated by eassumption. f_equal. unfold splice.
      rewrite slice_prefix, slice_suffix by lia. unfold wrapped.
      cbn [app]. now rewrite <- app_assoc.
    + rewrite Hlw. split; f_equal; lia.
Qed.

Lemma command_in_word_witness :
  let editor := mkEditor [js "say _hello_ now"] (Pos.mk 0 7) (Pos.mk 0 7) in
  exists editor',
    toggleUnderlineCommand editor = Some editor'
    /\ (forall m, m <> 0 -> getLine editor' m = getLine editor m)
    /\ getLine editor' 0 = Some (js "say hello now")
    /\ selFrom editor' = Pos.mk 0 4
    /\ selTo editor' = Pos.mk 0 9.
Proof.
  apply (command_in_word
           (mkEditor [js "say _hello_ now"] (Pos.mk 0 7) (Pos.mk 0 7))
           (js "say _hello_ now"));
    [reflexivity | reflexivity | now vm_compute | now vm_compute].
Defined.

(** ** The decorations of the viewport *)

Lemma ascending_decorations_app (ds1 ds2 : list (Z * Z * Decoration)) :
  ascending_decorations ds1 -> ascending_decorations ds2 ->
  (forall d1 d2, d1 ∈ ds1 -> d2 ∈ ds2 -> snd (fst d1) <= fst (fst d2)) ->
  ascending_decorations (ds1 ++ ds2).
Proof.
  unfold ascending_decorations. intros H1 H2 Hcross.
  induction H1 as [|d ds1 Hs IH Hall]; [exact H2|].
  cbn [app]. constructor.
  - apply IH. intros d1 d2 Hd1 Hd2. apply Hcross; [now right | assumption].
  - apply Forall_app. split; [exact Hall|].
    apply Forall_forall. intros d2 Hd2. apply Hcross; [left | assumption].
Qed.

(** The decorations of a line lie on the line. *)
Lemma decorations_inside (lineFrom : Z) (s : jsstring)
  (d : Z * Z * Decoration) :
  d ∈ line_decorations lineFrom s ->
  lineFrom <= fst (fst d) /\ fst (fst d) < snd (fst d)
  /\ snd (fst d) <= lineFrom + len s.
Proof.
  intros Hd%list_elem_of_In%in_flat_map.
  destruct Hd as (sp & Hsp%list_elem_of_In & Hd).
  apply line_spans_sound in Hsp as (H0 & H3 & Hl & _).
  unfold add_span in Hd.
  destruct Hd as [<-|[<-|[<-|[]]]]; cbn [fst snd]; lia.
Qed.

Lemma decorate_line_result (line : Line.t) (skippedRanges : list Range.t) :
  Line.to line = Line.from line + len (Line.text line) ->
  (forall r, r ∈ skippedRanges -> Range.from r <= Range.to r) ->
  exists added,
    decorate_line line skippedRanges = Some added
    /\ ascending_decorations added
    /\ forall d, d ∈ added ->
         Line.from line <= fst (fst d) /\ fst (fst d) < snd (fst d)
         /\ snd (fst d) <= Line.to line.
Proof.
  intros Hext Hwf. unfold decorate_line, sanitize.
  destruct (for_of (blank_range line) skippedRanges (Line.text line))
    as [s|] eqn:E.
  - destruct (sanitize_loop_result line Hext skippedRanges (Line.text line) s
                eq_refl E) as [Hlen _].
    cbn [mbind option_bind]. eexists. split; [reflexivity|]. split.
    + apply (decorations_sorted_from (Line.from line) s 0).
    + intros d Hd%decorations_inside. rewrite Hext, <- Hlen. exact Hd.
  - apply (sanitize_loop_raises line Hext) in E as (r & Hin & _ & _ & Hrev).
    specialize (Hwf r Hin). lia.
Qed.

(** The line after a line starts one position past its end. *)
Lemma next_line_starts_after (doc : Text.t) (pos : Z) (line line' : Line.t) :
  document_lines doc ->
  Text.lineAt doc pos = Some line ->
  Line.from line <= pos <= Line.to line ->
  Text.lineAt doc (Line.to line + 1) = Some line' ->
  Line.from line' <= Line.to line + 1 <= Line.to line' ->
  Line.from line' = Line.to line + 1.
Proof.
  intros [_ Hsame] Hl Hin Hl' Hin'.
  destruct (Z_le_dec (Line.from line') (Line.to line)) as [Hov|]; [|lia].
  exfalso.
  assert (H1 : Text.lineAt doc (Line.to line) = Some line)
    by (apply (Hsame pos); [assumption | lia]).
  assert (H2 : Text.lineAt doc (Line.to line) = Some line')
    by (apply (Hsame (Line.to line + 1)); [assumption | lia]).
  assert (line = line') by congruence. subst line'. lia.
Qed.

Lemma scan_viewport_runs (doc : Text.t) (vpTo : Z)
  (skippedRanges : list Range.t) :
  document_lines doc ->
  (forall r, r ∈ skippedRanges -> Range.from r <= Range.to r) ->
  forall (fuel : nat) (pos : Z) (builder : list (Z * Z * Decoration)),
    0 <= pos ->
    Text.length doc + 1 - pos < Z.of_nat fuel -> (0 < fuel)%nat ->
    ascending_decorations builder ->
    Forall (fun d => fst (fst d) < snd (fst d)) builder ->
    (forall line, Text.lineAt doc pos = Some line ->
       Line.from line <= pos ->
       forall d, d ∈ builder -> snd (fst d) <= Line.from line) ->
    exists ds,
      scan_viewport fuel doc vpTo skippedRanges pos builder = Some (Some ds)
      /\ ascending_decorations ds
      /\ Forall (fun d => fst (fst d) < snd (fst d)) ds.
Proof.
  intros Hdoc Hwf. pose proof Hdoc as [Hline Hsame].
  induction fuel as [|n IH];
    intros pos builder Hpos Hfuel Hn Hsorted Hne Hbefore;
    [lia|].
  cbn [scan_viewport].
  destruct (Z.leb_spec pos (Z.min vpTo (Text.length doc))) as [Hle|Hgt];
    [|eauto].
  destruct (Hline pos ltac:(lia)) as (line & Hl & Hin & Hext & Hend).
  rewrite Hl.
  destruct (decorate_line_result line skippedRanges Hext Hwf)
    as (added & Hdeco & Hasc & Hinside).
  rewrite Hdeco. cbv zeta.
  assert (Hsorted' : ascending_decorations (builder ++ added)).
  { apply ascending_decorations_app; [assumption | assumption|].
    intros d1 d2 Hd1 Hd2. specialize (Hbefore line Hl (proj1 Hin) d1 Hd1).
    destruct (Hinside d2 Hd2) as (? & _). lia. }
  assert (Hne' : Forall (fun d => fst (fst d) < snd (fst d))
                   (builder ++ added)).
  { apply Forall_app. split; [assumption|].
    apply Forall_forall. intros d Hd.
    now destruct (Hinside d Hd) as (_ & ? & _). }
  destruct (Z.leb_spec (Text.length doc) (Line.to line)) as [Hlast|Hmore];
    [eauto|].
  apply IH; try assumption; try lia.
  intros line' Hl' Hfrom' d Hd.
  destruct (Hline (Line.to line + 1) ltac:(lia)) as (l2 & Hl2 & Hin2 & _).
  assert (l2 = line') by congruence. subst l2.
  rewrite (next_line_starts_after doc pos line line' Hdoc Hl Hin Hl' Hin2).
  apply elem_of_app in Hd as [Hd|Hd].
  - specialize (Hbefore line Hl (proj1 Hin) d Hd). lia.
  - destruct (Hinside d Hd) as (_ & _ & ?). lia.
Qed.

(** X16. On a document whose lines [lineAt] finds, with skipped ranges
    that do not end before they start and a viewport that starts at or
    after 0, [buildDecorations] returns without raising, within the
    iterations allowed to its loop and whatever more are allowed; the
    decorations it hands to the builder, over all lines of the viewport,
    are in ascending order, and each covers at least one position. *)
Theorem viewport_decorations_ascending
  (doc : Text.t) (vpFrom vpTo : Z) (skippedRanges : list Range.t) :
  document_lines doc ->
  (forall r, r ∈ skippedRanges -> Range.from r <= Range.to r) ->
  0 <= vpFrom ->
  exists ds,
    buildDecorations doc vpFrom vpTo skippedRanges = Some (Some ds)
    /\ (forall extra : nat,
          scan_viewport (viewport_fuel doc vpFrom + extra) doc vpTo
            skippedRanges vpFrom [] = Some (Some ds))
    /\ ascending_decorations ds
    /\ Forall (fun d => fst (fst d) < snd (fst d)) ds.
Proof.
  intros Hdoc Hwf Hvp.
  assert (Hrun : forall extra : nat, exists ds,
            scan_viewport (viewport_fuel doc vpFrom + extra) doc vpTo
              skippedRanges vpFrom [] = Some (Some ds)
            /\ ascending_decorations ds
            /\ Forall (fun d => fst (fst d) < snd (fst d)) ds).
  { intros extra. apply scan_viewport_runs; try assumption.
    - unfold viewport_fuel. lia.
    - unfold viewport_fuel. lia.
    - constructor.
    - constructor.
    - intros line _ _ d Hd. now apply elem_of_nil in Hd. }
  destruct (Hrun 0%nat) as (ds & Hds & Hasc & Hne).
  rewrite Nat.add_0_r in Hds. exists ds. split; [exact Hds|].
  split; [|split; assumption].
  intros extra. destruct (Hrun extra) as (ds' & Hds' & _).
  rewrite Hds'. do 2 f_equal.
  (* the result does not depend on the iterations left over *)
  clear Hrun Hasc Hne. revert Hds Hds'. unfold viewport_fuel.
  generalize (S (Z.to_nat (Text.length doc + 1 - vpFrom))) as fuel.
  generalize (@nil (Z * Z * Decoration)) as builder. generalize vpFrom as pos.
  intros pos builder fuel. revert pos builder.
  induction fuel as [|n IH]; intros pos builder; [discriminate|].
  cbn [Nat.add scan_viewport].
  repeat match goal with
         | |- context [if ?c then _ else _] => destruct c
         | |- context [match ?x with Some _ => _ | None => _ end] =>
             destruct x
         end; try congruence.
  apply IH.
Qed.

Lemma viewport_decorations_ascending_witness :
  let doc :=
    Text.mk 7 (fun pos =>
      if pos <? 0 then None
      else if pos <=? 3 then Some (Line.mk 0 3 (js "_a_"))
      else if pos <=? 7 then Some (Line.mk 4 7 (js "_b_"))
      else None) in
  exists ds,
    buildDecorations doc 0 7 [Range.mk 20 30] = Some (Some ds)
    /\ (forall extra : nat,
          scan_viewport (viewport_fuel doc 0 + extra) doc 7
            [Range.mk 20 30] 0 [] = Some (Some ds))
    /\ ascending_decorations ds
    /\ Forall (fun d => fst (fst d) < snd (fst d)) ds.
Proof.
  apply viewport_decorations_ascending; [split | | lia].
  - intros pos Hpos. cbn [Text.lineAt Text.length] in *.
    destruct (Z.ltb_spec pos 0); [lia|].
    destruct (Z.leb_spec pos 3);
      [|destruct (Z.leb_spec pos 7); [|lia]];
      eexists; (split; [reflexivity|]);
      cbn [Line.from Line.to Line.text]; repeat split; try lia;
      now vm_compute.
  - intros pos line pos'. cbn [Text.lineAt].
    destruct (Z.ltb_spec pos 0); [discriminate|].
    destruct (Z.leb_spec pos 3);
      [|destruct (Z.leb_spec pos 7); [|discriminate]];
      intros [= <-]; cbn [Line.from Line.to]; intros Hin;
      destruct (Z.ltb_spec pos' 0); try lia;
      destruct (Z.leb_spec pos' 3); try lia; try reflexivity;
      destruct (Z.leb_spec pos' 7); try lia; reflexivity.
  - intros r Hr. apply list_elem_of_In in Hr.
    destruct Hr as [<-|[]]. cbn. lia.
Defined.

Example viewport_two_lines :
  buildDecorations
    (Text.mk 7 (fun pos =>
       if pos <? 0 then None
       else if pos <=? 3 then Some (Line.mk 0 3 (js "_a_"))
       else if pos <=? 7 then Some (Line.mk 4 7 (js "_b_"))
       else None)) 0 7 []
  = Some (Some [ (0, 1, underscoreMarkDecoration);
                 (1, 2, underscoreContentDecoration);
                 (2, 3, underscoreMarkDecoration);
                 (4, 5, underscoreMarkDecoration);
                 (5, 6, underscoreContentDecoration);
                 (6, 7, underscoreMarkDecoration) ]).
Proof. reflexivity. Qed.

(** ** The order of the edits *)

Lemma editor_eq (e1 e2 : Editor) :
  lines e1 = lines e2 -> selFrom e1 = selFrom e2 -> selTo e1 = selTo e2 ->
  e1 = e2.
Proof. destruct e1, e2. cbn. now intros -> -> ->. Qed.

Lemma lines_eq_by_getLine (e1 e2 : Editor) :
  (forall i, getLine e1 i = getLine e2 i) -> lines e1 = lines e2.
Proof.
  intros H. apply list_eq. intros k. specialize (H (Z.of_nat k)).
  unfold getLine in H. destruct (Z.ltb_spec (Z.of_nat k) 0); [lia|].
  now rewrite Nat2Z.id in H.
Qed.

(** X17. The edits of the multi-line toggle do not depend on the order in
    which the lines are visited: going through the selected lines from the
    first to the last leaves the editor exactly as the loop of
    [applyMultiLineToggle], which goes from the last to the first, leaves
    it. *)
Theorem edit_order_is_irrelevant
  (remove : bool) (from to : Pos.t) (editor : Editor) :
  0 <= Pos.ch from ->
  (forall i, Pos.line from <= i <= Pos.line to ->
             is_Some (getLine editor i)) ->
  exists editor',
    for_each (toggle_body remove from to)
      (descending (Pos.line from) (Pos.line to)) editor = Some editor'
    /\ for_each (toggle_body remove from to)
         (ascending (Pos.line from) (Pos.line to)) editor = Some editor'.
Proof.
  intros Hch Hex.
  assert (Hnd : NoDup (descending (Pos.line from) (Pos.line to))).
  { unfold descending. rewrite reverse_Permutation. apply NoDup_seqZ. }
  assert (Hna : NoDup (ascending (Pos.line from) (Pos.line to)))
    by apply NoDup_seqZ.
  assert (Hed : forall i, i ∈ descending (Pos.line from) (Pos.line to) ->
                          is_Some (getLine editor i)).
  { intros i Hi%in_descending. now apply Hex. }
  assert (Hea : forall i, i ∈ ascending (Pos.line from) (Pos.line to) ->
                          is_Some (getLine editor i)).
  { intros i Hi%in_ascending. now apply Hex. }
  destruct (toggle_loop from to Hch remove _ editor Hnd Hed)
    as (ed & Hd & Hdl).
  destruct (toggle_loop from to Hch remove _ editor Hna Hea)
    as (ea & Ha & Hal).
  destruct (toggle_loop_frame remove from to _ editor Hed)
    as (ed' & Hd' & Hdlen & Hdsf & Hdst & _).
  destruct (toggle_loop_frame remove from to _ editor Hea)
    as (ea' & Ha' & Halen & Hasf & Hast & _).
  assert (ed' = ed) by congruence. assert (ea' = ea) by congruence.
  subst ed' ea'.
  exists ed. split; [exact Hd|]. rewrite Ha. f_equal.
  apply editor_eq; [|congruence|congruence].
  apply lines_eq_by_getLine. intros i.
  destruct (getLine editor i) as [line|] eqn:Hl.
  - rewrite (Hal i line Hl), (Hdl i line Hl).
    destruct (decide (i ∈ ascending (Pos.line from) (Pos.line to)))
      as [Hin|Hout];
      destruct (decide (i ∈ descending (Pos.line from) (Pos.line to)))
      as [Hin'|Hout']; try reflexivity; exfalso.
    + apply Hout'. apply in_descending. now apply in_ascending.
    + apply Hout. apply in_ascending. now apply in_descending.
  - assert (Hnone : forall e, length (lines e) = length (lines editor) ->
                               getLine e i = None).
    { intros e He. destruct (getLine e i) eqn:E; [|reflexivity].
      assert (Hs : is_Some (getLine e i)) by eauto.
      apply getLine_is_Some in Hs. rewrite He in Hs.
      apply getLine_is_Some in Hs. destruct Hs as [? Hs]. congruence. }
    now rewrite !Hnone.
Qed.

Lemma edit_order_is_irrelevant_witness :
  let editor := mkEditor [js "_a_"; js "b"; js "c d"]
                  (Pos.mk 0 0) (Pos.mk 2 1) in
  exists editor',
    for_each (toggle_body false (Pos.mk 0 0) (Pos.mk 2 1))
      (descending 0 2) editor = Some editor'
    /\ for_each (toggle_body false (Pos.mk 0 0) (Pos.mk 2 1))
         (ascending 0 2) editor = Some editor'.
Proof.
  apply (edit_order_is_irrelevant false (Pos.mk 0 0) (Pos.mk 2 1)
           (mkEditor [js "_a_"; js "b"; js "c d"] (Pos.mk 0 0) (Pos.mk 2 1)));
    [cbn; lia|].
  cbn [Pos.line]. intros i Hi.
  assert (i = 0 \/ i = 1 \/ i = 2) as [-> | [-> | ->]] by lia;
    eexists; reflexivity.
Defined.
